(** * Personal finance tracker: normalisation, categorisation, aggregation

    A shallow embedding of the core of the tracker
    ([src/categorizer.py], [src/csv_import.py], [src/database.py]) and the
    properties of its specification that were checked against it.

    Modelling conventions.
    - Python [str] values are [string]s of ASCII text; the currency
      symbols "€" and "£" are the sequences of their UTF-8 bytes.  The
      functions on text ([lower], [strip], the digit tests, [float],
      [strptime]) are those of Python on such text; what Python does
      with other characters (white space and digits outside ASCII, case
      folding of other letters) is not modelled.
    - A Python [float] or SQLite [REAL] value is a double (binary64): a
      finite one is the rational number it stands for ([Q]), and
      [pyfloat] adds the two infinities and NaN; the sign of zero is not
      kept.  [float()] rounds to the nearest double, and the arithmetic
      of [check_budget_alerts] (its sum, product and quotient) is that of
      doubles, with [Binary64.round].  The sums of [get_monthly_summary]
      and [get_category_spending] are the exact sums of the amounts: the
      rounding of their last digits is outside the model.
    - A SQL [ORDER BY] fixes the order of rows up to rows with equal sort
      keys; the order of such rows is left to the engine, so an ordered
      query is a relation between the store and the returned list. *)

From Stdlib Require Import Bool Arith ZArith QArith Qabs Lia List.
From Stdlib Require Import Ascii String DecimalString.
From Stdlib Require Import Permutation Sorted.
From Stdlib Require SpecFloat.
Import ListNotations.

Set Warnings "-abstract-large-number".
Close Scope Q_scope.
Local Open Scope list_scope.
Local Open Scope string_scope.
Local Open Scope nat_scope.

(* ================================================================== *)
(** * Python strings *)

Module PyStr.

Definition code (c : ascii) : nat := nat_of_ascii c.

(** [str.isspace] on the ASCII range. *)
Definition is_space (c : ascii) : bool :=
  let n := code c in
  ((9 <=? n) && (n <=? 13)) || ((28 <=? n) && (n <=? 32)).

Definition digit_val (c : ascii) : option nat :=
  let n := code c in
  if (48 <=? n) && (n <=? 57) then Some (n - 48) else None.

Definition is_digit (c : ascii) : bool :=
  match digit_val c with Some _ => true | None => false end.

Definition digit_char (d : nat) : ascii := ascii_of_nat (48 + d).

Definition lower_ascii (c : ascii) : ascii :=
  let n := code c in
  if (65 <=? n) && (n <=? 90) then ascii_of_nat (n + 32) else c.

(** [s.lower()] *)
Fixpoint lower (s : string) : string :=
  match s with
  | EmptyString => EmptyString
  | String c s' => String (lower_ascii c) (lower s')
  end.

(** [s.startswith(p)] *)
Definition startswith (s p : string) : bool := String.prefix p s.

(** [k in s] *)
Fixpoint str_in (k s : string) : bool :=
  if String.prefix k s then true
  else match s with
       | EmptyString => false
       | String _ s' => str_in k s'
       end.

Fixpoint lstrip (s : string) : string :=
  match s with
  | EmptyString => EmptyString
  | String c s' => if is_space c then lstrip s' else s
  end.

Fixpoint rstrip (s : string) : string :=
  match s with
  | EmptyString => EmptyString
  | String c s' =>
      match rstrip s' with
      | EmptyString => if is_space c then EmptyString else String c EmptyString
      | r => String c r
      end
  end.

(** [s.strip()] *)
Definition strip (s : string) : string := rstrip (lstrip s).

(** The white space that [float()] and [int()] skip at both ends of
    ASCII text: that of C's [isspace], without the four separators
    (codes 28 to 31) that [str.strip] also removes. *)
Definition is_c_space (c : ascii) : bool :=
  let n := code c in
  ((9 <=? n) && (n <=? 13)) || (n =? 32).

Fixpoint c_lstrip (s : string) : string :=
  match s with
  | EmptyString => EmptyString
  | String c s' => if is_c_space c then c_lstrip s' else s
  end.

Fixpoint c_rstrip (s : string) : string :=
  match s with
  | EmptyString => EmptyString
  | String c s' =>
      match c_rstrip s' with
      | EmptyString => if is_c_space c then EmptyString else String c EmptyString
      | r => String c r
      end
  end.

Definition c_strip (s : string) : string := c_rstrip (c_lstrip s).

Fixpoint replace_from (old new : string) (skip : nat) (s : string) : string :=
  match s with
  | EmptyString => EmptyString
  | String c s' =>
      match skip with
      | S k => replace_from old new k s'
      | O =>
          if String.prefix old s
          then new ++ replace_from old new (String.length old - 1) s'
          else String c (replace_from old new 0 s')
      end
  end.

(** [s.replace(old, new)] for a non-empty [old]: occurrences are
    replaced from the left and do not overlap. *)
Definition replace (old new s : string) : string := replace_from old new 0 s.

(** Every character of [s] passes the test [p]. *)
Fixpoint all_chars (p : ascii -> bool) (s : string) : bool :=
  match s with
  | EmptyString => true
  | String c s' => p c && all_chars p s'
  end.

(** White space only; ASCII only; digits and decimal points only. *)
Definition all_space : string -> bool := all_chars is_space.
Definition ascii_only : string -> bool := all_chars (fun c => code c <? 128).

(** ASCII text without the four separators: its white space is the
    same for [str.strip] and for [float()]. *)
Definition plain_char (c : ascii) : bool :=
  (code c <? 128) && negb ((28 <=? code c) && (code c <=? 31)).
Definition plain : string -> bool := all_chars plain_char.
Definition digits_and_points : string -> bool :=
  all_chars (fun c => is_digit c || Ascii.eqb c ".").

(** [rstrip] leaves [s] whole, and [s] is not empty. *)
Definition keeps (s : string) : Prop := rstrip s = s /\ s <> "".

(** The characters of a signed decimal numeral. *)
Definition numeral_char (c : ascii) : bool :=
  is_digit c || Ascii.eqb c "." || Ascii.eqb c "-" || Ascii.eqb c "+".

End PyStr.

(* ================================================================== *)
(** * Python floats *)

Module PyFloat.

Inductive pyfloat : Type :=
| Fin (q : Q)
| PInf
| NInf
| NaN.

(** [x > 0] *)
Definition gt0 (x : pyfloat) : bool :=
  match x with
  | Fin q => negb (Qle_bool q 0%Q)
  | PInf => true
  | NInf | NaN => false
  end.

(** [abs(x)] *)
Definition fabs (x : pyfloat) : pyfloat :=
  match x with
  | Fin q => Fin (Qabs q)
  | PInf | NInf => PInf
  | NaN => NaN
  end.

(** [-x] *)
Definition fneg (x : pyfloat) : pyfloat :=
  match x with
  | Fin q => Fin (- q)%Q
  | PInf => NInf
  | NInf => PInf
  | NaN => NaN
  end.

(** [x == y] *)
Definition feq (x y : pyfloat) : Prop :=
  match x, y with
  | Fin a, Fin b => (a == b)%Q
  | PInf, PInf | NInf, NInf => True
  | _, _ => False
  end.

(** [x >= y] *)
Definition fge (x y : pyfloat) : bool :=
  match x, y with
  | NaN, _ | _, NaN => false
  | PInf, _ => true
  | _, NInf => true
  | NInf, _ => false
  | _, PInf => false
  | Fin a, Fin b => Qle_bool b a
  end.

End PyFloat.

(* ================================================================== *)
(** * Doubles *)

Module Binary64.
Import PyFloat.

Definition prec : Z := 53.
Definition emax : Z := 1024.

(** The number a finite double stands for, in lowest terms. *)
Definition value (s : bool) (m : positive) (e : Z) : Q :=
  let n := if s then Zneg m else Zpos m in
  Qred (match e with
        | Z0 => n # 1
        | Zpos p => (n * 2 ^ e) # 1
        | Zneg p => n # (2 ^ p)
        end).

Definition to_pyfloat (x : SpecFloat.spec_float) : pyfloat :=
  match x with
  | SpecFloat.S754_zero _ => Fin 0
  | SpecFloat.S754_infinity false => PInf
  | SpecFloat.S754_infinity true => NInf
  | SpecFloat.S754_nan => NaN
  | SpecFloat.S754_finite s m e => Fin (value s m e)
  end.

(** The double nearest to [q], the one with the even mantissa when [q]
    is half way between two, and an infinity when [q] is beyond the
    range of doubles: numerator and denominator are divided as the
    division of doubles divides two mantissas. *)
Definition round (q : Q) : pyfloat :=
  match Qnum q with
  | Z0 => Fin 0
  | Zpos n =>
      to_pyfloat (SpecFloat.SFdiv prec emax (SpecFloat.S754_finite false n 0)
                    (SpecFloat.S754_finite false (Qden q) 0))
  | Zneg n =>
      to_pyfloat (SpecFloat.SFdiv prec emax (SpecFloat.S754_finite true n 0)
                    (SpecFloat.S754_finite false (Qden q) 0))
  end.

(** [a + b], [a * b] and [a / b] on doubles: the exact result, rounded.
    [div] is for a divisor that is not 0. *)
Definition add (a b : Q) : pyfloat := round (a + b).
Definition mul (a b : Q) : pyfloat := round (a * b).
Definition div (a b : Q) : pyfloat := round (a / b).

(** The same with a first operand that may be infinite; NaN where SQL
    has NULL. *)
Definition times (x : pyfloat) (b : Q) : pyfloat :=
  match x with
  | Fin a => mul a b
  | PInf => if Qle_bool b 0 then (if Qle_bool 0 b then NaN else NInf) else PInf
  | NInf => if Qle_bool b 0 then (if Qle_bool 0 b then NaN else PInf) else NInf
  | NaN => NaN
  end.

Definition over (x : pyfloat) (b : Q) : pyfloat :=
  if Qeq_bool b 0 then NaN
  else match x with
       | Fin a => div a b
       | PInf => if Qle_bool b 0 then NInf else PInf
       | NInf => if Qle_bool b 0 then PInf else NInf
       | NaN => NaN
       end.

End Binary64.

(* ================================================================== *)
(** * [categorizer.py] *)

Module Categorizer.
Import PyStr PyFloat.

(** [self.category_keywords]: a dict, iterated in insertion order. *)
Definition rule_table : Type := list (string * list string).

Definition default_category_keywords : rule_table :=
  [ ("Food & Dining",
      ["restaurant"; "cafe"; "food"; "grocery"; "supermarket";
       "starbucks"; "mcdonald"; "pizza"; "burger"; "delivery";
       "uber eats"; "doordash"; "grubhub"; "dining"]);
    ("Transportation",
      ["gas"; "fuel"; "uber"; "lyft"; "taxi"; "parking";
       "car wash"; "toll"; "metro"; "bus"; "train"; "subway";
       "vehicle"; "maintenance"; "repair"]);
    ("Shopping",
      ["amazon"; "walmart"; "target"; "mall"; "store";
       "clothing"; "shoes"; "electronics"; "online shopping";
       "ebay"; "etsy"; "fashion"; "retail"]);
    ("Bills & Utilities",
      ["electric"; "water"; "gas bill"; "internet"; "phone";
       "cable"; "insurance"; "rent"; "mortgage"; "utility";
       "subscription"; "netflix"; "spotify"; "hulu"]);
    ("Entertainment",
      ["movie"; "cinema"; "theater"; "concert"; "game";
       "streaming"; "hobby"; "sports"; "gym"; "fitness";
       "recreation"; "amusement"; "ticket"]);
    ("Healthcare",
      ["pharmacy"; "doctor"; "hospital"; "clinic"; "medical";
       "dentist"; "prescription"; "health"; "medicine";
       "therapy"; "wellness"]);
    ("Salary",
      ["salary"; "payroll"; "wages"; "paycheck"; "employer";
       "direct deposit"; "income"]);
    ("Freelance",
      ["freelance"; "consulting"; "contract"; "gig";
       "side job"; "project payment"]) ].

(** The inner loop of [categorize]: [for keyword in keywords]. *)
Fixpoint scan_keywords (keywords : list string) (description_lower : string) : bool :=
  match keywords with
  | [] => false
  | keyword :: rest =>
      if str_in keyword description_lower then true
      else scan_keywords rest description_lower
  end.

(** The outer loop: [for category, keywords in self.category_keywords.items()]. *)
Fixpoint scan_categories (items : rule_table) (description_lower : string) : option string :=
  match items with
  | [] => None
  | (category, keywords) :: rest =>
      if scan_keywords keywords description_lower then Some category
      else scan_categories rest description_lower
  end.

Definition categorize (category_keywords : rule_table) (description : string) : string :=
  let description_lower := lower description in
  match scan_categories category_keywords description_lower with
  | Some category => category
  | None => "Other Expenses"
  end.

(** [any(word in description.lower() for word in words)] *)
Definition any_word_in (words : list string) (description : string) : bool :=
  existsb (fun word => str_in word (lower description)) words.

Definition get_suggested_category (category_keywords : rule_table)
    (description : string) (amount : pyfloat) : string :=
  let base_category := categorize category_keywords description in
  if gt0 amount && startswith base_category "Other" then
    if any_word_in ["salary"; "payroll"; "employer"] description then "Salary"
    else if any_word_in ["freelance"; "consulting"; "contract"] description then "Freelance"
    else "Other Income"
  else base_category.

(** The specification's wording of [categorize], for comparison with
    the loops above: the first entry of the table, in table order, one
    of whose keywords occurs in the lowercased description; the default
    category when there is none. *)
Definition keyword_occurs (description : string) (entry : string * list string) : bool :=
  existsb (fun keyword => str_in keyword (lower description)) (snd entry).

Definition categorize_spec (table : rule_table) (description : string) : string :=
  match find (keyword_occurs description) table with
  | Some entry => fst entry
  | None => "Other Expenses"
  end.

End Categorizer.

(* ================================================================== *)
(** * Exceptions *)

Module Py.

Inductive exn : Type :=
| ValueError.

Inductive result (A : Type) : Type :=
| Ok (a : A)
| Raise (e : exn).
Arguments Ok {A} a.
Arguments Raise {A} e.


End Py.

(* ================================================================== *)
(** * [float(str)] *)

Module FloatOfString.
Import PyStr PyFloat Py.

(** Underscores are accepted between two digits only; the accepted
    ones are dropped before the number is read.  [prev] is the
    character before [s]. *)
Fixpoint drop_underscores (prev : ascii) (s : string) : option string :=
  match s with
  | EmptyString => if Ascii.eqb prev "_" then None else Some EmptyString
  | String c s' =>
      if Ascii.eqb c "_" then
        if is_digit prev then drop_underscores c s' else None
      else if Ascii.eqb prev "_" && negb (is_digit c) then None
      else option_map (String c) (drop_underscores c s')
  end.

Definition take_sign (s : string) : bool * string :=
  match s with
  | String "-" r => (true, r)
  | String "+" r => (false, r)
  | _ => (false, s)
  end.

(** The longest prefix of digits, most significant first. *)
Fixpoint take_digits (s : string) : list nat * string :=
  match s with
  | EmptyString => ([], EmptyString)
  | String c s' =>
      match digit_val c with
      | Some d => let (ds, r) := take_digits s' in (d :: ds, r)
      | None => ([], s)
      end
  end.

Definition digits_value (ds : list nat) : Z :=
  fold_left (fun acc d => (10 * acc + Z.of_nat d)%Z) ds 0%Z.

(** [m * 10^e] *)
Definition scale10 (m e : Z) : Q :=
  if (0 <=? e)%Z then inject_Z (m * 10 ^ e)
  else Qmake m (Z.to_pos (10 ^ (- e))).

(** Case-insensitive match of a lowercase word at the head of [s];
    the rest of [s] when it matches. *)
Fixpoint match_word (word s : string) : option string :=
  match word with
  | EmptyString => Some s
  | String w word' =>
      match s with
      | String c s' =>
          if Ascii.eqb (lower_ascii c) w then match_word word' s' else None
      | EmptyString => None
      end
  end.

Definition parse_inf_or_nan (s : string) : option (pyfloat * string) :=
  let (negate, p) := take_sign s in
  match match_word "inf" p with
  | Some r =>
      let r' := match match_word "inity" r with Some r2 => r2 | None => r end in
      Some (if negate then NInf else PInf, r')
  | None =>
      match match_word "nan" p with
      | Some r => Some (NaN, r)
      | None => None
      end
  end.

(** An exponent part is read only when it has at least one digit. *)
Definition parse_exponent (s : string) : Z * string :=
  match s with
  | String c r =>
      if Ascii.eqb (lower_ascii c) "e" then
        let (esign, r1) := take_sign r in
        let (ds, r2) := take_digits r1 in
        match ds with
        | [] => (0%Z, s)
        | _ => ((if esign then - digits_value ds else digits_value ds)%Z, r2)
        end
      else (0%Z, s)
  | EmptyString => (0%Z, s)
  end.

(** The number at the head of [s], rounded to a double, and what
    follows it. *)
Definition strtod (s : string) : option (pyfloat * string) :=
  match parse_inf_or_nan s with
  | Some r => Some r
  | None =>
      let (negate, s1) := take_sign s in
      let (ip, s2) := take_digits s1 in
      let (fp, s3) :=
        match s2 with
        | String "." r => take_digits r
        | _ => ([], s2)
        end in
      match (ip ++ fp)%list with
      | [] => None
      | ds =>
          let (e, s4) := parse_exponent s3 in
          let q := scale10 (digits_value ds) (e - Z.of_nat (List.length fp)) in
          Some (Binary64.round (if negate then (- q)%Q else q), s4)
      end
  end.

(** [float(x)] for a string [x]. *)
Definition float (x : string) : result pyfloat :=
  match drop_underscores zero (c_strip x) with
  | None => Raise ValueError
  | Some s =>
      match strtod s with
      | Some (v, EmptyString) => Ok v
      | _ => Raise ValueError
      end
  end.

End FloatOfString.

(* ================================================================== *)
(** * [datetime.strptime] and [strftime] for the formats of the importer *)

Module DateTime.
Import PyStr Py.

Record datetime : Type := mk_datetime { year : nat; month : nat; day : nat }.

Inductive directive : Type :=
| dY                  (* %Y *)
| dm                  (* %m *)
| dd                  (* %d *)
| db                  (* %b *)
| dB                  (* %B *)
| lit (c : ascii)     (* a literal character *)
| spaces.             (* white space in the format: one or more spaces *)

(** One alternative made of two digits, and one made of a single digit. *)
Definition alt2 (ok : nat -> nat -> bool) (s : string) : list (nat * string) :=
  match s with
  | String c1 (String c2 r) =>
      match digit_val c1, digit_val c2 with
      | Some a, Some b => if ok a b then [(10 * a + b, r)] else []
      | _, _ => []
      end
  | _ => []
  end.

Definition alt1 (ok : nat -> bool) (s : string) : list (nat * string) :=
  match s with
  | String c1 r =>
      match digit_val c1 with
      | Some a => if ok a then [(a, r)] else []
      | None => []
      end
  | _ => []
  end.

(** A space followed by a digit, the last alternative of [%d]. *)
Definition alt_sp1 (ok : nat -> bool) (s : string) : list (nat * string) :=
  match s with
  | String " " r => alt1 ok r
  | _ => []
  end.

(** [\d\d\d\d] *)
Definition re_Y (s : string) : list (nat * string) :=
  match s with
  | String c1 (String c2 (String c3 (String c4 r))) =>
      match digit_val c1, digit_val c2, digit_val c3, digit_val c4 with
      | Some a, Some b, Some c, Some d => [(1000 * a + 100 * b + 10 * c + d, r)]
      | _, _, _, _ => []
      end
  | _ => []
  end.

(** [1[0-2]|0[1-9]|[1-9]] *)
Definition re_m (s : string) : list (nat * string) :=
  (alt2 (fun a b => (a =? 1) && (b <=? 2)) s ++
   alt2 (fun a b => (a =? 0) && (1 <=? b)) s ++
   alt1 (fun a => 1 <=? a) s)%list.

(** [3[0-1]|[1-2]\d|0[1-9]|[1-9]| [1-9]] *)
Definition re_d (s : string) : list (nat * string) :=
  (alt2 (fun a b => (a =? 3) && (b <=? 1)) s ++
   alt2 (fun a _ => (1 <=? a) && (a <=? 2)) s ++
   alt2 (fun a b => (a =? 0) && (1 <=? b)) s ++
   alt1 (fun a => 1 <=? a) s ++
   alt_sp1 (fun a => 1 <=? a) s)%list.

(** Month names of the C locale, lowercased, with their numbers. *)
Definition month_abbr : list (string * nat) :=
  [("jan", 1); ("feb", 2); ("mar", 3); ("apr", 4); ("may", 5); ("jun", 6);
   ("jul", 7); ("aug", 8); ("sep", 9); ("oct", 10); ("nov", 11); ("dec", 12)].

(** The alternation lists the names longest first. *)
Definition month_name : list (string * nat) :=
  [("september", 9); ("february", 2); ("november", 11); ("december", 12);
   ("january", 1); ("october", 10); ("august", 8); ("march", 3);
   ("april", 4); ("june", 6); ("july", 7); ("may", 5)].

(** An alternation of names, matched without regard to case. *)
Fixpoint re_names (names : list (string * nat)) (s : string) : list (nat * string) :=
  match names with
  | [] => []
  | (name, n) :: rest =>
      match FloatOfString.match_word name s with
      | Some r => (n, r) :: re_names rest s
      | None => re_names rest s
      end
  end.

(** [\s+], greedy: the longest run first, then shorter ones. *)
Fixpoint re_spaces (s : string) : list string :=
  match s with
  | String c r => if is_space c then (re_spaces r ++ [r])%list else []
  | EmptyString => []
  end.

Definition set_year (y : nat) (f : datetime) := mk_datetime y (month f) (day f).
Definition set_month (m : nat) (f : datetime) := mk_datetime (year f) m (day f).
Definition set_day (d : nat) (f : datetime) := mk_datetime (year f) (month f) d.

(** The ways one directive can match at the head of [s], in the order
    in which the regular expression tries them. *)
Definition candidates (d : directive) (s : string) (acc : datetime)
  : list (datetime * string) :=
  match d with
  | dY => map (fun '(v, r) => (set_year v acc, r)) (re_Y s)
  | dm => map (fun '(v, r) => (set_month v acc, r)) (re_m s)
  | dd => map (fun '(v, r) => (set_day v acc, r)) (re_d s)
  | db => map (fun '(v, r) => (set_month v acc, r)) (re_names month_abbr s)
  | dB => map (fun '(v, r) => (set_month v acc, r)) (re_names month_name s)
  | lit c =>
      match s with
      | String c' r => if Ascii.eqb c c' then [(acc, r)] else []
      | EmptyString => []
      end
  | spaces => map (fun r => (acc, r)) (re_spaces s)
  end.

Fixpoint first_some {A B : Type} (f : A -> option B) (l : list A) : option B :=
  match l with
  | [] => None
  | x :: rest =>
      match f x with
      | Some y => Some y
      | None => first_some f rest
      end
  end.

(** [format_regex.match(data_string)]: the first match in backtracking
    order, with the text left after it. *)
Fixpoint regex_match (fmt : list directive) (s : string) (acc : datetime)
  : option (datetime * string) :=
  match fmt with
  | [] => Some (acc, s)
  | d :: fmt' =>
      first_some (fun c => regex_match fmt' (snd c) (fst c)) (candidates d s acc)
  end.

Definition is_leap (y : nat) : bool :=
  (y mod 4 =? 0) && (negb (y mod 100 =? 0) || (y mod 400 =? 0)).

Definition days_in_month (y m : nat) : nat :=
  match m with
  | 2 => if is_leap y then 29 else 28
  | 4 | 6 | 9 | 11 => 30
  | _ => 31
  end.

Definition MAXYEAR : nat := 9999.

(** The check made when the date object is built. *)
Definition valid_date (dt : datetime) : bool :=
  (1 <=? year dt) && (year dt <=? MAXYEAR) &&
  (1 <=? month dt) && (month dt <=? 12) &&
  (1 <=? day dt) && (day dt <=? days_in_month (year dt) (month dt)).

(** [datetime.strptime(data_string, format)] *)
Definition strptime (data_string : string) (format : list directive) : result datetime :=
  match regex_match format data_string (mk_datetime 1900 1 1) with
  | None => Raise ValueError                     (* does not match format *)
  | Some (found, EmptyString) =>
      if valid_date found then Ok found
      else Raise ValueError                      (* day is out of range for month *)
  | Some (_, String _ _) => Raise ValueError     (* unconverted data remains *)
  end.

Definition render2 (n : nat) : string :=
  String (digit_char (n / 10)) (String (digit_char (n mod 10)) EmptyString).

Definition render4 (n : nat) : string :=
  render2 (n / 100) ++ render2 (n mod 100).

(** The canonical text of a date, YYYY-MM-DD: the year in four
    digits. *)
Definition iso_text (dt : datetime) : string :=
  render4 (year dt) ++ "-" ++ render2 (month dt) ++ "-" ++ render2 (day dt).

(** [%Y]: the year in decimal, as it is: the C library on which the
    program runs writes no leading zeros. *)
Definition year_text (y : nat) : string := NilZero.string_of_int (Z.to_int (Z.of_nat y)).

(** [dt.strftime('%Y-%m-%d')] *)
Definition strftime_iso (dt : datetime) : string :=
  year_text (year dt) ++ "-" ++ render2 (month dt) ++ "-" ++ render2 (day dt).

(** Month names as they are written in the C locale. *)
Definition abbr_names : list string :=
  ["Jan"; "Feb"; "Mar"; "Apr"; "May"; "Jun";
   "Jul"; "Aug"; "Sep"; "Oct"; "Nov"; "Dec"].

Definition full_names : list string :=
  ["January"; "February"; "March"; "April"; "May"; "June";
   "July"; "August"; "September"; "October"; "November"; "December"].

(** A date written in a layout, the year in four digits, month and
    day in two: what is written for one directive, and the whole. *)
Definition written_piece (dt : datetime) (d : directive) : string :=
  match d with
  | dY => render4 (year dt)
  | dm => render2 (month dt)
  | dd => render2 (day dt)
  | db => nth (month dt - 1) abbr_names ""
  | dB => nth (month dt - 1) full_names ""
  | lit c => String c ""
  | spaces => " "
  end.

Definition written (format : list directive) (dt : datetime) : string :=
  fold_right (fun d rest => written_piece dt d ++ rest) "" format.

(** The three numeric layouts of a date, for a separator [c]. *)
Definition ymd (y m d : nat) (c : ascii) : string :=
  render4 y ++ String c (render2 m ++ String c (render2 d)).
Definition mdy (y m d : nat) (c : ascii) : string :=
  render2 m ++ String c (render2 d ++ String c (render4 y)).
Definition dmy (y m d : nat) (c : ascii) : string :=
  render2 d ++ String c (render2 m ++ String c (render4 y)).

(** What follows the month name in the two layouts with a name. *)
Definition after_name (y d : nat) : string :=
  String " " (render2 d ++ String "," (String " " (render4 y))).

(** The integers [start], [start + 1], ..., [len] of them. *)
Fixpoint zrange (start : Z) (len : nat) : list Z :=
  match len with
  | O => []
  | S n => start :: zrange (start + 1) n
  end.

(** [digit_char] and [render4] computed on binary integers. *)
Definition digit_charZ (z : Z) : ascii := ascii_of_N (Z.to_N (48 + z)).

Definition render4Z (z : Z) : string :=
  String (digit_charZ (z / 100 / 10))
    (String (digit_charZ ((z / 100) mod 10))
       (String (digit_charZ (z mod 100 / 10))
          (String (digit_charZ ((z mod 100) mod 10)) ""))).

End DateTime.

(* ================================================================== *)
(** * [csv_import.py]: the normaliser *)

Module Normalizer.
Import PyStr PyFloat Py FloatOfString DateTime.

Definition fmt_iso := [dY; lit "-"; dm; lit "-"; dd].             (* %Y-%m-%d *)
Definition fmt_mdy_slash := [dm; lit "/"; dd; lit "/"; dY].       (* %m/%d/%Y *)
Definition fmt_dmy_slash := [dd; lit "/"; dm; lit "/"; dY].       (* %d/%m/%Y *)
Definition fmt_ymd_slash := [dY; lit "/"; dm; lit "/"; dd].       (* %Y/%m/%d *)
Definition fmt_mdy_dash := [dm; lit "-"; dd; lit "-"; dY].        (* %m-%d-%Y *)
Definition fmt_dmy_dash := [dd; lit "-"; dm; lit "-"; dY].        (* %d-%m-%Y *)
Definition fmt_abbr := [db; spaces; dd; lit ","; spaces; dY].     (* %b %d, %Y *)
Definition fmt_full := [dB; spaces; dd; lit ","; spaces; dY].     (* %B %d, %Y *)

Definition date_formats : list (list directive) :=
  [ fmt_iso; fmt_mdy_slash; fmt_dmy_slash; fmt_ymd_slash;
    fmt_mdy_dash; fmt_dmy_dash; fmt_abbr; fmt_full ].

(** The date with day and month exchanged. *)
Definition swap_day_month (dt : datetime) : datetime :=
  mk_datetime (year dt) (day dt) (month dt).

(** The loop [for fmt in date_formats] over the stripped string. *)
Fixpoint try_formats (formats : list (list directive)) (date_str : string)
  : result string :=
  match formats with
  | [] => Raise ValueError                           (* Unable to parse date *)
  | fmt :: rest =>
      match strptime date_str fmt with
      | Ok dt => Ok (strftime_iso dt)
      | Raise ValueError => try_formats rest date_str
      end
  end.

Definition _parse_date (date_str : string) : result string :=
  let date_str := strip date_str in
  try_formats date_formats date_str.

(** The two rewriting steps of [_parse_amount], named. *)
Definition remove_symbols (s : string) : string :=
  replace "," "" (replace "£" "" (replace "€" "" (replace "$" "" s))).

Definition parentheses_to_minus (s : string) : string :=
  if str_in "(" s && str_in ")" s
  then replace ")" "" (replace "(" "-" s)
  else s.

(** A decimal numeral, as the specification understands "a valid
    decimal number": an optional sign, digits with at most one decimal
    point, and at least one digit. *)
Definition is_decimal_numeral (s : string) : bool :=
  let body := match s with
              | String "-" r => r
              | String "+" r => r
              | _ => s
              end in
  let (ip, rest) := take_digits body in
  match rest with
  | EmptyString => negb (Nat.eqb (List.length ip) 0)
  | String "." r =>
      let (fp, rest') := take_digits r in
      match rest' with
      | EmptyString => negb (Nat.eqb (List.length ip + List.length fp) 0)
      | _ => false
      end
  | _ => false
  end.

(** A decimal numeral beyond the range of doubles: 1 followed by 400
    zeros. *)
Definition huge_numeral : string :=
  String "1" (string_of_list_ascii (repeat "0"%char (4 * 100))).

Definition _parse_amount (amount_str : string) : result pyfloat :=
  let amount_str := strip amount_str in
  let amount_str := replace "€" "" (replace "$" "" amount_str) in
  let amount_str := replace "," "" (replace "£" "" amount_str) in
  let amount_str :=
    if str_in "(" amount_str && str_in ")" amount_str
    then replace ")" "" (replace "(" "-" amount_str)
    else amount_str in
  float amount_str.

End Normalizer.

(* ================================================================== *)
(** * [csv_import.py]: the importer *)

Module CSVImporter.
Import PyStr PyFloat Py Categorizer Normalizer.

(** A row of the file once its three fields have been looked up. *)
Record row : Type := mk_row {
  date_str : string;
  row_description : string;
  amount_str : string
}.

(** The dictionaries appended to [transactions]. *)
Record parsed : Type := mk_parsed {
  date : string;
  description : string;
  amount : pyfloat;
  category : string;
  trans_type : string
}.

(** The body of the loop of [parse_csv] for one row: the transaction to
    append, or the line printed when the row is skipped. *)
Definition parse_row (r : row) : parsed + string :=
  match _parse_date (date_str r) with
  | Raise _ => inr ("Skipping row with invalid date: " ++ date_str r)
  | Ok date =>
      match _parse_amount (amount_str r) with
      | Raise _ => inr ("Skipping row with invalid amount: " ++ amount_str r)
      | Ok amount =>
          let trans_type := if gt0 amount then "income" else "expense" in
          let amount := fabs amount in
          let category :=
            get_suggested_category default_category_keywords (row_description r)
              (if String.eqb trans_type "income" then amount else fneg amount) in
          inl (mk_parsed date (row_description r) amount category trans_type)
      end
  end.

(** The loop [for row in reader], with the list built so far and the
    lines printed so far. *)
Fixpoint parse_rows (rows : list row) (transactions : list parsed) (out : list string)
  : list parsed * list string :=
  match rows with
  | [] => (transactions, out)
  | r :: rest =>
      match parse_row r with
      | inl t => parse_rows rest (transactions ++ [t]) out
      | inr line => parse_rows rest transactions (out ++ [line])
      end
  end.

Definition parse_csv (rows : list row) : list parsed * list string :=
  parse_rows rows [] [].

Section ImportTransactions.
(** The importer is built over any object with an [add_transaction]
    method; a call returns the new store and either the new id or the
    text of the exception it raised. *)
Variable store : Type.
Variable add_transaction :
  store -> string -> string -> pyfloat -> string -> string -> store * (Z + string).

(** The loop [for trans in transactions]. *)
Fixpoint add_all (transactions : list parsed) (db : store) (count : nat)
    (out : list string) : nat * store * list string :=
  match transactions with
  | [] => (count, db, out)
  | trans :: rest =>
      match add_transaction db (date trans) (description trans) (amount trans)
              (category trans) (trans_type trans) with
      | (db', inl _) => add_all rest db' (count + 1) out
      | (db', inr e) =>
          add_all rest db' count (out ++ ["Error importing transaction: " ++ e])
      end
  end.


End ImportTransactions.



(** The transactions a list of rows gives, and the lines printed for
    it, in the specification's words: row by row, in order, a
    transaction for a row that parses and a line for a row that does
    not. *)
Definition accepted (rows : list row) : list parsed :=
  flat_map (fun r => match parse_row r with inl t => [t] | inr _ => [] end) rows.

Definition skipped (rows : list row) : list string :=
  flat_map (fun r => match parse_row r with inl _ => [] | inr line => [line] end) rows.




(** Sample rows. *)
Definition coffee_row : row := mk_row "2024-01-05" "Starbucks coffee" "-3.50".
Definition free_row : row := mk_row "2024-03-01" "Free sample" "0.00".

End CSVImporter.

(* ================================================================== *)
(** * [database.py] *)

Module FinanceDatabase.
Import PyStr PyFloat Py.

Record transaction : Type := mk_transaction {
  id : Z;
  date : string;
  description : string;
  amount : Q;
  category : string;
  type : string
}.

Record category_row : Type := mk_category {
  name : string;
  budget_limit : Q;
  cat_type : string
}.

Record db : Type := mk_db {
  transactions : list transaction;
  categories : list category_row;
  last_id : Z
}.

(** [_initialize_default_categories] *)
Definition default_categories : list category_row :=
  [ mk_category "Food & Dining" 500 "expense";
    mk_category "Transportation" 200 "expense";
    mk_category "Shopping" 300 "expense";
    mk_category "Bills & Utilities" 400 "expense";
    mk_category "Entertainment" 150 "expense";
    mk_category "Healthcare" 200 "expense";
    mk_category "Other Expenses" 100 "expense";
    mk_category "Salary" 0 "income";
    mk_category "Freelance" 0 "income";
    mk_category "Other Income" 0 "income" ].

(** The store right after [__init__] on a new file. *)
Definition new_db : db := mk_db [] default_categories 0.

(** [name TEXT UNIQUE NOT NULL] *)
Definition unique_names (d : db) : Prop := NoDup (map name (categories d)).

Definition add_transaction (d : db) (date description : string) (amount : Q)
    (category trans_type : string) : db * Z :=
  let i := (last_id d + 1)%Z in
  (mk_db (transactions d ++ [mk_transaction i date description amount category trans_type])
         (categories d) i, i).

(** [DELETE FROM transactions WHERE id = ?], for an id that fits in a
    64-bit integer, from -2^63 to 2^63 - 1.  A Python int outside that
    range cannot be bound to the statement: [execute] raises
    OverflowError before anything is run, which is not modelled. *)
Definition delete_transaction (d : db) (transaction_id : Z) : result db :=
  Ok (mk_db (filter (fun t => negb (id t =? transaction_id)%Z) (transactions d))
            (categories d) (last_id d)).

(** [UPDATE categories SET budget_limit = ? WHERE name = ?] *)
Definition update_budget_limit (d : db) (category : string) (new_limit : Q) : result db :=
  Ok (mk_db (transactions d)
            (map (fun c => if String.eqb (name c) category
                           then mk_category (name c) new_limit (cat_type c)
                           else c) (categories d))
            (last_id d)).

(** [f"{n}"] and [f"{n:02d}"] for an integer. *)
Definition fmt_d (n : Z) : string := NilZero.string_of_int (Z.to_int n).

Definition fmt_02d (n : Z) : string :=
  if (0 <=? n)%Z && (n <? 10)%Z then "0" ++ fmt_d n else fmt_d n.

Definition month_start (year month : Z) : string :=
  fmt_d year ++ "-" ++ fmt_02d month ++ "-01".

Definition month_end (year month : Z) : string :=
  if (month =? 12)%Z then fmt_d (year + 1) ++ "-01-01"
  else fmt_d year ++ "-" ++ fmt_02d (month + 1) ++ "-01".

(** [date >= start AND date < end], on text. *)
Definition in_half_open (start_date end_date date : string) : bool :=
  String.leb start_date date && String.ltb date end_date.

Definition Qsum (l : list Q) : Q := fold_right Qplus 0%Q l.

Fixpoint distinct {A : Type} (eqb : A -> A -> bool) (l : list A) : list A :=
  match l with
  | [] => []
  | x :: rest => x :: filter (fun y => negb (eqb x y)) (distinct eqb rest)
  end.

(** [SELECT k, SUM(v) ... GROUP BY k]: one row for each key that occurs. *)
Definition group_by_sum {K : Type} (eqb : K -> K -> bool) (rows : list (K * Q))
  : list (K * Q) :=
  map (fun k => (k, Qsum (map snd (filter (fun r => eqb k (fst r)) rows))))
      (distinct eqb (map fst rows)).

(** [dict(rows).get(key, default)]: a later pair replaces an earlier one. *)
Fixpoint dict_get (rows : list (string * Q)) (key : string) (default : Q) : Q :=
  match rows with
  | [] => default
  | (k, v) :: rest => dict_get rest key (if String.eqb k key then v else default)
  end.

Record summary : Type := mk_summary {
  income : Q;
  expenses : Q;
  balance : Q;
  month_label : string
}.

Definition get_monthly_summary (d : db) (year month : Z) : summary :=
  let start_date := month_start year month in
  let end_date := month_end year month in
  let results :=
    group_by_sum String.eqb
      (map (fun t => (type t, amount t))
           (filter (fun t => in_half_open start_date end_date (date t))
                   (transactions d))) in
  let income := dict_get results "income" 0%Q in
  let expenses := dict_get results "expense" 0%Q in
  mk_summary income expenses (income - expenses)%Q (fmt_d year ++ "-" ++ fmt_02d month).

(** [ORDER BY key DESC]: the rows in an order in which the key never
    increases; rows with equal keys come in any order. *)
Definition sql_order_by_desc {A : Type} (key : A -> Q) (rows result : list A) : Prop :=
  Permutation rows result /\
  StronglySorted (fun a b => (key b <= key a)%Q) result.

Definition spending_rows (d : db) (start_date end_date : string) : list (string * Q) :=
  group_by_sum String.eqb
    (map (fun t => (category t, amount t))
         (filter (fun t => String.eqb (type t) "expense" &&
                           (String.leb start_date (date t) &&
                            String.leb (date t) end_date))
                 (transactions d))).

Definition get_category_spending (d : db) (start_date end_date : string)
    (result : list (string * Q)) : Prop :=
  sql_order_by_desc snd (spending_rows d start_date end_date) result.

Record alert : Type := mk_alert {
  alert_category : string;
  spent : pyfloat;
  limit : Q;
  percentage : pyfloat
}.

(** [transactions t JOIN categories c ON t.category = c.name] with the
    [WHERE] clause of [check_budget_alerts]: the grouping key
    [(t.category, c.budget_limit)] and [t.amount] of each joined row.
    [joined_with] gives the rows of one transaction. *)
Definition joined_with (start_date end_date : string) (t : transaction)
    (cs : list category_row) : list ((string * Q) * Q) :=
  flat_map
    (fun c =>
       if String.eqb (category t) (name c) &&
          String.eqb (type t) "expense" &&
          in_half_open start_date end_date (date t) &&
          negb (Qle_bool (budget_limit c) 0%Q)
       then [((category t, budget_limit c), amount t)]
       else [])
    cs.

Definition joined_rows (d : db) (start_date end_date : string)
  : list ((string * Q) * Q) :=
  flat_map (fun t => joined_with start_date end_date t (categories d))
           (transactions d).

Definition key_eqb (k1 k2 : string * Q) : bool :=
  String.eqb (fst k1) (fst k2) && Qeq_bool (snd k1) (snd k2).

(** [GROUP BY t.category, c.budget_limit]: the keys that occur, each
    with the amounts of its rows. *)
Definition alert_groups (d : db) (year month : Z) : list ((string * Q) * list Q) :=
  let rows := joined_rows d (month_start year month) (month_end year month) in
  map (fun k => (k, map snd (filter (fun r => key_eqb k (fst r)) rows)))
      (distinct key_eqb (map fst rows)).

(** [SUM(t.amount)] over [REAL] values: the engine starts from 0.0 and
    adds the amounts one after the other, as doubles, in the order in
    which it visits the rows of the group; the query does not fix that
    order. *)
Definition sum_step (acc : pyfloat) (x : Q) : pyfloat :=
  match acc with
  | Fin a => Binary64.add a x
  | _ => acc
  end.

Definition float_sum (amounts : list Q) : pyfloat :=
  fold_left sum_step amounts (Fin 0).

Definition sql_sum (amounts : list Q) (total : pyfloat) : Prop :=
  exists visited, Permutation amounts visited /\ total = float_sum visited.

(** The literal [0.8]: the double nearest to 8/10. *)
Definition point_eight : Q := 3602879701896397 # 4503599627370496.

(** [HAVING spent >= c.budget_limit * 0.8] *)
Definition having (spent : pyfloat) (budget_limit : Q) : bool :=
  fge spent (Binary64.mul budget_limit point_eight).

(** [SUM(t.amount) / c.budget_limit * 100] *)
Definition percentage_of (spent : pyfloat) (budget_limit : Q) : pyfloat :=
  Binary64.times (Binary64.over spent budget_limit) 100.

(** A row of the query for a group. *)
Definition alert_of (g : (string * Q) * list Q) (a : alert) : Prop :=
  alert_category a = fst (fst g) /\ limit a = snd (fst g) /\
  sql_sum (snd g) (spent a) /\
  percentage a = percentage_of (spent a) (limit a).

(** The rows of the query before [ORDER BY]. *)
Definition alert_rows (d : db) (year month : Z) (rows : list alert) : Prop :=
  exists found,
    Forall2 alert_of (alert_groups d year month) found /\
    rows = filter (fun a => having (spent a) (limit a)) found.

(** The order of [REAL] values in [ORDER BY]; NaN, which the engine
    keeps as NULL, is below every number. *)
Definition fle_bool (x y : pyfloat) : bool :=
  match x, y with
  | NaN, _ => true
  | _, NaN => false
  | NInf, _ => true
  | _, NInf => false
  | _, PInf => true
  | PInf, _ => false
  | Fin a, Fin b => Qle_bool a b
  end.

Definition fle (x y : pyfloat) : Prop := fle_bool x y = true.

Definition sql_order_by_desc_real {A : Type} (key : A -> pyfloat)
    (rows result : list A) : Prop :=
  Permutation rows result /\
  StronglySorted (fun a b => fle (key b) (key a)) result.

Definition check_budget_alerts (d : db) (year month : Z) (alerts : list alert) : Prop :=
  exists rows,
    alert_rows d year month rows /\
    sql_order_by_desc_real percentage rows alerts.

(** The label the callers derive from an alert ([main.py], [analyzer.py]). *)
Inductive severity : Type := EXCEEDED | WARNING.

Definition alert_status (a : alert) : severity :=
  if fge (percentage a) (Fin 100) then EXCEEDED else WARNING.

(** The rows when the engine visits the rows of every group in the
    order of the table. *)
Definition alert_rows_in_table_order (d : db) (year month : Z) : list alert :=
  filter (fun a => having (spent a) (limit a))
    (map (fun g => mk_alert (fst (fst g)) (float_sum (snd g)) (snd (fst g))
                            (percentage_of (float_sum (snd g)) (snd (fst g))))
         (alert_groups d year month)).



(** The same for keys that are doubles. *)
Fixpoint insert_desc_real {A : Type} (key : A -> pyfloat) (x : A) (l : list A) : list A :=
  match l with
  | [] => [x]
  | y :: rest =>
      if fle_bool (key y) (key x) then x :: l
      else y :: insert_desc_real key x rest
  end.

Definition sort_desc_real {A : Type} (key : A -> pyfloat) (l : list A) : list A :=
  fold_right (insert_desc_real key) [] l.

(** The amounts of the expense transactions filed under a name and
    dated in a month, in the order of the table. *)
Definition month_amounts (d : db) (year month : Z) (cat : string) : list Q :=
  map amount
    (filter (fun t => String.eqb (category t) cat &&
                      String.eqb (type t) "expense" &&
                      in_half_open (month_start year month) (month_end year month) (date t))
            (transactions d)).





(** The total of one type in a month, in the specification's words. *)
Definition month_total (d : db) (year month : Z) (ty : string) : Q :=
  Qsum (map amount
         (filter (fun t => String.eqb (type t) ty &&
                           in_half_open (month_start year month) (month_end year month) (date t))
                 (transactions d))).

(** Sample stores. *)


(** An expense booked under the income category "Salary", whose limit
    was set to 100. *)
Definition salary_db : db :=
  mk_db [ mk_transaction 1 "2024-05-10" "Salary advance repayment" 90 "Salary" "expense" ]
        [ mk_category "Other Expenses" 100 "expense";
          mk_category "Salary" 100 "income" ]
        1.

(** A spend of 2.4 under a limit of 3; the amount is the double that
    Python and the engine hold for 2.4. *)
Definition threshold_db : db :=
  mk_db [ mk_transaction 1 "2024-05-10" "Groceries"
            (5404319552844595 # 2251799813685248) "Food & Dining" "expense" ]
        [ mk_category "Food & Dining" 3 "expense" ]
        1.

(** An income dated on the last day of December 9999. *)
Definition december_db : db :=
  mk_db [ mk_transaction 1 "9999-12-31" "Bonus" 100 "Salary" "income" ]
        default_categories 1.

End FinanceDatabase.

From Stdlib Require DecimalPos.

(* ================================================================== *)
(** * [categorizer.py]: the keyword table as it changes *)

Module CategorizerKeywords.
Import PyStr PyFloat Categorizer.

(** [category in self.category_keywords] *)
Definition has_category (category_keywords : rule_table) (category : string) : bool :=
  existsb (fun entry => String.eqb (fst entry) category) category_keywords.

(** [self.category_keywords.get(category, [])] *)
Definition get_category_keywords (category_keywords : rule_table) (category : string)
  : list string :=
  match find (fun entry => String.eqb (fst entry) category) category_keywords with
  | Some entry => snd entry
  | None => []
  end.

(** [keyword in keywords], for a list of strings. *)
Definition keyword_in (keyword : string) (keywords : list string) : bool :=
  existsb (String.eqb keyword) keywords.

(** [self.category_keywords[category].append(keyword)]: the list of the
    entry grows at its end, and the entry keeps its place in the table. *)
Fixpoint append_to_category (category_keywords : rule_table) (category keyword : string)
  : rule_table :=
  match category_keywords with
  | [] => []
  | (c, keywords) :: rest =>
      if String.eqb c category then (c, (keywords ++ [keyword])%list) :: rest
      else (c, keywords) :: append_to_category rest category keyword
  end.

Definition add_keyword (category_keywords : rule_table) (category keyword : string)
  : rule_table :=
  if has_category category_keywords category then
    if negb (keyword_in (lower keyword) (get_category_keywords category_keywords category))
    then append_to_category category_keywords category (lower keyword)
    else category_keywords
  else (category_keywords ++ [(category, [lower keyword])])%list.

(** A dict has one entry for a key. *)
Definition unique_keys (category_keywords : rule_table) : Prop :=
  NoDup (map fst category_keywords).

(** No keyword of the table occurs in the lowercased description. *)
Definition unmatched (category_keywords : rule_table) (description : string) : Prop :=
  forall category keywords keyword,
    In (category, keywords) category_keywords -> In keyword keywords ->
    str_in keyword (lower description) = false.

End CategorizerKeywords.

(* ================================================================== *)
(** * [database.py]: the other queries *)

Module FinanceDatabaseQueries.
Import PyStr Py FinanceDatabase.

(** A parameter used as a condition, as in [if start_date:]: [None] and
    the empty string do not count. *)
Definition given (p : option string) : bool :=
  match p with
  | Some (String _ _) => true
  | _ => false
  end.

Definition param (p : option string) : string :=
  match p with
  | Some s => s
  | None => ""
  end.

(** The conditions [get_transactions] adds to [WHERE 1=1]. *)
Definition selected (start_date end_date category : option string) (t : transaction)
  : bool :=
  (if given start_date then String.leb (param start_date) (date t) else true) &&
  (if given end_date then String.leb (date t) (param end_date) else true) &&
  (if given category then String.eqb (FinanceDatabase.category t) (param category)
   else true).

(** [ORDER BY key DESC] and [ORDER BY key] for a text key: an order in
    which the key never increases (never decreases); rows with equal
    keys come in any order. *)
Definition sql_order_by_text_desc {A : Type} (key : A -> string) (rows result : list A)
  : Prop :=
  Permutation rows result /\
  StronglySorted (fun a b => String.leb (key b) (key a) = true) result.

Definition sql_order_by_text {A : Type} (key : A -> string) (rows result : list A)
  : Prop :=
  Permutation rows result /\
  StronglySorted (fun a b => String.leb (key a) (key b) = true) result.

(** The rows are given without the column [created_at], which the clock
    of the engine fills. *)
Definition get_transactions (d : db) (start_date end_date category : option string)
    (result : list transaction) : Prop :=
  sql_order_by_text_desc date
    (filter (selected start_date end_date category) (transactions d)) result.

(** The two shapes of the rows of [get_categories]. *)
Inductive category_listing : Type :=
| NameLimit (rows : list (string * Q))              (* SELECT name, budget_limit *)
| NameLimitType (rows : list (string * Q * string)). (* SELECT name, budget_limit, type *)

Definition get_categories (d : db) (cat_type : option string) (result : category_listing)
  : Prop :=
  if given cat_type then
    exists rows,
      sql_order_by_text name
        (filter (fun c => String.eqb (FinanceDatabase.cat_type c) (param cat_type))
                (categories d)) rows /\
      result = NameLimit (map (fun c => (name c, budget_limit c)) rows)
  else
    exists rows,
      sql_order_by_text name (categories d) rows /\
      result = NameLimitType
                 (map (fun c => (name c, budget_limit c, FinanceDatabase.cat_type c)) rows).

(** [INSERT OR IGNORE INTO categories]: the row is left out when its
    name is taken. *)
Definition insert_or_ignore (cs : list category_row) (c : category_row)
  : list category_row :=
  if existsb (fun c' => String.eqb (name c') (name c)) cs then cs
  else (cs ++ [c])%list.

Definition _initialize_default_categories (d : db) : db :=
  mk_db (transactions d)
        (fold_left insert_or_ignore default_categories (categories d))
        (last_id d).

(** Ids given by [AUTOINCREMENT]: no two rows share one, and none is
    above the last one given. *)
Definition ids_fresh (d : db) : Prop :=
  NoDup (map id (transactions d)) /\
  Forall (fun t => (id t <= last_id d)%Z) (transactions d).

(** One way to order rows by a text key: insertion from the right. *)
Fixpoint insert_text {A : Type} (key : A -> string) (x : A) (l : list A) : list A :=
  match l with
  | [] => [x]
  | y :: rest =>
      if String.leb (key x) (key y) then x :: l
      else y :: insert_text key x rest
  end.

Definition sort_text {A : Type} (key : A -> string) (l : list A) : list A :=
  fold_right (insert_text key) [] l.



End FinanceDatabaseQueries.

(* ================================================================== *)
(** * [csv_import.py]: from the records of the file to the rows *)

Module CSVReader.
Import PyStr PyFloat Py Categorizer Normalizer CSVImporter.

(** The fields [csv.reader] gives for one line; a blank line gives
    none. *)
Definition record : Type := list string.

(** A row of [csv.DictReader], as its pairs in the order in which they
    are set; a later pair replaces an earlier one with the same key.
    The value is [None] for a column the line is too short for.  The
    entry under the key [None], which holds the fields beyond the
    header, is left out: no column name equals [None]. *)
Definition dict_row : Type := list (string * option string).

Fixpoint zip_row (fieldnames : list string) (r : record) : dict_row :=
  match fieldnames with
  | [] => []
  | key :: keys =>
      match r with
      | [] => (key, None) :: zip_row keys []
      | v :: vs => (key, Some v) :: zip_row keys vs
      end
  end.

(** [row.get(key, default)] *)
Fixpoint row_get (row : dict_row) (key : string) (default : option string)
  : option string :=
  match row with
  | [] => default
  | (k, v) :: rest => row_get rest key (if String.eqb k key then v else default)
  end.

Definition is_blank (r : record) : bool :=
  match r with
  | [] => true
  | _ :: _ => false
  end.

(** The rows of [csv.DictReader(f)]: the first record gives the field
    names, and blank records are passed over. *)
Definition dict_rows (records : list record) : list dict_row :=
  match records with
  | [] => []
  | fieldnames :: rest => map (zip_row fieldnames) (filter (fun r => negb (is_blank r)) rest)
  end.

(** The exceptions that leave [parse_csv]. *)
Inductive error : Type :=
| AttributeError
| IndexError.

(** The three values read from a row. *)
Definition fields : Type := (option string * option string * option string)%type.

(** [row.get(date_col, ''), row.get(desc_col, ''), row.get(amount_col, '0')] *)
Definition named_fields (date_col desc_col amount_col : string) (row : dict_row)
  : fields + error :=
  inl (row_get row date_col (Some ""),
       row_get row desc_col (Some ""),
       row_get row amount_col (Some "0")).

(** [row[0], row[1], row[2]] *)
Definition positional_fields (row : record) : fields + error :=
  match row with
  | date_str :: description :: amount_str :: _ =>
      inl (Some date_str, Some description, Some amount_str)
  | _ => inr IndexError
  end.

(** What the body of the loop does with the three values: it appends a
    transaction, prints a line and goes on, or lets an exception out.
    [None.strip()] raises inside the [try] and is caught there;
    [None.lower()] raises in [categorize], outside of any [try]. *)
Inductive step : Type :=
| Append (t : parsed)
| Skip (line : string)
| Abort (e : error).

Definition parse_fields (date_str description amount_str : option string) : step :=
  match date_str with
  | None => Skip "Skipping row with invalid date: None"
  | Some ds =>
      match _parse_date ds with
      | Raise _ => Skip ("Skipping row with invalid date: " ++ ds)
      | Ok date =>
          match amount_str with
          | None => Skip "Skipping row with invalid amount: None"
          | Some s =>
              match _parse_amount s with
              | Raise _ => Skip ("Skipping row with invalid amount: " ++ s)
              | Ok amount =>
                  let trans_type := if gt0 amount then "income" else "expense" in
                  let amount := fabs amount in
                  match description with
                  | None => Abort AttributeError
                  | Some d =>
                      let category :=
                        get_suggested_category default_category_keywords d
                          (if String.eqb trans_type "income" then amount
                           else fneg amount) in
                      Append (mk_parsed date d amount category trans_type)
                  end
              end
          end
      end
  end.

(** The loop [for row in reader]: the transactions, or the exception
    that ended the loop, and the lines printed until then. *)
Fixpoint parse_loop (rows : list (fields + error)) (transactions : list parsed)
    (out : list string) : (list parsed + error) * list string :=
  match rows with
  | [] => (inl transactions, out)
  | inr e :: _ => (inr e, out)
  | inl (date_str, description, amount_str) :: rest =>
      match parse_fields date_str description amount_str with
      | Append t => parse_loop rest (transactions ++ [t])%list out
      | Skip line => parse_loop rest transactions (out ++ [line])%list
      | Abort e => (inr e, out)
      end
  end.

(** [parse_csv] on the records of the file. *)
Definition parse_csv_file (records : list record)
    (date_col desc_col amount_col : string) (skip_header : bool)
  : (list parsed + error) * list string :=
  parse_loop
    (if skip_header
     then map (named_fields date_col desc_col amount_col) (dict_rows records)
     else map positional_fields records)
    [] [].

(** [import_transactions] on the records of the file: the count or the
    exception, the store afterwards and the lines printed. *)
Definition import_file (store : Type)
    (add_transaction :
       store -> string -> string -> pyfloat -> string -> string -> store * (Z + string))
    (db : store) (records : list record)
    (date_col desc_col amount_col : string) (skip_header : bool)
  : (nat + error) * store * list string :=
  match parse_csv_file records date_col desc_col amount_col skip_header with
  | (inl transactions, out) =>
      match add_all store add_transaction transactions db 0 out with
      | (count, db', out') => (inl count, db', out')
      end
  | (inr e, out) => (inr e, db, out)
  end.

Section Store.
Variable store : Type.
Variable add_transaction :
  store -> string -> string -> pyfloat -> string -> string -> store * (Z + string).


End Store.








(** What the importer establishes for a transaction before it hands it
    to the store: the date is the ISO text of a date of the calendar,
    the amount is not below 0, an income has an amount above 0, an
    expense has the category of [categorize], and the category is one
    of the categories the database creates. *)
Definition normalised (t : parsed) : Prop :=
  (exists dt, DateTime.valid_date dt = true /\ date t = DateTime.strftime_iso dt) /\
  (forall q, amount t = Fin q -> (0 <= q)%Q) /\ amount t <> NInf /\
  (trans_type t = "income" /\ gt0 (amount t) = true \/
   trans_type t = "expense" /\
   category t = categorize default_category_keywords (description t)) /\
  In (category t) (map FinanceDatabase.name FinanceDatabase.default_categories).

(** The row a record gives when it is read by position. *)
Definition row_of_record (r : record) : row :=
  mk_row (nth 0 r "") (nth 1 r "") (nth 2 r "").

End CSVReader.

(* ================================================================== *)
(** * [main.py]: entering a transaction by hand *)

Module FinanceTrackerApp.
Import PyStr PyFloat Py FloatOfString DateTime Categorizer CSVImporter.

(** [int(x)] for a string [x]: white space around, a sign, then digits
    with single underscores between them, and no more than 4300
    digits. *)
Definition int (x : string) : result Z :=
  match drop_underscores zero (c_strip x) with
  | None => Raise ValueError
  | Some s =>
      let (negate, s1) := take_sign s in
      let (ds, rest) := take_digits s1 in
      match ds, rest with
      | _ :: _, EmptyString =>
          if 43 * 100 <? List.length ds then Raise ValueError
          else Ok (if negate then - digits_value ds else digits_value ds)%Z
      | _, _ => Raise ValueError
      end
  end.

(** [l[i]]: an index below 0 counts from the end; [None] stands for
    IndexError. *)
Definition list_index {A : Type} (l : list A) (i : Z) : option A :=
  let n := Z.of_nat (List.length l) in
  let j := if (i <? 0)%Z then (i + n)%Z else i in
  if (0 <=? j)%Z && (j <? n)%Z then nth_error l (Z.to_nat j) else None.

(** The category taken from the line typed at the last prompt. *)
Definition chosen_category (categories : list (string * Q)) (cat_input suggested : string)
  : string :=
  match cat_input with
  | EmptyString => suggested
  | String _ _ =>
      match int cat_input with
      | Raise _ => suggested                       (* ValueError *)
      | Ok n =>
          match list_index categories (n - 1) with
          | Some row => fst row
          | None => suggested                      (* IndexError *)
          end
      end
  end.

(** The five values [add_transaction] hands to the store, from the
    lines typed and the amount the amount prompt ended with.  [today]
    is the date of the clock; [income_categories] and
    [expense_categories] are what [get_categories] returned for the two
    types. *)
Definition entered_transaction (today : datetime)
    (income_categories expense_categories : list (string * Q))
    (date_input description_input : string) (amount : pyfloat) (cat_input : string)
  : parsed :=
  let date_input := strip date_input in
  let date :=
    match date_input with
    | EmptyString => strftime_iso today
    | String _ _ => date_input
    end in
  let description := strip description_input in
  let trans_type := if gt0 amount then "income" else "expense" in
  let categories := if gt0 amount then income_categories else expense_categories in
  let amount := if gt0 amount then amount else fabs amount in
  let suggested := get_suggested_category default_category_keywords description amount in
  let cat_input := strip cat_input in
  let category := chosen_category categories cat_input suggested in
  mk_parsed date description amount category trans_type.

(** The amount prompt: it asks again until [float] accepts a line.
    [None] when the lines run out. *)
Fixpoint read_amount (lines : list string) : option (pyfloat * list string) :=
  match lines with
  | [] => None
  | amount_input :: rest =>
      match float amount_input with
      | Ok amount => Some (amount, rest)
      | Raise _ => read_amount rest
      end
  end.

(** [add_transaction] on the lines typed: the date, the description,
    the amount lines, the category line. *)
Definition add_transaction (today : datetime)
    (income_categories expense_categories : list (string * Q)) (lines : list string)
  : option parsed :=
  match lines with
  | date_input :: description :: rest =>
      match read_amount rest with
      | Some (amount, cat_input :: _) =>
          Some (entered_transaction today income_categories expense_categories
                  date_input description amount cat_input)
      | _ => None
      end
  | _ => None
  end.

End FinanceTrackerApp.

(* ================================================================== *)
(** * [analyzer.py]: the months of the trend chart *)

Module FinanceAnalyzer.
Import Py DateTime FinanceDatabase.

(** The day before [dt]; there is none before the first day of year 1
    (OverflowError). *)
Definition day_before (dt : datetime) : option datetime :=
  if 1 <? day dt then Some (mk_datetime (year dt) (month dt) (day dt - 1))
  else if 1 <? month dt then
    Some (mk_datetime (year dt) (month dt - 1) (days_in_month (year dt) (month dt - 1)))
  else if 1 <? year dt then Some (mk_datetime (year dt - 1) 12 31)
  else None.

(** [dt - timedelta(days=n)] *)
Fixpoint minus_days (dt : datetime) (n : nat) : option datetime :=
  match n with
  | 0 => Some dt
  | S k =>
      match day_before dt with
      | Some dt' => minus_days dt' k
      | None => None
      end
  end.

(** The loop [for i in range(months)] of [plot_monthly_trend], with
    the list built so far. *)
Fixpoint trend_loop (d : db) (today : datetime) (range : list nat)
    (monthly_data : list summary) : option (list summary) :=
  match range with
  | [] => Some monthly_data
  | i :: rest =>
      match minus_days today (30 * i) with
      | None => None
      | Some month_date =>
          let summary :=
            get_monthly_summary d (Z.of_nat (year month_date))
              (Z.of_nat (month month_date)) in
          trend_loop d today rest (monthly_data ++ [summary])%list
      end
  end.

(** The summaries [plot_monthly_trend] plots, the oldest first. *)
Definition monthly_data (d : db) (today : datetime) (months : Z) : option (list summary) :=
  option_map (@rev summary) (trend_loop d today (seq 0 (Z.to_nat months)) []).

End FinanceAnalyzer.

(* ================================================================== *)
(** * Properties *)

Module CategorizerFacts.
Import PyStr PyFloat Categorizer.

Lemma scan_keywords_existsb keywords dl :
  scan_keywords keywords dl = existsb (fun keyword => str_in keyword dl) keywords.
Proof.
  induction keywords as [|k ks IH]; simpl; [reflexivity|].
  rewrite IH. now destruct (str_in k dl).
Qed.

Lemma scan_categories_find table d :
  scan_categories table (lower d) =
  option_map fst (find (keyword_occurs d) table).
Proof.
  induction table as [|[c kws] rest IH]; simpl; [reflexivity|].
  unfold keyword_occurs at 1; simpl.
  rewrite scan_keywords_existsb.
  destruct (existsb _ kws); [reflexivity | exact IH].
Qed.

Lemma scan_categories_some table dl c :
  scan_categories table dl = Some c -> In c (map fst table).
Proof.
  induction table as [|[c' kws] rest IH]; simpl; [discriminate|].
  destruct (scan_keywords kws dl); intros H.
  - left. congruence.
  - right. auto.
Qed.

Lemma scan_categories_none table dl :
  scan_categories table dl = None ->
  forall c kws k, In (c, kws) table -> In k kws -> str_in k dl = false.
Proof.
  induction table as [|[c' kws'] rest IH]; simpl; [contradiction|].
  rewrite scan_keywords_existsb.
  destruct (existsb _ kws') eqn:E; [discriminate|].
  intros Hn c kws k [Heq | Hin] Hk.
  - inversion Heq; subst.
    destruct (str_in k dl) eqn:Ek; [|reflexivity].
    assert (existsb (fun keyword => str_in keyword dl) kws = true)
      by (apply existsb_exists; eauto).
    congruence.
  - eauto.
Qed.

(** *** What the two tests on text compute *)

Lemma prefix_iff k s : String.prefix k s = true <-> exists b, s = k ++ b.
Proof.
  revert s. induction k as [|o os IH]; intros s.
  - split; [intros _; exists s; reflexivity | intros _; now destruct s].
  - destruct s as [|c s]; cbn [String.prefix].
    + split; [discriminate | intros [b E]; discriminate E].
    + destruct (ascii_dec o c) as [->|N].
      * rewrite IH. split; intros [b E]; exists b.
        -- cbn [append]. now rewrite E.
        -- cbn [append] in E. now inversion E.
      * split; [discriminate|]. intros [b E]. cbn [append] in E.
        inversion E. congruence.
Qed.

(** [k in s]: [k] occurs in [s] as a run of consecutive characters. *)
Lemma str_in_iff k s : str_in k s = true <-> exists a b, s = a ++ k ++ b.
Proof.
  induction s as [|c s IH].
  - cbn [str_in]. destruct (String.prefix k "") eqn:P.
    + split; [intros _|reflexivity]. apply prefix_iff in P. destruct P as [b E].
      exists "", b. exact E.
    + split; [discriminate|]. intros (a & b & E).
      destruct a; [|discriminate E]. cbn [append] in E.
      assert (String.prefix k "" = true) by (apply prefix_iff; now exists b).
      congruence.
  - cbn [str_in]. destruct (String.prefix k (String c s)) eqn:P.
    + split; [intros _|reflexivity]. apply prefix_iff in P. destruct P as [b E].
      exists "", b. exact E.
    + rewrite IH. split.
      * intros (a & b & ->). exists (String c a), b. reflexivity.
      * intros (a & b & E). destruct a as [|c' a].
        -- cbn [append] in E.
           assert (String.prefix k (String c s) = true)
             by (apply prefix_iff; now exists b).
           congruence.
        -- cbn [append] in E. inversion E. now exists a, b.
Qed.

Lemma lower_app a b : lower (a ++ b) = lower a ++ lower b.
Proof. induction a as [|c a IH]; cbn [append lower]; [reflexivity | now rewrite IH]. Qed.

(** A character that is none of A to Z is left as it is. *)
Lemma lower_other c :
  code c < 128 ->
  ~ In c (list_ascii_of_string "ABCDEFGHIJKLMNOPQRSTUVWXYZ") ->
  lower (String c "") = String c "".
Proof.
  intros _ H. cbn [lower]. f_equal.
  destruct c as [[] [] [] [] [] [] [] []]; try reflexivity;
    exfalso; apply H; cbn; tauto.
Qed.

(** *** The scan of the table *)

Lemma scan_categories_first table dl c :
  scan_categories table dl = Some c <->
  exists before kws after,
    table = (before ++ (c, kws) :: after)%list /\
    scan_keywords kws dl = true /\
    (forall c' kws', In (c', kws') before -> scan_keywords kws' dl = false).
Proof.
  induction table as [|[c0 kws0] rest IH]; cbn [scan_categories].
  - split; [discriminate|]. intros (b & k & a & E & _). now destruct b.
  - destruct (scan_keywords kws0 dl) eqn:S.
    + split.
      * intros H. inversion H; subst. exists [], kws0, rest.
        split; [reflexivity|]. split; [exact S|]. intros ? ? [].
      * intros (b & k & a & E & Hk & Hb). destruct b as [|[c1 k1] b].
        -- cbn in E. now inversion E.
        -- cbn in E. inversion E; subst.
           rewrite (Hb c1 k1 (or_introl eq_refl)) in S. discriminate S.
    + rewrite IH. split.
      * intros (b & k & a & -> & Hk & Hb). exists ((c0, kws0) :: b), k, a.
        split; [reflexivity|]. split; [exact Hk|].
        intros c' k' [E|Hin]; [inversion E; subst; exact S | eauto].
      * intros (b & k & a & E & Hk & Hb). destruct b as [|[c1 k1] b].
        -- cbn in E. inversion E; subst. congruence.
        -- cbn in E. inversion E; subst. exists b, k, a.
           split; [reflexivity|]. split; [exact Hk|].
           intros c' k' Hin. apply (Hb c' k'). now right.
Qed.

Lemma scan_categories_all_none table dl :
  scan_categories table dl = None <->
  forall c kws, In (c, kws) table -> scan_keywords kws dl = false.
Proof.
  induction table as [|[c0 kws0] rest IH]; cbn [scan_categories].
  - split; [intros _ ? ? [] | reflexivity].
  - destruct (scan_keywords kws0 dl) eqn:S.
    + split; [discriminate|]. intros H.
      rewrite (H c0 kws0 (or_introl eq_refl)) in S. discriminate S.
    + rewrite IH. split.
      * intros H c k [E|Hin]; [inversion E; subst; exact S | eauto].
      * intros H c k Hin. apply (H c k). now right.
Qed.

Lemma scan_keywords_true kws dl :
  scan_keywords kws dl = true <-> exists k, In k kws /\ exists a b, dl = a ++ k ++ b.
Proof.
  rewrite scan_keywords_existsb, existsb_exists.
  split; intros [k [Hk H]]; exists k; (split; [exact Hk|]); now apply str_in_iff.
Qed.

Lemma scan_keywords_false kws dl :
  scan_keywords kws dl = false <->
  forall k, In k kws -> ~ exists a b, dl = a ++ k ++ b.
Proof.
  split.
  - intros H k Hk Ho. assert (scan_keywords kws dl = true)
      by (apply scan_keywords_true; eauto). congruence.
  - intros H. destruct (scan_keywords kws dl) eqn:S; [|reflexivity].
    apply scan_keywords_true in S. destruct S as [k [Hk Ho]]. now elim (H k Hk).
Qed.

(** C8. For every rule table and description, [categorize] returns the
    first category, in table order, one of whose keywords occurs as a
    substring of the lowercased description, and "Other Expenses" when
    no keyword of any category occurs.  The test [k in s] is true
    exactly when [k] is a run of consecutive characters of [s]; on
    ASCII text [lower] works character by character, writes a to z
    for A to Z and leaves every other character as it is.  So the
    result depends on the description only through its lowercase
    form, and with the default table both "STARBUCKS COFFEE" and
    "starbucks coffee" classify as "Food & Dining". *)
Theorem categorize_first_match :
  (forall k s, str_in k s = true <-> exists a b, s = a ++ k ++ b) /\
  (lower "ABCDEFGHIJKLMNOPQRSTUVWXYZ" = "abcdefghijklmnopqrstuvwxyz" /\
   (forall a b, ascii_only a = true -> ascii_only b = true ->
                lower (a ++ b) = lower a ++ lower b) /\
   (forall c, code c < 128 ->
              ~ In c (list_ascii_of_string "ABCDEFGHIJKLMNOPQRSTUVWXYZ") ->
              lower (String c "") = String c "")) /\
  (forall table d c,
      categorize table d = c <->
      (exists before kws after k,
          table = (before ++ (c, kws) :: after)%list /\
          In k kws /\ (exists a b, lower d = a ++ k ++ b) /\
          (forall c' kws' k', In (c', kws') before -> In k' kws' ->
                              ~ exists a b, lower d = a ++ k' ++ b)) \/
      (c = "Other Expenses" /\
       forall c' kws' k', In (c', kws') table -> In k' kws' ->
                          ~ exists a b, lower d = a ++ k' ++ b)) /\
  (forall table d, categorize table d = categorize_spec table d) /\
  (forall table d d', lower d = lower d' -> categorize table d = categorize table d') /\
  categorize default_category_keywords "STARBUCKS COFFEE" = "Food & Dining" /\
  categorize default_category_keywords "starbucks coffee" = "Food & Dining".
Proof.
  split; [exact str_in_iff|].
  split; [split; [reflexivity | split; [intros a b _ _; apply lower_app | exact lower_other]]|].
  split; [|split; [|split; [|split]]].
  - intros table d c. unfold categorize. split.
    + destruct (scan_categories table (lower d)) as [c0|] eqn:E; intros <-.
      * left. apply scan_categories_first in E.
        destruct E as (b & kws & a & -> & Hk & Hb).
        apply scan_keywords_true in Hk. destruct Hk as [k [Hk Ho]].
        exists b, kws, a, k. split; [reflexivity|]. split; [exact Hk|].
        split; [exact Ho|]. intros c' kws' k' Hin Hk'.
        exact (proj1 (scan_keywords_false kws' (lower d)) (Hb c' kws' Hin) k' Hk').
      * right. split; [reflexivity|]. intros c' kws' k' Hin Hk'.
        exact (proj1 (scan_keywords_false kws' (lower d))
                     (proj1 (scan_categories_all_none table (lower d)) E c' kws' Hin)
                     k' Hk').
    + intros [(b & kws & a & k & -> & Hk & Ho & Hb) | [-> Hn]].
      * assert (E : scan_categories (b ++ (c, kws) :: a)%list (lower d) = Some c).
        { apply scan_categories_first. exists b, kws, a.
          split; [reflexivity|]. split; [apply scan_keywords_true; eauto|].
          intros c' kws' Hin. apply scan_keywords_false. intros k' Hk'.
          now apply (Hb c' kws' k'). }
        now rewrite E.
      * assert (E : scan_categories table (lower d) = None).
        { apply scan_categories_all_none. intros c' kws' Hin.
          apply scan_keywords_false. intros k' Hk'. now apply (Hn c' kws' k'). }
        now rewrite E.
  - intros table d. unfold categorize, categorize_spec.
    rewrite scan_categories_find.
    now destruct (find (keyword_occurs d) table).
  - intros table d d' Hl. unfold categorize. now rewrite Hl.
  - reflexivity.
  - reflexivity.
Qed.

Lemma categorize_first_match_witness :
  lower ("Star" ++ "Bucks") = lower "Star" ++ lower "Bucks" /\
  lower (String "-" "") = String "-" "" /\
  categorize default_category_keywords "STARBUCKS COFFEE" = "Food & Dining".
Proof.
  destruct categorize_first_match as (_ & (_ & A & B) & _ & _ & _ & C & _).
  split; [apply (A "Star" "Bucks"); reflexivity|].
  split; [|exact C].
  apply (B "-"%char); [cbv; lia|].
  cbn. intros H. repeat (destruct H as [H|H]; [discriminate H|]). exact H.
Defined.

(** C9. With the default rule table, for every description and every
    amount greater than zero, when [categorize] yields a category whose
    name starts with "Other", [get_suggested_category] returns
    "Other Income": the Salary and Freelance branches of the income
    re-check cannot be taken. *)
Theorem suggested_other_income (d : string) (a : pyfloat) :
  gt0 a = true ->
  startswith (categorize default_category_keywords d) "Other" = true ->
  get_suggested_category default_category_keywords d a = "Other Income".
Proof.
  intros Ha Hs. unfold get_suggested_category.
  rewrite Ha, Hs. simpl andb. cbv iota.
  unfold categorize in Hs.
  destruct (scan_categories default_category_keywords (lower d)) as [c|] eqn:E.
  - apply scan_categories_some in E. simpl in E.
    repeat (destruct E as [E|E]; [subst c; discriminate Hs|]).
    contradiction.
  - pose proof (scan_categories_none _ _ E) as Hk.
    assert (Hsal : forall k,
               In k ["salary"; "payroll"; "wages"; "paycheck"; "employer";
                     "direct deposit"; "income"] ->
               str_in k (lower d) = false).
    { intros k. apply (Hk "Salary"). simpl. tauto. }
    assert (Hfree : forall k,
               In k ["freelance"; "consulting"; "contract"; "gig";
                     "side job"; "project payment"] ->
               str_in k (lower d) = false).
    { intros k. apply (Hk "Freelance"). simpl. tauto. }
    unfold any_word_in. simpl existsb.
    rewrite (Hsal "salary"), (Hsal "payroll"), (Hsal "employer"),
            (Hfree "freelance"), (Hfree "consulting"), (Hfree "contract");
      simpl; tauto.
Qed.

Lemma suggested_other_income_witness :
  get_suggested_category default_category_keywords "Birthday present" (Fin 50) = "Other Income".
Proof.
  apply (suggested_other_income "Birthday present" (Fin 50)); reflexivity.
Defined.

End CategorizerFacts.

(* ------------------------------------------------------------------ *)
(** ** Strings *)

Module PyStrFacts.
Import PyStr.

Lemma append_nil_r s : s ++ "" = s.
Proof. induction s; simpl; congruence. Qed.

Lemma append_assoc (a b c : string) : (a ++ b) ++ c = a ++ (b ++ c).
Proof. induction a; simpl; congruence. Qed.

Lemma all_chars_app p a b :
  all_chars p (a ++ b) = all_chars p a && all_chars p b.
Proof.
  induction a as [|c a IH]; simpl; [reflexivity|].
  now rewrite IH, andb_assoc.
Qed.

Lemma all_chars_impl (p q : ascii -> bool) s :
  (forall c, p c = true -> q c = true) ->
  all_chars p s = true -> all_chars q s = true.
Proof.
  intros H. induction s as [|c s IH]; simpl; [reflexivity|].
  rewrite !andb_true_iff. intros [Hc Hs]. auto.
Qed.

(** *** [strip] *)

Lemma lstrip_spaces l s : all_space l = true -> lstrip (l ++ s) = lstrip s.
Proof.
  unfold all_space. induction l as [|c l IH]; simpl; [reflexivity|].
  rewrite andb_true_iff. intros [Hc Hl]. now rewrite Hc, IH.
Qed.

Lemma rstrip_all_space r : all_space r = true -> rstrip r = "".
Proof.
  unfold all_space. induction r as [|c r IH]; simpl; [reflexivity|].
  rewrite andb_true_iff. intros [Hc Hr]. now rewrite IH, Hc.
Qed.

Lemma rstrip_spaces s r : all_space r = true -> rstrip (s ++ r) = rstrip s.
Proof.
  intros Hr. induction s as [|c s IH]; simpl.
  - now apply rstrip_all_space.
  - now rewrite IH.
Qed.

Lemma strip_spaces l s r :
  all_space l = true -> all_space r = true -> strip (l ++ s ++ r) = strip s.
Proof.
  intros Hl Hr. unfold strip. rewrite lstrip_spaces by assumption.
  induction s as [|c s IH]; simpl.
  - assert (E : lstrip r = "").
    { clear -Hr. unfold all_space in Hr. induction r as [|c r IH]; simpl; [reflexivity|].
      simpl in Hr. apply andb_true_iff in Hr. destruct Hr as [Hc Hr]. now rewrite Hc, IH. }
    now rewrite E.
  - destruct (is_space c); [exact IH|].
    change (String c (s ++ r)) with (String c s ++ r).
    now apply rstrip_spaces.
Qed.

(** A string is its stripped form between two runs of white space. *)
Lemma lstrip_split s : exists l, all_space l = true /\ s = l ++ lstrip s.
Proof.
  induction s as [|c s [l [Hl E]]]; simpl.
  - exists "". auto.
  - destruct (is_space c) eqn:Hc.
    + exists (String c l). split; [unfold all_space in *; simpl; now rewrite Hc|].
      simpl. now rewrite <- E.
    + exists "". auto.
Qed.

Lemma rstrip_split s : exists r, all_space r = true /\ s = rstrip s ++ r.
Proof.
  induction s as [|c s [r [Hr E]]]; simpl.
  - exists "". auto.
  - destruct (rstrip s) as [|c' s'] eqn:R.
    + destruct (is_space c) eqn:Hc.
      * exists (String c r). split; [unfold all_space in *; simpl; now rewrite Hc|].
        simpl in *. now rewrite <- E.
      * exists r. split; [exact Hr|]. simpl in *. now rewrite <- E.
    + exists r. split; [exact Hr|]. simpl in *. now rewrite <- E.
Qed.

Lemma strip_split s :
  exists l r, all_space l = true /\ all_space r = true /\ s = l ++ strip s ++ r.
Proof.
  destruct (lstrip_split s) as [l [Hl El]].
  destruct (rstrip_split (lstrip s)) as [r [Hr Er]].
  exists l, r. repeat split; auto. unfold strip. now rewrite <- Er.
Qed.

Lemma strip_no_space s :
  all_chars (fun c => negb (is_space c)) s = true -> strip s = s.
Proof.
  intros H. unfold strip.
  assert (El : lstrip s = s).
  { destruct s as [|c s]; [reflexivity|]. simpl in *.
    apply andb_true_iff in H. destruct H as [Hc _].
    apply negb_true_iff in Hc. now rewrite Hc. }
  rewrite El. clear El. induction s as [|c s IH]; [reflexivity|].
  simpl in *. apply andb_true_iff in H. destruct H as [Hc Hs].
  rewrite (IH Hs). apply negb_true_iff in Hc. rewrite Hc. now destruct s.
Qed.

(** *** The white space that [float()] skips *)

Lemma c_space_is_space c : is_c_space c = true -> is_space c = true.
Proof.
  unfold is_c_space, is_space.
  rewrite !orb_true_iff, !andb_true_iff, Nat.eqb_eq, !Nat.leb_le. lia.
Qed.

Lemma plain_space c : plain_char c = true -> is_space c = true -> is_c_space c = true.
Proof.
  unfold plain_char, is_c_space, is_space.
  rewrite !orb_true_iff, !andb_true_iff, negb_true_iff, andb_false_iff,
          Nat.eqb_eq, !Nat.leb_le, !Nat.leb_gt, Nat.ltb_lt. lia.
Qed.

Lemma c_lstrip_spaces l s :
  all_chars is_c_space l = true -> c_lstrip (l ++ s) = c_lstrip s.
Proof.
  induction l as [|c l IH]; simpl; [reflexivity|].
  rewrite andb_true_iff. intros [Hc Hl]. now rewrite Hc, IH.
Qed.

Lemma c_rstrip_all_space r : all_chars is_c_space r = true -> c_rstrip r = "".
Proof.
  induction r as [|c r IH]; simpl; [reflexivity|].
  rewrite andb_true_iff. intros [Hc Hr]. now rewrite IH, Hc.
Qed.

Lemma c_rstrip_spaces s r :
  all_chars is_c_space r = true -> c_rstrip (s ++ r) = c_rstrip s.
Proof.
  intros Hr. induction s as [|c s IH]; simpl.
  - now apply c_rstrip_all_space.
  - now rewrite IH.
Qed.

Lemma c_strip_spaces l s r :
  all_chars is_c_space l = true -> all_chars is_c_space r = true ->
  c_strip (l ++ s ++ r) = c_strip s.
Proof.
  intros Hl Hr. unfold c_strip. rewrite c_lstrip_spaces by assumption.
  induction s as [|c s IH]; simpl.
  - rewrite <- (append_nil_r r) at 1. rewrite c_lstrip_spaces by assumption.
    reflexivity.
  - destruct (is_c_space c); [exact IH|].
    change (String c (s ++ r)) with (String c s ++ r).
    now apply c_rstrip_spaces.
Qed.

Lemma c_strip_no_space s :
  all_chars (fun c => negb (is_space c)) s = true -> c_strip s = s.
Proof.
  intros H. unfold c_strip.
  assert (N : forall c, negb (is_space c) = true -> is_c_space c = false).
  { intros c Hc. apply negb_true_iff in Hc.
    destruct (is_c_space c) eqn:E; [|reflexivity].
    apply c_space_is_space in E. congruence. }
  assert (El : c_lstrip s = s).
  { destruct s as [|c s]; [reflexivity|]. simpl in *.
    apply andb_true_iff in H. destruct H as [Hc _]. now rewrite (N c Hc). }
  rewrite El. clear El. induction s as [|c s IH]; [reflexivity|].
  simpl in *. apply andb_true_iff in H. destruct H as [Hc Hs].
  rewrite (IH Hs). rewrite (N c Hc). now destruct s.
Qed.

(** In plain text the white space of [str.strip] is that of [float()]. *)
Lemma plain_spaces w :
  plain w = true -> all_space w = true -> all_chars is_c_space w = true.
Proof.
  unfold plain, all_space. induction w as [|c w IH]; [reflexivity|].
  cbn [all_chars]. rewrite !andb_true_iff. intros [Hc Hw] [Sc Sw].
  split; [now apply plain_space | auto].
Qed.

(** *** [replace] and [in] *)

Lemma prefix_cons o os c s :
  String.prefix (String o os) (String c s) =
  if Ascii.eqb o c then String.prefix os s else false.
Proof.
  simpl. destruct (ascii_dec o c) as [->|N].
  - now rewrite Ascii.eqb_refl.
  - apply Ascii.eqb_neq in N. now rewrite N.
Qed.

Lemma prefix_nil s : String.prefix "" s = true.
Proof. now destruct s. Qed.

(** Before the first character of [old] occurs, nothing is replaced. *)
Lemma replace_head o os new l s :
  all_chars (fun c => negb (Ascii.eqb o c)) l = true ->
  replace (String o os) new (l ++ s) = l ++ replace (String o os) new s.
Proof.
  unfold replace. induction l as [|c l IH]; [reflexivity|].
  cbn [all_chars]. rewrite andb_true_iff, negb_true_iff. intros [Hc Hl].
  cbn [append replace_from]. rewrite prefix_cons, Hc. now rewrite IH.
Qed.

Lemma replace_absent o os new l :
  all_chars (fun c => negb (Ascii.eqb o c)) l = true ->
  replace (String o os) new l = l.
Proof.
  intros H. rewrite <- (append_nil_r l) at 1. rewrite replace_head by assumption.
  now rewrite append_nil_r.
Qed.

(** Replacing one character works piece by piece. *)
Lemma replace1_app c new x y :
  replace (String c "") new (x ++ y) =
  replace (String c "") new x ++ replace (String c "") new y.
Proof.
  unfold replace. induction x as [|a x IH]; [reflexivity|].
  cbn [append replace_from String.length Nat.sub]. rewrite !prefix_cons, !prefix_nil.
  destruct (Ascii.eqb c a); rewrite IH; [now rewrite append_assoc | reflexivity].
Qed.

Lemma replace1_all_chars p c s :
  all_chars p s = true -> all_chars p (replace (String c "") "" s) = true.
Proof.
  unfold replace. induction s as [|a s IH]; [reflexivity|].
  cbn [all_chars replace_from String.length Nat.sub]. rewrite prefix_cons, prefix_nil.
  rewrite andb_true_iff. intros [Ha Hs].
  destruct (Ascii.eqb c a); cbn [append all_chars]; [auto|].
  now rewrite Ha, IH.
Qed.

Lemma str_in1_app c x y :
  str_in (String c "") (x ++ y) = str_in (String c "") x || str_in (String c "") y.
Proof.
  induction x as [|a x IH].
  - cbn [append]. now destruct y.
  - cbn [append str_in]. rewrite !prefix_cons, !prefix_nil.
    destruct (Ascii.eqb c a); [reflexivity | exact IH].
Qed.

Lemma str_in1_absent c s :
  all_chars (fun a => negb (Ascii.eqb c a)) s = true -> str_in (String c "") s = false.
Proof.
  induction s as [|a s IH]; [reflexivity|].
  cbn [all_chars str_in]. rewrite andb_true_iff, negb_true_iff, prefix_cons.
  intros [Ha Hs]. rewrite Ha. auto.
Qed.

Lemma prefix_app_self old s : String.prefix old (old ++ s) = true.
Proof.
  induction old as [|o os IH]; cbn [append]; [apply prefix_nil|].
  now rewrite prefix_cons, Ascii.eqb_refl.
Qed.

Lemma replace_from_skip old new t s :
  replace_from old new (String.length t) (t ++ s) = replace_from old new 0 s.
Proof. induction t as [|c t IH]; [reflexivity | exact IH]. Qed.

(** An occurrence of [old] at the head is replaced. *)
Lemma replace_at_head o os new s :
  replace (String o os) new (String o os ++ s) = new ++ replace (String o os) new s.
Proof.
  unfold replace. cbn [append replace_from].
  change (String o (os ++ s)) with (String o os ++ s).
  rewrite prefix_app_self. cbn [String.length Nat.sub].
  now rewrite Nat.sub_0_r, replace_from_skip.
Qed.

(** *** [strip] around text without white space *)

Lemma lstrip_app_nonspace a c t :
  is_space c = false -> lstrip (a ++ String c t) = lstrip a ++ String c t.
Proof.
  intros Hc. induction a as [|x a IH]; cbn [append lstrip].
  - now rewrite Hc.
  - destruct (is_space x); [exact IH | reflexivity].
Qed.

Lemma rstrip_app_nonempty x y : rstrip y <> "" -> rstrip (x ++ y) = x ++ rstrip y.
Proof.
  intros Hy. induction x as [|c x IH]; [reflexivity|].
  cbn [append rstrip]. rewrite IH.
  destruct (x ++ rstrip y) eqn:E; [|reflexivity].
  destruct x; [|discriminate]. simpl in E. contradiction.
Qed.

Lemma rstrip_nonspace sym b :
  all_chars (fun c => negb (is_space c)) sym = true -> sym <> "" ->
  rstrip (sym ++ b) = sym ++ rstrip b /\ rstrip (sym ++ b) <> "".
Proof.
  induction sym as [|d sym IH]; [contradiction|].
  cbn [all_chars]. rewrite andb_true_iff, negb_true_iff. intros [Hd Hs] _.
  cbn [append rstrip].
  destruct sym as [|d' sym'].
  - cbn [append]. rewrite Hd. destruct (rstrip b); split; (reflexivity || discriminate).
  - destruct (IH Hs) as [E N]; [discriminate|].
    rewrite E in *. destruct (String d' sym' ++ rstrip b) eqn:F; [contradiction|].
    split; [reflexivity | discriminate].
Qed.

Lemma strip_around sym a b :
  all_chars (fun c => negb (is_space c)) sym = true -> sym <> "" ->
  strip (a ++ sym ++ b) = lstrip a ++ sym ++ rstrip b.
Proof.
  intros Hs Hn. unfold strip.
  destruct sym as [|c t] eqn:Esym; [contradiction|].
  assert (Hc : is_space c = false).
  { cbn [all_chars] in Hs. apply andb_true_iff in Hs. now apply negb_true_iff. }
  change (String c t ++ b) with (String c (t ++ b)).
  rewrite lstrip_app_nonspace by assumption.
  change (String c (t ++ b)) with (String c t ++ b).
  destruct (rstrip_nonspace (String c t) b Hs Hn) as [E N].
  rewrite rstrip_app_nonempty by assumption. now rewrite E.
Qed.

(** Characters of a class are not a given character outside it. *)
Lemma all_chars_not (p : ascii -> bool) o s :
  p o = false -> all_chars p s = true ->
  all_chars (fun c => negb (Ascii.eqb o c)) s = true.
Proof.
  intros Ho. apply all_chars_impl. intros c Hc.
  apply negb_true_iff, Ascii.eqb_neq. intros ->. congruence.
Qed.

End PyStrFacts.

(* ------------------------------------------------------------------ *)
(** ** Rendered dates *)

Module DateTimeFacts.
Import PyStr Py DateTime PyStrFacts.

Lemma digit_char_compare a b :
  a < 10 -> b < 10 -> Ascii.compare (digit_char a) (digit_char b) = (a ?= b).
Proof.
  intros Ha Hb. unfold Ascii.compare, digit_char, ascii_of_nat.
  rewrite !N_ascii_embedding by lia.
  rewrite <- Nnat.Nat2N.inj_compare.
  destruct (Nat.compare_spec (48 + a) (48 + b));
    destruct (Nat.compare_spec a b); try reflexivity; exfalso; lia.
Qed.

Lemma compare_cons c1 c2 s t :
  String.compare (String c1 s) (String c2 t) =
  match Ascii.compare c1 c2 with Eq => String.compare s t | r => r end.
Proof. simpl. now destruct (Ascii.compare c1 c2). Qed.

Lemma render2_app n s :
  render2 n ++ s = String (digit_char (n / 10)) (String (digit_char (n mod 10)) s).
Proof. reflexivity. Qed.

Lemma compare_render2 a b s t :
  a < 100 -> b < 100 ->
  String.compare (render2 a ++ s) (render2 b ++ t) =
  match a ?= b with Eq => String.compare s t | c => c end.
Proof.
  intros Ha Hb. rewrite !render2_app, !compare_cons.
  assert (a / 10 < 10) by (apply Nat.Div0.div_lt_upper_bound; lia).
  assert (b / 10 < 10) by (apply Nat.Div0.div_lt_upper_bound; lia).
  assert (a mod 10 < 10) by (apply Nat.mod_upper_bound; lia).
  assert (b mod 10 < 10) by (apply Nat.mod_upper_bound; lia).
  rewrite !digit_char_compare by assumption.
  pose proof (Nat.div_mod_eq a 10). pose proof (Nat.div_mod_eq b 10).
  destruct (Nat.compare_spec (a / 10) (b / 10));
    destruct (Nat.compare_spec (a mod 10) (b mod 10));
    destruct (Nat.compare_spec a b); try reflexivity; exfalso; lia.
Qed.

Lemma render4_app n s :
  render4 n ++ s = render2 (n / 100) ++ (render2 (n mod 100) ++ s).
Proof. reflexivity. Qed.

Lemma compare_render4 a b s t :
  a < 100 * 100 -> b < 100 * 100 ->
  String.compare (render4 a ++ s) (render4 b ++ t) =
  match a ?= b with Eq => String.compare s t | c => c end.
Proof.
  intros Ha Hb. rewrite !render4_app.
  assert (a / 100 < 100) by (apply Nat.Div0.div_lt_upper_bound; lia).
  assert (b / 100 < 100) by (apply Nat.Div0.div_lt_upper_bound; lia).
  assert (a mod 100 < 100) by (apply Nat.mod_upper_bound; lia).
  assert (b mod 100 < 100) by (apply Nat.mod_upper_bound; lia).
  rewrite !compare_render2 by assumption.
  pose proof (Nat.div_mod_eq a 100). pose proof (Nat.div_mod_eq b 100).
  destruct (Nat.compare_spec (a / 100) (b / 100));
    destruct (Nat.compare_spec (a mod 100) (b mod 100));
    destruct (Nat.compare_spec a b); try reflexivity; exfalso; lia.
Qed.

Lemma compare_same_head c s t :
  String.compare (String c s) (String c t) = String.compare s t.
Proof.
  rewrite compare_cons. unfold Ascii.compare. now rewrite N.compare_refl.
Qed.

Lemma iso_text_eq a :
  iso_text a =
  render4 (year a) ++ String "-" (render2 (month a) ++ String "-" (render2 (day a) ++ "")).
Proof. unfold iso_text. now rewrite append_nil_r. Qed.

(** Text order on rendered dates is calendar order. *)
Lemma compare_iso a b :
  year a < 100 * 100 -> month a < 100 -> day a < 100 ->
  year b < 100 * 100 -> month b < 100 -> day b < 100 ->
  String.compare (iso_text a) (iso_text b) =
  match year a ?= year b with
  | Eq => match month a ?= month b with
          | Eq => day a ?= day b
          | c => c
          end
  | c => c
  end.
Proof.
  intros. rewrite !iso_text_eq.
  rewrite compare_render4 by assumption.
  destruct (year a ?= year b); try reflexivity.
  rewrite compare_same_head, compare_render2 by assumption.
  destruct (month a ?= month b); try reflexivity.
  rewrite compare_same_head, compare_render2 by assumption.
  now destruct (day a ?= day b).
Qed.

Lemma MAXYEAR_eq : MAXYEAR = 99 * 101.
Proof. reflexivity. Qed.

Lemma days_in_month_le y m : days_in_month y m <= 31.
Proof.
  unfold days_in_month.
  do 12 (destruct m as [|m]; [try destruct (is_leap y); lia|]). lia.
Qed.

Lemma valid_date_bounds dt :
  valid_date dt = true ->
  1 <= DateTime.year dt <= 99 * 101 /\ 1 <= DateTime.month dt <= 12 /\
  1 <= DateTime.day dt <= 31.
Proof.
  unfold valid_date. rewrite MAXYEAR_eq. rewrite !andb_true_iff, !Nat.leb_le.
  pose proof (days_in_month_le (DateTime.year dt) (DateTime.month dt)). lia.
Qed.

Lemma last_day_valid y m :
  1 <= y <= 99 * 101 -> 1 <= m <= 12 ->
  valid_date (mk_datetime y m (days_in_month y m)) = true.
Proof.
  intros Hy Hm. unfold valid_date. cbn [DateTime.year DateTime.month DateTime.day].
  rewrite MAXYEAR_eq, !andb_true_iff, !Nat.leb_le.
  assert (1 <= days_in_month y m).
  { unfold days_in_month.
    do 12 (destruct m as [|m]; [try destruct (is_leap y); lia|]). lia. }
  lia.
Qed.

End DateTimeFacts.

(* ------------------------------------------------------------------ *)
(** ** The store *)

Module FinanceDatabaseFacts.
Import PyStr Py FinanceDatabase.

Lemma filter_all {A} (p : A -> bool) (l : list A) :
  (forall x, In x l -> p x = true) -> filter p l = l.
Proof.
  induction l as [|x l IH]; simpl; intros H; [reflexivity|].
  rewrite (H x (or_introl eq_refl)). f_equal. apply IH. intros; apply H; now right.
Qed.

Lemma map_id_on {A} (f : A -> A) (l : list A) :
  (forall x, In x l -> f x = x) -> map f l = l.
Proof.
  induction l as [|x l IH]; simpl; intros H; [reflexivity|].
  rewrite (H x (or_introl eq_refl)). f_equal. apply IH. intros; apply H; now right.
Qed.

(** C5, as the code has it. [delete_transaction] on an id that no
    transaction has (an id that fits in 64 bits, as the engine needs
    it), and [update_budget_limit] on a name that no category has,
    raise nothing: they return normally and leave the store as it
    was. *)
Theorem missing_target_is_a_no_op :
  (forall d i, (- 2 ^ 63 <= i < 2 ^ 63)%Z ->
               (forall t, In t (transactions d) -> id t <> i) ->
               delete_transaction d i = Ok d) /\
  (forall d c l, (forall r, In r (categories d) -> name r <> c) ->
                 update_budget_limit d c l = Ok d).
Proof.
  split.
  - intros [ts cs n] i _ H. unfold delete_transaction. simpl in *.
    rewrite filter_all; [reflexivity|].
    intros t Ht. apply negb_true_iff, Z.eqb_neq. now apply H.
  - intros [ts cs n] c l H. unfold update_budget_limit. simpl in *.
    rewrite map_id_on; [reflexivity|].
    intros r Hr. apply H in Hr. apply String.eqb_neq in Hr. now rewrite Hr.
Qed.

Lemma missing_target_is_a_no_op_witness :
  delete_transaction new_db 7 = Ok new_db /\
  update_budget_limit new_db "Travel" 250 = Ok new_db.
Proof.
  split.
  - apply (proj1 missing_target_is_a_no_op new_db 7%Z); [lia|]. simpl. contradiction.
  - apply (proj2 missing_target_is_a_no_op new_db "Travel" 250%Q).
    simpl. intros r H.
    repeat (destruct H as [H|H]; [subst r; discriminate|]). contradiction.
Defined.

(** C5, as the specification states it, fails on the new store: no
    transaction has id 7 and no category is named "Travel", and neither
    call raises. *)
Lemma missing_target_raises_nothing :
  (forall t, In t (transactions new_db) -> id t <> 7%Z) /\
  (forall r, In r (categories new_db) -> name r <> "Travel") /\
  (forall e, delete_transaction new_db 7 <> Raise e) /\
  (forall e, update_budget_limit new_db "Travel" 250 <> Raise e).
Proof.
  repeat split.
  - simpl. contradiction.
  - simpl. intros r H.
    repeat (destruct H as [H|H]; [subst r; discriminate|]). contradiction.
  - intros e; discriminate.
  - intros e; discriminate.
Qed.

(** *** Grouped sums *)

Lemma dict_get_map_keys (f : string -> Q) ks key dflt :
  dict_get (map (fun k => (k, f k)) ks) key dflt =
  if existsb (String.eqb key) ks then f key else dflt.
Proof.
  revert dflt. induction ks as [|k ks IH]; intros dflt; simpl; [reflexivity|].
  rewrite IH. rewrite (String.eqb_sym key k).
  destruct (String.eqb_spec k key) as [->|_]; simpl.
  - now destruct (existsb _ ks).
  - reflexivity.
Qed.

Lemma existsb_distinct key l :
  existsb (String.eqb key) (distinct String.eqb l) = existsb (String.eqb key) l.
Proof.
  induction l as [|x l IH]; simpl; [reflexivity|].
  destruct (String.eqb_spec key x) as [->|Hne]; simpl; [reflexivity|].
  rewrite <- IH. clear IH.
  induction (distinct String.eqb l) as [|y ys IHy]; simpl; [reflexivity|].
  destruct (String.eqb_spec x y) as [->|Hxy]; simpl.
  - destruct (String.eqb_spec key y); [contradiction|]. exact IHy.
  - now rewrite IHy.
Qed.

Lemma filter_none {A} (p : A -> bool) (l : list A) :
  existsb p l = false -> filter p l = [].
Proof.
  induction l as [|x l IH]; simpl; [reflexivity|].
  destruct (p x); simpl; [discriminate | exact IH].
Qed.

Lemma dict_get_groups rows key :
  dict_get (group_by_sum String.eqb rows) key 0%Q =
  Qsum (map snd (filter (fun r => String.eqb key (fst r)) rows)).
Proof.
  unfold group_by_sum.
  rewrite (dict_get_map_keys
             (fun k => Qsum (map snd (filter (fun r => String.eqb k (fst r)) rows)))).
  rewrite existsb_distinct.
  destruct (existsb (String.eqb key) (map fst rows)) eqn:E; [reflexivity|].
  rewrite filter_none; [reflexivity|].
  rewrite <- E. clear E. induction rows as [|r rows IH]; simpl; [reflexivity|].
  now rewrite IH.
Qed.

Lemma filter_map_filter {A} (k : A -> string) (v : A -> Q) (p : A -> bool) key l :
  map snd (filter (fun r => String.eqb key (fst r)) (map (fun t => (k t, v t)) (filter p l))) =
  map v (filter (fun t => String.eqb (k t) key && p t) l).
Proof.
  induction l as [|t l IH]; simpl; [reflexivity|].
  destruct (p t); simpl.
  - rewrite (String.eqb_sym key (k t)).
    destruct (String.eqb (k t) key); simpl; now rewrite IH.
  - rewrite andb_false_r. exact IH.
Qed.

Lemma summary_totals d year month :
  income (get_monthly_summary d year month) = month_total d year month "income" /\
  expenses (get_monthly_summary d year month) = month_total d year month "expense" /\
  balance (get_monthly_summary d year month) =
    (income (get_monthly_summary d year month) -
     expenses (get_monthly_summary d year month))%Q.
Proof.
  unfold get_monthly_summary, month_total; simpl.
  rewrite !dict_get_groups, !filter_map_filter. auto.
Qed.

Lemma month_total_none d year month ty :
  (forall t, In t (transactions d) -> type t = ty ->
             in_half_open (month_start year month) (month_end year month) (date t) = false) ->
  month_total d year month ty = 0%Q.
Proof.
  intros H. unfold month_total. rewrite filter_none; [reflexivity|].
  induction (transactions d) as [|t ts IH]; simpl; [reflexivity|].
  rewrite IH by (intros; apply H; auto; now right).
  destruct (String.eqb_spec (type t) ty) as [E|_]; simpl; [|reflexivity].
  rewrite (H t (or_introl eq_refl) E). reflexivity.
Qed.

End FinanceDatabaseFacts.

(* ------------------------------------------------------------------ *)
(** ** Months as intervals of text *)

Module CalendarFacts.
Import PyStr Py DateTime DateTimeFacts FinanceDatabase FinanceDatabaseFacts.

Lemma zrange_In len : forall start z,
  (start <= z < start + Z.of_nat len)%Z -> In z (zrange start len).
Proof.
  induction len as [|n IH]; intros start z H; [lia|].
  simpl. destruct (Z.eq_dec start z) as [E|E]; [now left|].
  right. apply IH. lia.
Qed.

Lemma digit_charZ_nat z : (0 <= z)%Z -> digit_char (Z.to_nat z) = digit_charZ z.
Proof.
  intros H. unfold digit_char, digit_charZ, ascii_of_nat. f_equal. lia.
Qed.

Lemma render4Z_nat z : (0 <= z)%Z -> render4 (Z.to_nat z) = render4Z z.
Proof.
  intros H. unfold render4, render2, render4Z. cbn [append].
  assert (0 <= z / 100)%Z by (apply Z.div_pos; lia).
  assert (0 <= z mod 100)%Z by (apply Z.mod_pos_bound; lia).
  assert (E1 : Z.to_nat z / 100 = Z.to_nat (z / 100))
    by (now rewrite Z2Nat.inj_div by lia).
  assert (E2 : Z.to_nat z mod 100 = Z.to_nat (z mod 100))
    by (now rewrite Z2Nat.inj_mod by lia).
  rewrite E1, E2.
  assert (D : forall a, (0 <= a)%Z -> Z.to_nat a / 10 = Z.to_nat (a / 10))
    by (intros a Ha; now rewrite Z2Nat.inj_div by lia).
  assert (M : forall a, (0 <= a)%Z -> Z.to_nat a mod 10 = Z.to_nat (a mod 10))
    by (intros a Ha; now rewrite Z2Nat.inj_mod by lia).
  rewrite !D, !M by assumption.
  rewrite !digit_charZ_nat; [reflexivity| | | |];
    first [apply Z.div_pos; lia | apply Z.mod_pos_bound; lia].
Qed.

Lemma fmt_d_four year :
  (1000 <= year <= 9999)%Z -> fmt_d year = render4 (Z.to_nat year).
Proof.
  intros H. rewrite render4Z_nat by lia.
  assert (C : forallb (fun z => String.eqb (fmt_d z) (render4Z z))
                      (zrange 1000 (9 * 1000)) = true) by (vm_compute; reflexivity).
  rewrite forallb_forall in C.
  apply String.eqb_eq, C, zrange_In. lia.
Qed.

Lemma fmt_02d_month month :
  (1 <= month <= 12)%Z -> fmt_02d month = render2 (Z.to_nat month).
Proof.
  intros H.
  assert (C : forallb (fun n => String.eqb (fmt_02d (Z.of_nat n)) (render2 n))
                      (seq 1 12) = true) by (vm_compute; reflexivity).
  rewrite forallb_forall in C.
  specialize (C (Z.to_nat month)).
  rewrite Z2Nat.id in C by lia.
  apply String.eqb_eq, C, in_seq. lia.
Qed.

Lemma month_start_iso year month :
  (1000 <= year <= 9999)%Z -> (1 <= month <= 12)%Z ->
  month_start year month = iso_text (mk_datetime (Z.to_nat year) (Z.to_nat month) 1).
Proof.
  intros Hy Hm. unfold month_start, iso_text. cbn [DateTime.year DateTime.month DateTime.day].
  now rewrite fmt_d_four, fmt_02d_month.
Qed.

Lemma month_end_iso year month :
  (1000 <= year <= 9999)%Z -> (1 <= month <= 12)%Z ->
  ~ (year = 9999 /\ month = 12)%Z ->
  month_end year month =
  iso_text (if (month =? 12)%Z
                then mk_datetime (Z.to_nat year + 1) 1 1
                else mk_datetime (Z.to_nat year) (Z.to_nat month + 1) 1).
Proof.
  intros Hy Hm Hn. unfold month_end, iso_text.
  destruct (Z.eqb_spec month 12) as [E|E]; cbn [DateTime.year DateTime.month DateTime.day].
  - rewrite fmt_d_four by lia. now replace (Z.to_nat (year + 1)) with (Z.to_nat year + 1) by lia.
  - rewrite fmt_d_four, fmt_02d_month by lia.
    now replace (Z.to_nat (month + 1)) with (Z.to_nat month + 1) by lia.
Qed.

Lemma leb_compare s t : String.leb s t = match String.compare s t with Gt => false | _ => true end.
Proof. reflexivity. Qed.

Lemma ltb_compare s t : String.ltb s t = match String.compare s t with Lt => true | _ => false end.
Proof. reflexivity. Qed.

(** For a four-digit year and a month of the calendar, December 9999
    apart, the dates of the half-open interval of that month are the
    dates of that month. *)
Lemma in_month_iff (y m : Z) (dt : datetime) :
  (1000 <= y <= 9999)%Z -> (1 <= m <= 12)%Z -> ~ (y = 9999 /\ m = 12)%Z ->
  valid_date dt = true ->
  in_half_open (month_start y m) (month_end y m) (iso_text dt) = true <->
  (Z.of_nat (DateTime.year dt) = y /\ Z.of_nat (DateTime.month dt) = m).
Proof.
  intros Hy Hm Hn Hv. apply valid_date_bounds in Hv.
  unfold in_half_open.
  rewrite month_start_iso, month_end_iso by assumption.
  rewrite leb_compare, ltb_compare.
  destruct (Z.eqb_spec m 12) as [E|E];
    rewrite !compare_iso by (cbn [DateTime.year DateTime.month DateTime.day]; lia);
    cbn [DateTime.year DateTime.month DateTime.day];
    rewrite andb_true_iff;
    repeat match goal with
           | |- context [?a ?= ?b] =>
               lazymatch type of a with nat => destruct (Nat.compare_spec a b) end
           end;
    (split; [intros [? ?]; try discriminate; lia
            | intros [? ?]; try (exfalso; lia); auto]).
Qed.

Lemma compare_refl s : String.compare s s = Eq.
Proof.
  induction s as [|c s IH]; [reflexivity|]. now rewrite compare_same_head.
Qed.

Lemma upper_bound_excluded start_date end_date :
  in_half_open start_date end_date end_date = false.
Proof.
  unfold in_half_open. rewrite ltb_compare, compare_refl. apply andb_false_r.
Qed.

(** C2, as the code has it. [get_monthly_summary] returns as income and
    expenses the sums of the amounts of the transactions of each type
    whose date lies in the half-open text interval from [month_start]
    to [month_end], 0 when there is none, and as balance their
    difference; the end bound is January of the next year when the
    month is December.  For a four-digit year and a month from 1 to 12,
    December 9999 apart, the rendered dates in that interval are the
    dates of that month: its last day is in and the first day of the
    next month is out. *)
Theorem monthly_summary_half_open :
  (forall d y m,
      income (get_monthly_summary d y m) = month_total d y m "income" /\
      expenses (get_monthly_summary d y m) = month_total d y m "expense" /\
      balance (get_monthly_summary d y m) =
        (income (get_monthly_summary d y m) - expenses (get_monthly_summary d y m))%Q) /\
  (forall d y m ty,
      (forall t, In t (transactions d) -> type t = ty ->
                 in_half_open (month_start y m) (month_end y m) (date t) = false) ->
      month_total d y m ty = 0%Q) /\
  (forall y, month_end y 12 = fmt_d (y + 1) ++ "-01-01") /\
  (forall (y m : Z) (dt : datetime),
      (1000 <= y <= 9999)%Z -> (1 <= m <= 12)%Z -> ~ (y = 9999 /\ m = 12)%Z ->
      valid_date dt = true ->
      (in_half_open (month_start y m) (month_end y m) (iso_text dt) = true <->
       Z.of_nat (DateTime.year dt) = y /\ Z.of_nat (DateTime.month dt) = m)) /\
  (forall (y m : Z),
      (1000 <= y <= 9999)%Z -> (1 <= m <= 12)%Z -> ~ (y = 9999 /\ m = 12)%Z ->
      in_half_open (month_start y m) (month_end y m)
        (iso_text (mk_datetime (Z.to_nat y) (Z.to_nat m)
                         (days_in_month (Z.to_nat y) (Z.to_nat m)))) = true /\
      in_half_open (month_start y m) (month_end y m) (month_end y m) = false).
Proof.
  split; [|split; [|split; [|split]]].
  - intros d y m. apply summary_totals.
  - intros d y m ty. apply month_total_none.
  - reflexivity.
  - intros y m dt. apply in_month_iff.
  - intros y m Hy Hm Hn. split; [|apply upper_bound_excluded].
    apply in_month_iff; try assumption.
    + apply last_day_valid; lia.
    + cbn [DateTime.year DateTime.month]. lia.
Qed.

Lemma monthly_summary_half_open_witness :
  in_half_open (month_start 2024 12) (month_end 2024 12)
    (iso_text (mk_datetime 2024 12 31)) = true /\
  in_half_open (month_start 2024 12) (month_end 2024 12)
    (iso_text (mk_datetime 2025 1 1)) = false.
Proof.
  pose proof (proj1 (proj2 (proj2 (proj2 monthly_summary_half_open)))) as H.
  split.
  - apply (H 2024%Z 12%Z (mk_datetime 2024 12 31)); try lia; [reflexivity|].
    split; reflexivity.
  - destruct (in_half_open (month_start 2024 12) (month_end 2024 12)
                (iso_text (mk_datetime 2025 1 1))) eqn:E; [|reflexivity].
    apply (H 2024%Z 12%Z (mk_datetime 2025 1 1)) in E; try lia; try reflexivity.
    destruct E as [E _]. discriminate E.
Defined.

(** C2, as the specification states it, fails for December 9999: a
    transaction dated on the last day of that month is left out of the
    summary, because the end bound "10000-01-01" sorts before it. *)
Lemma december_9999_is_left_out :
  valid_date (mk_datetime 9999 12 31) = true /\
  iso_text (mk_datetime 9999 12 31) = "9999-12-31" /\
  month_end 9999 12 = "10000-01-01" /\
  in_half_open (month_start 9999 12) (month_end 9999 12) "9999-12-31" = false /\
  income (get_monthly_summary december_db 9999 12) = 0%Q.
Proof. vm_compute. repeat split. Qed.

End CalendarFacts.

(* ------------------------------------------------------------------ *)
(** ** Ordered queries *)

Module OrderFacts.
Import PyStr PyFloat Py FinanceDatabase FinanceDatabaseFacts.

Section Sorting.
Context {A : Type} (key : A -> Q).



End Sorting.

Lemma fle_bool_total x y : fle_bool x y = false -> fle_bool y x = true.
Proof.
  destruct x as [a| | |], y as [b| | |]; cbn; try discriminate; try reflexivity.
  intros H. apply Qle_bool_iff.
  destruct (Qlt_le_dec b a) as [L|L]; [now apply Qlt_le_weak|].
  apply Qle_bool_iff in L. congruence.
Qed.

Lemma fle_trans x y z : fle x y -> fle y z -> fle x z.
Proof.
  unfold fle.
  destruct x as [a| | |], y as [b| | |], z as [c| | |]; cbn;
    try discriminate; try reflexivity.
  rewrite !Qle_bool_iff. apply Qle_trans.
Qed.

Section SortingReal.
Context {A : Type} (key : A -> pyfloat).

Lemma insert_desc_real_perm x l : Permutation (x :: l) (insert_desc_real key x l).
Proof.
  induction l as [|y l IH]; simpl; [constructor; constructor|].
  destruct (fle_bool (key y) (key x)); [apply Permutation_refl|].
  eapply Permutation_trans; [apply perm_swap|]. now constructor.
Qed.

Lemma insert_desc_real_sorted x l :
  StronglySorted (fun a b => fle (key b) (key a)) l ->
  StronglySorted (fun a b => fle (key b) (key a)) (insert_desc_real key x l).
Proof.
  induction l as [|y l IH]; simpl; intros Hs.
  - repeat constructor.
  - inversion Hs as [|? ? Hl Hall]; subst.
    destruct (fle_bool (key y) (key x)) eqn:E.
    + constructor; [exact Hs|].
      constructor; [exact E|].
      rewrite Forall_forall in *. intros z Hz. cbv beta in *.
      eapply fle_trans; [apply Hall, Hz | exact E].
    + apply fle_bool_total in E.
      constructor; [now apply IH|].
      rewrite Forall_forall in *. intros z Hz.
      apply (Permutation_in _ (Permutation_sym (insert_desc_real_perm x l))) in Hz.
      destruct Hz as [<-|Hz]; [exact E | now apply Hall].
Qed.

Lemma sort_desc_real_ok l : sql_order_by_desc_real key l (sort_desc_real key l).
Proof.
  unfold sql_order_by_desc_real, sort_desc_real.
  induction l as [|x l [IHp IHs]]; simpl.
  - split; constructor.
  - split.
    + eapply Permutation_trans; [|apply insert_desc_real_perm]. now constructor.
    + now apply insert_desc_real_sorted.
Qed.
End SortingReal.

(** The engine may take the rows of every group in table order. *)
Lemma alert_rows_table_order d y m :
  alert_rows d y m (alert_rows_in_table_order d y m).
Proof.
  unfold alert_rows, alert_rows_in_table_order.
  eexists. split; [|reflexivity].
  induction (alert_groups d y m) as [|g gs IH]; cbn [map]; constructor; [|exact IH].
  unfold alert_of. cbn [alert_category limit spent percentage].
  repeat split. exists (snd g). split; [apply Permutation_refl | reflexivity].
Qed.

Section Distinct.
Context {A : Type} (eqb : A -> A -> bool).
Hypothesis eqb_refl : forall x, eqb x x = true.
Hypothesis eqb_trans : forall x y z, eqb x y = true -> eqb y z = true -> eqb x z = true.

Lemma distinct_incl x l : In x (distinct eqb l) -> In x l.
Proof.
  revert x. induction l as [|y l IH]; simpl; [tauto|].
  intros x [->|H]; [now left|].
  apply filter_In in H. right. apply IH, H.
Qed.

Lemma distinct_cover x l :
  In x l -> exists x', In x' (distinct eqb l) /\ eqb x' x = true.
Proof.
  induction l as [|y l IH]; simpl; [tauto|].
  intros [->|H].
  - exists x. split; [now left | apply eqb_refl].
  - destruct (IH H) as [x' [Hin He]].
    destruct (eqb y x') eqn:Ey.
    + exists y. split; [now left | eapply eqb_trans; eauto].
    + exists x'. split; [|exact He].
      right. apply filter_In. split; [exact Hin | now rewrite Ey].
Qed.

Lemma distinct_first x l :
  forall y, In y (filter (fun y => negb (eqb x y)) l) -> eqb x y = false.
Proof.
  intros y H. apply filter_In in H. now apply negb_true_iff.
Qed.
End Distinct.

Lemma distinct_NoDup {A} (eqb : A -> A -> bool) l :
  (forall x, eqb x x = true) -> NoDup (distinct eqb l).
Proof.
  intros R. induction l as [|x l IH]; simpl; constructor.
  - intros H. apply filter_In in H. destruct H as [_ H].
    now rewrite R in H.
  - now apply NoDup_filter.
Qed.










End OrderFacts.

(* ------------------------------------------------------------------ *)
(** ** Budget alerts *)

Module AlertFacts.
Import PyStr PyFloat Py FinanceDatabase FinanceDatabaseFacts OrderFacts.

Lemma key_eqb_refl k : key_eqb k k = true.
Proof.
  unfold key_eqb. rewrite String.eqb_refl. apply Qeq_bool_iff. reflexivity.
Qed.

Lemma key_eqb_trans k1 k2 k3 :
  key_eqb k1 k2 = true -> key_eqb k2 k3 = true -> key_eqb k1 k3 = true.
Proof.
  unfold key_eqb. rewrite !andb_true_iff, !String.eqb_eq, !Qeq_bool_iff.
  intros [-> H1] [-> H2]. split; [reflexivity | now rewrite H1].
Qed.

Section Join.
Variable d : db.
Variables start_date end_date : string.
Hypothesis unique : unique_names d.

Lemma joined_with_none t cs :
  (forall c, In c cs -> name c <> category t) -> joined_with start_date end_date t cs = [].
Proof.
  induction cs as [|c cs IH]; intros H; [reflexivity|].
  unfold joined_with in *. simpl.
  destruct (String.eqb_spec (category t) (name c)) as [E|_].
  - exfalso. apply (H c); [now left | now symmetry].
  - simpl. apply IH. intros; apply H; now right.
Qed.

Lemma joined_with_in t cs r :
  In r (joined_with start_date end_date t cs) ->
  exists c, In c cs /\ name c = category t /\ type t = "expense" /\
            in_half_open start_date end_date (date t) = true /\
            (0 < budget_limit c)%Q /\
            r = ((name c, budget_limit c), amount t).
Proof.
  unfold joined_with. rewrite in_flat_map. intros [c [Hc Hr]].
  destruct (String.eqb (category t) (name c) && String.eqb (type t) "expense" &&
            in_half_open start_date end_date (date t) &&
            negb (Qle_bool (budget_limit c) 0%Q)) eqn:E; [|contradiction].
  destruct Hr as [<-|[]].
  rewrite !andb_true_iff, !String.eqb_eq, negb_true_iff in E.
  destruct E as [[[E1 E2] E3] E4].
  exists c. repeat split; auto.
  - apply Qnot_le_lt. intros L. apply Qle_bool_iff in L. congruence.
  - now rewrite E1.
Qed.

Lemma joined_with_unique t cs c0 :
  NoDup (map name cs) -> In c0 cs -> category t = name c0 ->
  joined_with start_date end_date t cs =
  if String.eqb (type t) "expense" &&
     in_half_open start_date end_date (date t) &&
     negb (Qle_bool (budget_limit c0) 0%Q)
  then [((name c0, budget_limit c0), amount t)]
  else [].
Proof.
  intros Hnd Hin Hcat. induction cs as [|c cs IH]; [contradiction|].
  inversion Hnd as [|? ? Hnotin Hnd']; subst.
  assert (Hsplit : joined_with start_date end_date t (c :: cs) =
                   (joined_with start_date end_date t [c] ++
                    joined_with start_date end_date t cs)%list).
  { unfold joined_with. simpl. now rewrite app_nil_r. }
  rewrite Hsplit.
  destruct Hin as [->|Hin].
  - rewrite (joined_with_none t cs).
    + unfold joined_with. simpl. rewrite Hcat, String.eqb_refl. simpl.
      rewrite app_nil_r. now destruct (_ && _ && _).
    + intros c Hc E. apply Hnotin. rewrite <- Hcat, <- E. now apply in_map.
  - rewrite (joined_with_none t [c]).
    + simpl. now apply IH.
    + intros c' [<-|[]] E. apply Hnotin. rewrite E, Hcat. now apply in_map.
Qed.

Lemma unique_category c c' :
  In c (categories d) -> In c' (categories d) -> name c = name c' -> c = c'.
Proof.
  unfold unique_names in unique. revert unique.
  induction (categories d) as [|x cs IH]; [contradiction|].
  intros Hnd. inversion Hnd as [|? ? Hnotin Hnd']; subst.
  intros [->|H1] [->|H2] E; auto.
  - exfalso. apply Hnotin. rewrite E. now apply in_map.
  - exfalso. apply Hnotin. rewrite <- E. now apply in_map.
Qed.

(** The sum of a group of the join is the spend of its category. *)
Lemma group_amounts c0 :
  In c0 (categories d) -> (0 < budget_limit c0)%Q ->
  map snd (filter (fun r => key_eqb (name c0, budget_limit c0) (fst r))
                  (joined_rows d start_date end_date)) =
  map amount
      (filter (fun t => String.eqb (category t) (name c0) &&
                        String.eqb (type t) "expense" &&
                        in_half_open start_date end_date (date t))
              (transactions d)).
Proof.
  intros Hin Hpos. unfold joined_rows.
  assert (Hl : negb (Qle_bool (budget_limit c0) 0%Q) = true).
  { apply negb_true_iff. destruct (Qle_bool (budget_limit c0) 0) eqn:E; [|reflexivity].
    apply Qle_bool_iff in E. exfalso. eapply Qlt_not_le; eauto. }
  induction (transactions d) as [|t ts IH]; [reflexivity|].
  simpl. rewrite filter_app, map_app, IH. clear IH.
  destruct (String.eqb_spec (category t) (name c0)) as [E|E].
  - rewrite (joined_with_unique t _ c0 unique Hin E), Hl, andb_true_r. simpl.
    destruct (String.eqb (type t) "expense" &&
              in_half_open start_date end_date (date t)); simpl; [|reflexivity].
    now rewrite key_eqb_refl.
  - simpl. replace (filter _ (joined_with start_date end_date t (categories d))) with
      (@nil (string * Q * Q)); [reflexivity|].
    symmetry. apply filter_none.
    destruct (existsb _ _) eqn:Ex; [|reflexivity].
    apply existsb_exists in Ex. destruct Ex as [r [Hr Hk]].
    apply joined_with_in in Hr. destruct Hr as [c (_ & Hn & _ & _ & _ & ->)].
    unfold key_eqb in Hk. simpl in Hk. apply andb_true_iff in Hk.
    destruct Hk as [Hk _]. apply String.eqb_eq in Hk. congruence.
Qed.

Lemma joined_key_in k :
  In k (map fst (joined_rows d start_date end_date)) <->
  exists t c, In t (transactions d) /\ In c (categories d) /\
              category t = name c /\ type t = "expense" /\
              in_half_open start_date end_date (date t) = true /\
              (0 < budget_limit c)%Q /\ k = (name c, budget_limit c).
Proof.
  unfold joined_rows. rewrite in_map_iff. split.
  - intros [r [<- Hr]]. apply in_flat_map in Hr. destruct Hr as [t [Ht Hr]].
    apply joined_with_in in Hr. destruct Hr as [c (Hc & Hn & Hty & Hd & Hl & ->)].
    exists t, c. repeat split; auto.
  - intros [t [c (Ht & Hc & Hn & Hty & Hd & Hl & ->)]].
    exists ((name c, budget_limit c), amount t). split; [reflexivity|].
    apply in_flat_map. exists t. split; [exact Ht|].
    rewrite (joined_with_unique t _ c unique Hc Hn), Hty, Hd. simpl.
    destruct (Qle_bool (budget_limit c) 0) eqn:E; simpl; [|now left].
    apply Qle_bool_iff in E. exfalso. eapply Qlt_not_le; eauto.
Qed.
End Join.

(** The groups of the alert query, category by category. *)
Lemma alert_groups_in d y m g :
  unique_names d ->
  (In g (alert_groups d y m) <->
   exists c, In c (categories d) /\ (0 < budget_limit c)%Q /\
             month_amounts d y m (name c) <> [] /\
             g = ((name c, budget_limit c), month_amounts d y m (name c))).
Proof.
  intros U. unfold alert_groups. rewrite in_map_iff. split.
  - intros [k [<- Hk]]. apply distinct_incl in Hk.
    pose proof Hk as Hk0.
    apply (joined_key_in d _ _ U) in Hk.
    destruct Hk as [t [c (Ht & Hc & Hn & Hty & Hd & Hl & ->)]].
    exists c. split; [exact Hc|]. split; [exact Hl|].
    rewrite (group_amounts d _ _ U c Hc Hl). fold (month_amounts d y m (name c)).
    split; [|reflexivity].
    unfold month_amounts. intros E. apply map_eq_nil in E.
    assert (Hin : In t (filter
                 (fun t => String.eqb (category t) (name c) &&
                           String.eqb (type t) "expense" &&
                           in_half_open (month_start y m) (month_end y m) (date t))
                 (transactions d))).
    { apply filter_In. split; [exact Ht|].
      rewrite !andb_true_iff, !String.eqb_eq. tauto. }
    rewrite E in Hin. exact Hin.
  - intros [c (Hc & Hl & Hne & ->)].
    assert (Hex : exists t, In t (transactions d) /\ category t = name c /\
                            type t = "expense" /\
                            in_half_open (month_start y m) (month_end y m) (date t) = true).
    { unfold month_amounts in Hne.
      destruct (filter _ (transactions d)) as [|t ts] eqn:F; [now elim Hne|].
      assert (Hin : In t (filter
                   (fun t => String.eqb (category t) (name c) &&
                             String.eqb (type t) "expense" &&
                             in_half_open (month_start y m) (month_end y m) (date t))
                   (transactions d))) by (rewrite F; now left).
      apply filter_In in Hin. destruct Hin as [Hin Hp].
      rewrite !andb_true_iff, !String.eqb_eq in Hp. exists t. tauto. }
    destruct Hex as [t (Ht & Hn & Hty & Hd)].
    assert (Hk : In (name c, budget_limit c)
                    (map fst (joined_rows d (month_start y m) (month_end y m)))).
    { apply (joined_key_in d _ _ U). exists t, c. repeat split; auto. }
    destruct (distinct_cover key_eqb key_eqb_refl key_eqb_trans _ _ Hk)
      as [k' [Hk' He]].
    assert (k' = (name c, budget_limit c)).
    { pose proof (distinct_incl _ _ _ Hk') as Hin'.
      apply (joined_key_in d _ _ U) in Hin'.
      destruct Hin' as [t' [c' (_ & Hc' & _ & _ & _ & _ & ->)]].
      unfold key_eqb in He. simpl in He. apply andb_true_iff in He.
      destruct He as [He _]. apply String.eqb_eq in He.
      now rewrite (unique_category d U c' c Hc' Hc He). }
    subst k'.
    exists (name c, budget_limit c). split; [|exact Hk'].
    now rewrite (group_amounts d _ _ U c Hc Hl).
Qed.

Lemma alert_groups_names d y m :
  unique_names d -> NoDup (map (fun g => fst (fst g)) (alert_groups d y m)).
Proof.
  intros U.
  assert (ND : NoDup (alert_groups d y m)).
  { unfold alert_groups. apply Finite.Injective_map_NoDup.
    - intros k1 k2 E. now inversion E.
    - apply distinct_NoDup, key_eqb_refl. }
  apply NoDup_map_NoDup_ForallPairs; [|exact ND].
  intros g1 g2 H1 H2 E.
  apply (alert_groups_in d y m g1 U) in H1. apply (alert_groups_in d y m g2 U) in H2.
  destruct H1 as [c1 (Hc1 & _ & _ & ->)]. destruct H2 as [c2 (Hc2 & _ & _ & ->)].
  simpl in E. now rewrite (unique_category d U c1 c2 Hc1 Hc2 E).
Qed.

(** *** Rows found for the groups *)

Lemma found_names gs : forall found,
  Forall2 alert_of gs found ->
  map alert_category found = map (fun g => fst (fst g)) gs.
Proof.
  induction gs as [|g gs IH]; intros found H; inversion H; subst; [reflexivity|].
  cbn [map]. f_equal; [|now apply IH].
  match goal with Ha : alert_of g _ |- _ => exact (proj1 Ha) end.
Qed.

Lemma found_of_group gs : forall found g,
  Forall2 alert_of gs found -> In g gs -> exists a, In a found /\ alert_of g a.
Proof.
  induction gs as [|g0 gs IH]; intros found g H Hin; [contradiction|].
  inversion H as [|? a ? found' Ha Hrest]; subst.
  destruct Hin as [->|Hin].
  - exists a. split; [now left | exact Ha].
  - destruct (IH found' g Hrest Hin) as [a' [Hin' Ha']].
    exists a'. split; [now right | exact Ha'].
Qed.

Lemma group_of_found gs : forall found a,
  Forall2 alert_of gs found -> In a found -> exists g, In g gs /\ alert_of g a.
Proof.
  induction gs as [|g0 gs IH]; intros found a H Hin; inversion H as [|? a0 ? found' Ha Hrest];
    subst; [contradiction|].
  destruct Hin as [->|Hin].
  - exists g0. split; [now left | exact Ha].
  - destruct (IH found' a Hrest Hin) as [g [Hg Hag]].
    exists g. split; [now right | exact Hag].
Qed.

Lemma NoDup_map_filter {A B} (f : A -> B) (p : A -> bool) l :
  NoDup (map f l) -> NoDup (map f (filter p l)).
Proof.
  induction l as [|x l IH]; intros H; [constructor|].
  cbn [map] in H. inversion H as [|? ? Hn Hd]; subst. cbn [filter].
  destruct (p x); [|now apply IH].
  cbn [map]. constructor; [|now apply IH].
  intros Hin. apply Hn. apply in_map_iff in Hin. destruct Hin as [z [E Hz]].
  apply filter_In in Hz. apply in_map_iff. exists z. tauto.
Qed.

Lemma same_name_same_row {A} (f : A -> string) l a b :
  NoDup (map f l) -> In a l -> In b l -> f a = f b -> a = b.
Proof.
  induction l as [|x l IH]; intros H Ha Hb E; [contradiction|].
  cbn [map] in H. inversion H as [|? ? Hn Hd]; subst.
  destruct Ha as [->|Ha], Hb as [->|Hb]; auto.
  - exfalso. apply Hn. rewrite E. now apply in_map.
  - exfalso. apply Hn. rewrite <- E. now apply in_map.
Qed.

Lemma alert_status_spec a :
  (alert_status a = EXCEEDED <-> fge (percentage a) (Fin 100) = true) /\
  (alert_status a = WARNING <-> fge (percentage a) (Fin 100) = false).
Proof.
  unfold alert_status.
  destruct (fge (percentage a) (Fin 100)); split; split; auto; discriminate.
Qed.

(** C1, as the code has it. In a store whose category names are
    unique, for every year and month, [check_budget_alerts] always has
    a result, and every result holds at most one alert for a name.
    An alert stands for a category, of whatever type, whose limit is
    above 0 and under whose name expense transactions are dated in the
    month; it carries the name, the sum the engine found for these
    transactions (their amounts added as doubles, in the order in
    which the engine took them), the limit, and the percentage
    spent / limit * 100 in doubles; and that sum passes the test
    spent >= limit * 0.8, taken in doubles.  Conversely such a category
    has its alert when the sum the engine found passes that test, and
    no alert when it does not.  A category whose limit is 0 has no
    alert.  The alert has no severity field: the callers derive
    EXCEEDED when the percentage is at least 100 and WARNING
    otherwise. *)
Theorem budget_alerts_exact d y m :
  unique_names d ->
  (exists alerts, check_budget_alerts d y m alerts) /\
  (forall alerts, check_budget_alerts d y m alerts ->
     NoDup (map alert_category alerts) /\
     (forall a, In a alerts ->
        exists c, In c (categories d) /\ name c = alert_category a /\
                  budget_limit c = limit a /\ (0 < limit a)%Q /\
                  month_amounts d y m (name c) <> [] /\
                  sql_sum (month_amounts d y m (name c)) (spent a) /\
                  having (spent a) (limit a) = true /\
                  percentage a = percentage_of (spent a) (limit a)) /\
     (forall c, In c (categories d) -> (0 < budget_limit c)%Q ->
        month_amounts d y m (name c) <> [] ->
        exists s, sql_sum (month_amounts d y m (name c)) s /\
          (having s (budget_limit c) = true ->
             In (mk_alert (name c) s (budget_limit c)
                          (percentage_of s (budget_limit c))) alerts) /\
          (having s (budget_limit c) = false ->
             forall a, In a alerts -> alert_category a <> name c)) /\
     (forall a c, In a alerts -> In c (categories d) ->
                  name c = alert_category a -> ~ (budget_limit c == 0)%Q) /\
     (forall a, In a alerts ->
        (alert_status a = EXCEEDED <-> fge (percentage a) (Fin 100) = true) /\
        (alert_status a = WARNING <-> fge (percentage a) (Fin 100) = false))).
Proof.
  intros U. split.
  - exists (sort_desc_real percentage (alert_rows_in_table_order d y m)).
    exists (alert_rows_in_table_order d y m).
    split; [apply alert_rows_table_order | apply sort_desc_real_ok].
  - intros alerts (rows & (found & HF & ->) & Hp & _).
    assert (Hin : forall a, In a alerts <->
                            In a (filter (fun a => having (spent a) (limit a)) found)).
    { intros a. split; apply Permutation_in; [now apply Permutation_sym | exact Hp]. }
    assert (NDf : NoDup (map alert_category found)).
    { rewrite (found_names _ _ HF). now apply alert_groups_names. }
    assert (Sound : forall a, In a alerts ->
              exists c, In c (categories d) /\ name c = alert_category a /\
                  budget_limit c = limit a /\ (0 < limit a)%Q /\
                  month_amounts d y m (name c) <> [] /\
                  sql_sum (month_amounts d y m (name c)) (spent a) /\
                  having (spent a) (limit a) = true /\
                  percentage a = percentage_of (spent a) (limit a)).
    { intros a Ha. apply Hin, filter_In in Ha. destruct Ha as [Ha Hh].
      destruct (group_of_found _ _ _ HF Ha) as [g [Hg (E1 & E2 & E3 & E4)]].
      apply (alert_groups_in d y m g U) in Hg.
      destruct Hg as [c (Hc & Hl & Hne & ->)]. cbn [fst snd] in *.
      rewrite E2 in *. exists c. repeat split; auto. }
    split; [|split; [exact Sound|split; [|split]]].
    + eapply Permutation_NoDup; [apply Permutation_map, Hp|].
      now apply NoDup_map_filter.
    + intros c Hc Hl Hne.
      assert (Hg : In ((name c, budget_limit c), month_amounts d y m (name c))
                      (alert_groups d y m)).
      { apply (alert_groups_in d y m _ U). exists c. auto. }
      destruct (found_of_group _ _ _ HF Hg) as [a [Ha (E1 & E2 & E3 & E4)]].
      cbn [fst snd] in *. exists (spent a). split; [exact E3|]. split.
      * intros Hh. apply Hin, filter_In.
        destruct a as [n sp l pc]. cbn [alert_category limit spent percentage] in *.
        subst n l pc. split; [exact Ha | exact Hh].
      * intros Hh a' Ha' En. apply Hin, filter_In in Ha'. destruct Ha' as [Ha' Hh'].
        assert (a' = a)
          by (apply (same_name_same_row alert_category found); auto; congruence).
        subst a'. rewrite E2 in Hh'. congruence.
    + intros a c Ha Hc Hn Hz. destruct (Sound a Ha) as [c' (Hc' & Hn' & El & Hl & _)].
      assert (c = c') by (apply (unique_category d U); auto; congruence). subst c'.
      rewrite <- El, Hz in Hl. discriminate Hl.
    + intros a _. apply alert_status_spec.
Qed.

Lemma salary_db_unique : unique_names salary_db.
Proof.
  unfold unique_names. simpl. repeat constructor; simpl; intuition discriminate.
Qed.

Lemma threshold_db_unique : unique_names threshold_db.
Proof.
  unfold unique_names. simpl. repeat constructor; simpl; intuition discriminate.
Qed.

(** The amount read from "2.4" under a limit of 3 raises no alert: in
    doubles 3 * 0.8 is 2.4000000000000004. *)
Lemma threshold_db_no_alert alerts :
  check_budget_alerts threshold_db 2024 5 alerts -> alerts = [].
Proof.
  intros (rows & (found & HF & ->) & Hp & _).
  change (alert_groups threshold_db 2024 5)
    with [(("Food & Dining", 3%Q), [5404319552844595 # 2251799813685248]%Q)] in HF.
  inversion HF as [|g a gs found' Ha Hrest]; subst. inversion Hrest; subst.
  destruct Ha as (_ & El & (visited & Pv & Es) & _). cbn [fst snd] in *.
  apply Permutation_length_1_inv in Pv. subst visited.
  cbn [filter] in Hp. rewrite Es, El in Hp. vm_compute in Hp.
  now apply Permutation_nil.
Qed.

Lemma budget_alerts_exact_witness :
  (exists alerts, check_budget_alerts salary_db 2024 5 alerts) /\
  (forall alerts, check_budget_alerts threshold_db 2024 5 alerts -> alerts = []).
Proof.
  split.
  - exact (proj1 (budget_alerts_exact salary_db 2024 5 salary_db_unique)).
  - intros alerts H.
    destruct (proj2 (budget_alerts_exact threshold_db 2024 5 threshold_db_unique)
                alerts H) as (_ & Sound & _).
    destruct alerts as [|a rest]; [reflexivity|]. exfalso.
    destruct (Sound a (or_introl eq_refl))
      as [c (Hc & _ & El & _ & _ & (visited & Hp & Es) & Hh & _)].
    destruct Hc as [<-|[]]. cbn [name budget_limit] in *.
    change (month_amounts threshold_db 2024 5 "Food & Dining")
      with [5404319552844595 # 2251799813685248]%Q in Hp.
    apply Permutation_length_1_inv in Hp. subst visited.
    rewrite Es, <- El in Hh. vm_compute in Hh. discriminate Hh.
Defined.

(** C1, as the specification states it, fails on a store where an
    expense was booked under the income category "Salary" and that
    category was given a limit: the alert list holds "Salary", which is
    not an expense category.  It fails as well at the threshold: an
    expense entered as "2.4" under an expense category of limit 3 is
    80% of the limit in decimal arithmetic, and raises no alert. *)
Lemma alert_for_an_income_category :
  unique_names salary_db /\
  In (mk_category "Salary" 100 "income") (categories salary_db) /\
  (forall c, In c (categories salary_db) -> name c = "Salary" ->
             cat_type c <> "expense") /\
  check_budget_alerts salary_db 2024 5
    [mk_alert "Salary" (Fin 90) 100 (Fin 90)] /\
  FloatOfString.float "2.4" = Ok (Fin (5404319552844595 # 2251799813685248)) /\
  (0.8 * 3 <= 2.4)%Q /\
  (forall alerts, check_budget_alerts threshold_db 2024 5 alerts -> alerts = []).
Proof.
  split; [apply salary_db_unique|]. split; [simpl; tauto|].
  split; [|split; [|split; [|split]]].
  - simpl. intros c [<-|[<-|[]]]; simpl; intros; discriminate.
  - exists (alert_rows_in_table_order salary_db 2024 5).
    split; [apply alert_rows_table_order|].
    assert (E : alert_rows_in_table_order salary_db 2024 5 =
                [mk_alert "Salary" (Fin 90) 100 (Fin 90)])
      by (vm_compute; reflexivity).
    rewrite E. split; [apply Permutation_refl | repeat constructor].
  - vm_compute. reflexivity.
  - unfold Qle. simpl. lia.
  - exact threshold_db_no_alert.
Qed.

End AlertFacts.

(* ------------------------------------------------------------------ *)
(** ** The importer *)

Module CSVImporterFacts.
Import PyStr PyFloat Py Categorizer Normalizer CSVImporter.

Lemma parse_rows_spec rows : forall transactions out,
  parse_rows rows transactions out =
  ((transactions ++ accepted rows)%list, (out ++ skipped rows)%list).
Proof.
  induction rows as [|r rows IH]; intros ts out; simpl.
  - now rewrite !app_nil_r.
  - unfold accepted, skipped in *. simpl.
    destruct (parse_row r) as [t|line]; rewrite IH; simpl;
      now rewrite <- ?app_assoc.
Qed.

Lemma parse_csv_spec rows : parse_csv rows = (accepted rows, skipped rows).
Proof. unfold parse_csv. now rewrite parse_rows_spec. Qed.





Lemma accepted_in rows r t :
  In r rows -> parse_row r = inl t -> In t (accepted rows).
Proof.
  intros Hr Ht. unfold accepted. apply in_flat_map. exists r.
  split; [exact Hr|]. rewrite Ht. now left.
Qed.

(** C10. A row of an import whose date parses and whose amount parses
    to exactly 0 is kept: it gives a transaction of type "expense" with
    amount 0, under the category [categorize] gives its description.
    In general the type is "income" only when the parsed amount is
    greater than 0. *)
Theorem zero_amount_is_an_expense :
  (forall rows r dt q,
      In r rows ->
      _parse_date (date_str r) = Ok dt ->
      _parse_amount (amount_str r) = Ok (Fin q) ->
      (q == 0)%Q ->
      exists t, parse_row r = inl t /\ In t (fst (parse_csv rows)) /\
                trans_type t = "expense" /\
                feq (amount t) (Fin 0) /\
                date t = dt /\ description t = row_description r /\
                category t = categorize default_category_keywords (row_description r)) /\
  (forall r dt a,
      _parse_date (date_str r) = Ok dt ->
      _parse_amount (amount_str r) = Ok a ->
      exists t, parse_row r = inl t /\
                trans_type t = (if gt0 a then "income" else "expense") /\
                amount t = fabs a).
Proof.
  split.
  - intros rows r dt q Hin Hd Ha Hq.
    assert (Hle : Qle_bool q 0 = true) by (apply Qle_bool_iff; rewrite Hq; apply Qle_refl).
    assert (Hneg : Qle_bool (- Qabs q) 0 = true).
    { apply Qle_bool_iff. rewrite Hq. discriminate. }
    eexists. split; [|split; [|split; [|split; [|split; [|split]]]]].
    + unfold parse_row. rewrite Hd, Ha. simpl gt0. rewrite Hle. simpl. reflexivity.
    + rewrite parse_csv_spec. simpl. apply (accepted_in rows r); [exact Hin|].
      unfold parse_row. rewrite Hd, Ha. simpl gt0. rewrite Hle. reflexivity.
    + reflexivity.
    + simpl. rewrite Hq. reflexivity.
    + reflexivity.
    + reflexivity.
    + simpl. unfold get_suggested_category. simpl gt0. rewrite Hneg. reflexivity.
  - intros r dt a Hd Ha. eexists. split.
    + unfold parse_row. rewrite Hd, Ha. reflexivity.
    + simpl. now destruct (gt0 a).
Qed.

Lemma zero_amount_is_an_expense_witness :
  exists t, parse_row free_row = inl t /\
            In t (fst (parse_csv [coffee_row; free_row])) /\
            trans_type t = "expense" /\ feq (amount t) (Fin 0).
Proof.
  destruct (proj1 zero_amount_is_an_expense [coffee_row; free_row] free_row
              "2024-03-01" 0%Q)
    as [t (H1 & H2 & H3 & H4 & _)].
  - simpl. tauto.
  - vm_compute. reflexivity.
  - vm_compute. reflexivity.
  - reflexivity.
  - exists t. auto.
Defined.

End CSVImporterFacts.

(* ------------------------------------------------------------------ *)
(** ** Doubles *)

Module Binary64Facts.
Import PyFloat Binary64.

Lemma value_opp m e : value true m e = (- value false m e)%Q.
Proof.
  unfold value. rewrite <- Qred_opp. f_equal.
  destruct e; unfold Qopp; cbn [Qnum Qden]; try reflexivity.
  now rewrite <- Z.mul_opp_l.
Qed.

Lemma to_pyfloat_opp mz ez lz :
  to_pyfloat (SpecFloat.binary_round_aux prec emax true mz ez lz) =
  fneg (to_pyfloat (SpecFloat.binary_round_aux prec emax false mz ez lz)).
Proof.
  unfold SpecFloat.binary_round_aux.
  destruct (SpecFloat.shr_fexp prec emax mz ez lz) as [mrs1 e1].
  destruct (SpecFloat.shr_fexp prec emax _ e1 SpecFloat.loc_Exact) as [mrs2 e2].
  destruct (SpecFloat.shr_m mrs2); [reflexivity| |reflexivity].
  destruct (e2 <=? emax - prec)%Z; [|reflexivity].
  cbn [to_pyfloat fneg]. now rewrite value_opp.
Qed.

(** Rounding is symmetric about 0. *)
Lemma round_opp q : round (- q) = fneg (round q).
Proof.
  destruct q as [n d]. unfold round. cbn [Qopp Qnum Qden].
  destruct n as [|n|n]; cbn [Z.opp]; [reflexivity| |].
  - unfold SpecFloat.SFdiv. cbn [xorb].
    destruct (SpecFloat.SFdiv_core_binary prec emax (Z.pos n) 0 (Z.pos d) 0)
      as [[mz ez] lz].
    apply to_pyfloat_opp.
  - unfold SpecFloat.SFdiv. cbn [xorb].
    destruct (SpecFloat.SFdiv_core_binary prec emax (Z.pos n) 0 (Z.pos d) 0)
      as [[mz ez] lz].
    rewrite to_pyfloat_opp.
    destruct (to_pyfloat (SpecFloat.binary_round_aux prec emax false mz ez lz))
      as [[a b]| | |]; cbn [fneg]; try reflexivity.
    unfold Qopp. cbn [Qnum Qden]. now rewrite Z.opp_involutive.
Qed.

End Binary64Facts.

(* ------------------------------------------------------------------ *)
(** ** Amounts *)

Module AmountFacts.
Import PyStr PyFloat Py FloatOfString Normalizer PyStrFacts.

Lemma parse_amount_steps raw :
  _parse_amount raw = float (parentheses_to_minus (remove_symbols (strip raw))).
Proof. reflexivity. Qed.

(** *** White space goes through every step *)

Lemma space_not o l :
  is_space o = false -> all_space l = true ->
  all_chars (fun c => negb (Ascii.eqb o c)) l = true.
Proof. intros Ho. now apply all_chars_not. Qed.

Lemma ascii_not o s :
  (code o <? 128) = false -> ascii_only s = true ->
  all_chars (fun c => negb (Ascii.eqb o c)) s = true.
Proof. intros Ho. now apply (all_chars_not (fun c => code c <? 128)). Qed.

Lemma replace1_pass c new l x r :
  is_space c = false -> all_space l = true -> all_space r = true ->
  replace (String c "") new (l ++ x ++ r) = l ++ replace (String c "") new x ++ r.
Proof.
  intros Hc Hl Hr. rewrite !replace1_app.
  rewrite (replace_absent c "" new l), (replace_absent c "" new r);
    [reflexivity | now apply space_not | now apply space_not].
Qed.

Lemma str_in1_pass c l x r :
  is_space c = false -> all_space l = true -> all_space r = true ->
  str_in (String c "") (l ++ x ++ r) = str_in (String c "") x.
Proof.
  intros Hc Hl Hr. rewrite !str_in1_app.
  rewrite (str_in1_absent c l), (str_in1_absent c r) by (now apply space_not).
  now rewrite orb_false_r.
Qed.

Lemma parentheses_pass l x r :
  all_space l = true -> all_space r = true ->
  parentheses_to_minus (l ++ x ++ r) = l ++ parentheses_to_minus x ++ r.
Proof.
  intros Hl Hr. unfold parentheses_to_minus.
  rewrite !str_in1_pass by (assumption || reflexivity).
  destruct (str_in "(" x && str_in ")" x); [|reflexivity].
  now rewrite !replace1_pass by (assumption || reflexivity).
Qed.

Lemma float_pass l x r :
  all_chars is_c_space l = true -> all_chars is_c_space r = true ->
  float (l ++ x ++ r) = float x.
Proof. intros Hl Hr. unfold float. now rewrite c_strip_spaces. Qed.

(** *** The symbols *)

Lemma remove_symbols_ascii s :
  ascii_only s = true ->
  remove_symbols s = replace "," "" (replace "$" "" s).
Proof.
  intros H. unfold remove_symbols.
  assert (H1 : ascii_only (replace "$" "" s) = true) by (now apply replace1_all_chars).
  rewrite (replace_absent _ _ "" (replace "$" "" s)) by (now apply ascii_not).
  now rewrite (replace_absent _ _ "" (replace "$" "" s)) by (now apply ascii_not).
Qed.

Lemma remove_symbols_pass l x r :
  ascii_only x = true -> all_space l = true -> all_space r = true ->
  remove_symbols (l ++ x ++ r) = l ++ remove_symbols x ++ r.
Proof.
  intros Hx Hl Hr.
  assert (A : forall w, all_space w = true -> ascii_only w = true).
  { intros w. apply all_chars_impl. intros c Hc.
    unfold is_space in Hc. apply Nat.ltb_lt.
    rewrite orb_true_iff, !andb_true_iff, !Nat.leb_le in Hc. lia. }
  rewrite !remove_symbols_ascii;
    [| assumption | unfold ascii_only; rewrite !all_chars_app;
                    fold ascii_only; now rewrite Hx, !A].
  now rewrite !replace1_pass by (assumption || reflexivity).
Qed.

Lemma plain_app a b : plain (a ++ b) = plain a && plain b.
Proof. apply all_chars_app. Qed.

Lemma plain_ascii s : plain s = true -> ascii_only s = true.
Proof.
  apply all_chars_impl. intros c Hc. unfold plain_char in Hc.
  apply andb_true_iff in Hc. tauto.
Qed.

(** On plain text, the steps after the first [strip] do not depend on
    the white space around the text. *)
Lemma steps_strip m :
  plain m = true ->
  float (parentheses_to_minus (remove_symbols (strip m))) =
  float (parentheses_to_minus (remove_symbols m)).
Proof.
  intros Hm. destruct (strip_split m) as [l [r (Hl & Hr & E)]].
  assert (Hp : plain l = true /\ plain (strip m) = true /\ plain r = true).
  { rewrite E in Hm. rewrite !plain_app in Hm.
    rewrite !andb_true_iff in Hm. tauto. }
  destruct Hp as (Pl & Ps & Pr).
  rewrite E at 2.
  rewrite remove_symbols_pass, parentheses_pass by (auto using plain_ascii).
  now rewrite float_pass by (now apply plain_spaces).
Qed.

Lemma ascii_only_app a b :
  ascii_only (a ++ b) = ascii_only a && ascii_only b.
Proof. apply all_chars_app. Qed.

Lemma remove_symbols_symbol a b sym :
  ascii_only a = true -> ascii_only b = true ->
  In sym ["$"; "€"; "£"; ","] ->
  remove_symbols (a ++ sym ++ b) = remove_symbols (a ++ b).
Proof.
  intros Ha Hb Hsym.
  assert (HA : ascii_only (replace "$" "" a) = true) by (now apply replace1_all_chars).
  assert (HB : ascii_only (replace "$" "" b) = true) by (now apply replace1_all_chars).
  assert (HAB : ascii_only (replace "$" "" a ++ replace "$" "" b) = true)
    by (now rewrite ascii_only_app, HA, HB).
  rewrite (remove_symbols_ascii (a ++ b)) by (now rewrite ascii_only_app, Ha, Hb).
  rewrite (replace1_app "$" "" a b).
  destruct Hsym as [<-|[<-|[<-|[<-|[]]]]]; unfold remove_symbols;
    rewrite (replace1_app "$" "" a), (replace1_app "$" "" _ b).
  - change (replace "$" "" "$") with "". cbn [append].
    now rewrite !(replace_absent _ _ "" (replace "$" "" a ++ replace "$" "" b))
      by (now apply ascii_not).
  - change (replace "$" "" "€") with "€".
    rewrite (replace_head _ _ "" (replace "$" "" a)) by (now apply ascii_not).
    rewrite replace_at_head. cbn [append].
    rewrite (replace_absent _ _ "" (replace "$" "" b)) by (now apply ascii_not).
    now rewrite (replace_absent _ _ "" (replace "$" "" a ++ replace "$" "" b))
      by (now apply ascii_not).
  - change (replace "$" "" "£") with "£".
    rewrite (replace_absent _ _ "" (replace "$" "" a ++ "£" ++ replace "$" "" b)).
    + rewrite (replace_head _ _ "" (replace "$" "" a)) by (now apply ascii_not).
      rewrite replace_at_head. cbn [append].
      now rewrite (replace_absent _ _ "" (replace "$" "" b)) by (now apply ascii_not).
    + rewrite !all_chars_app.
      rewrite (ascii_not _ (replace "$" "" a)), (ascii_not _ (replace "$" "" b));
        reflexivity || assumption.
  - change (replace "$" "" ",") with ",".
    assert (N : forall o, (code o <? 128) = false ->
                all_chars (fun c => negb (Ascii.eqb o c))
                  (replace "$" "" a ++ "," ++ replace "$" "" b) = true).
    { intros o Ho. rewrite !all_chars_app.
      rewrite (ascii_not o (replace "$" "" a)), (ascii_not o (replace "$" "" b))
        by assumption.
      cbn [all_chars]. rewrite !andb_true_r.
      apply negb_true_iff, Ascii.eqb_neq. intros ->. discriminate Ho. }
    rewrite (replace_absent _ _ "" (replace "$" "" a ++ "," ++ replace "$" "" b))
      by (apply N; reflexivity).
    rewrite (replace_absent _ _ "" (replace "$" "" a ++ "," ++ replace "$" "" b))
      by (apply N; reflexivity).
    rewrite !replace1_app. reflexivity.
Qed.

Lemma parse_amount_spaces l s r :
  all_space l = true -> all_space r = true ->
  _parse_amount (l ++ s ++ r) = _parse_amount s.
Proof. intros Hl Hr. rewrite !parse_amount_steps. now rewrite strip_spaces. Qed.

Lemma plain_lstrip a : plain a = true -> plain (lstrip a) = true.
Proof.
  intros H. destruct (lstrip_split a) as [l [_ E]]. rewrite E in H.
  rewrite plain_app in H. apply andb_true_iff in H. tauto.
Qed.

Lemma plain_rstrip b : plain b = true -> plain (rstrip b) = true.
Proof.
  intros H. destruct (rstrip_split b) as [r [_ E]]. rewrite E in H.
  rewrite plain_app in H. apply andb_true_iff in H. tauto.
Qed.

Lemma parse_amount_symbol a b sym :
  plain a = true -> plain b = true ->
  In sym ["$"; "€"; "£"; ","] ->
  _parse_amount (a ++ sym ++ b) = _parse_amount (a ++ b).
Proof.
  intros Ha Hb Hsym. rewrite !parse_amount_steps.
  rewrite strip_around;
    [| destruct Hsym as [<-|[<-|[<-|[<-|[]]]]]; reflexivity
     | destruct Hsym as [<-|[<-|[<-|[<-|[]]]]]; discriminate].
  rewrite remove_symbols_symbol
    by (assumption || (apply plain_ascii; now apply plain_lstrip)
        || (apply plain_ascii; now apply plain_rstrip)).
  rewrite <- steps_strip
    by (now rewrite plain_app, plain_lstrip, plain_rstrip).
  destruct (lstrip_split a) as [l [Hl El]].
  destruct (rstrip_split b) as [r [Hr Er]].
  assert (E : a ++ b = l ++ (lstrip a ++ rstrip b) ++ r).
  { rewrite El at 1. rewrite Er at 1. now rewrite !append_assoc. }
  rewrite E. now rewrite strip_spaces.
Qed.

(** *** Signs *)

Lemma drop_underscores_none s : forall prev,
  Ascii.eqb prev "_" = false ->
  all_chars (fun c => negb (Ascii.eqb c "_")) s = true ->
  drop_underscores prev s = Some s.
Proof.
  induction s as [|c s IH]; intros prev Hp H; cbn [drop_underscores].
  - now rewrite Hp.
  - cbn [all_chars] in H. apply andb_true_iff in H. destruct H as [Hc Hs].
    apply negb_true_iff in Hc. rewrite Hc, Hp. cbn [andb].
    now rewrite (IH c Hc Hs).
Qed.

(** What a character of an unsigned numeral can be. *)
Lemma digit_or_point c :
  (is_digit c || Ascii.eqb c ".") = true ->
  is_space c = false /\ Ascii.eqb c "_" = false /\
  (code c <? 128) = true /\
  Ascii.eqb (lower_ascii c) "i" = false /\ Ascii.eqb (lower_ascii c) "n" = false /\
  (forall t, take_sign (String c t) = (false, String c t)).
Proof.
  intros H. destruct c as [[] [] [] [] [] [] [] []];
    try (vm_compute in H; discriminate H); vm_compute; repeat split.
Qed.

Section Unsigned.
Variable x : string.
Hypothesis Hx : digits_and_points x = true.

Lemma unsigned_not o :
  (is_digit o || Ascii.eqb o ".") = false ->
  all_chars (fun c => negb (Ascii.eqb o c)) x = true.
Proof. intros Ho. now apply (all_chars_not (fun c : ascii => is_digit c || Ascii.eqb c ".")). Qed.

Lemma unsigned_no_space : all_chars (fun c => negb (is_space c)) x = true.
Proof.
  apply (all_chars_impl (fun c : ascii => is_digit c || Ascii.eqb c ".")); [|exact Hx]. intros c Hc.
  apply digit_or_point in Hc. apply negb_true_iff. tauto.
Qed.

Lemma unsigned_no_underscore :
  all_chars (fun c => negb (Ascii.eqb c "_")) x = true.
Proof.
  apply (all_chars_impl (fun c : ascii => is_digit c || Ascii.eqb c ".")); [|exact Hx]. intros c Hc.
  apply digit_or_point in Hc. apply negb_true_iff. tauto.
Qed.

Lemma unsigned_ascii : ascii_only x = true.
Proof.
  apply (all_chars_impl (fun c : ascii => is_digit c || Ascii.eqb c ".")); [|exact Hx]. intros c Hc.
  apply digit_or_point in Hc. tauto.
Qed.

Lemma unsigned_take_sign : take_sign x = (false, x).
Proof.
  destruct x as [|c t] eqn:E; [reflexivity|].
  unfold digits_and_points in Hx. cbn [all_chars] in Hx.
  apply andb_true_iff in Hx. destruct Hx as [Hc _].
  apply digit_or_point in Hc. apply Hc.
Qed.

Lemma unsigned_not_a_word : parse_inf_or_nan x = None /\ parse_inf_or_nan ("-" ++ x) = None.
Proof.
  unfold parse_inf_or_nan. rewrite unsigned_take_sign.
  assert (E3 : take_sign ("-" ++ x) = (true, x)) by reflexivity.
  rewrite E3. clear E3.
  destruct x as [|c t] eqn:E; [split; reflexivity|].
  unfold digits_and_points in Hx. cbn [all_chars] in Hx.
  apply andb_true_iff in Hx. destruct Hx as [Hc _].
  apply digit_or_point in Hc. destruct Hc as (_ & _ & _ & Hi & Hn & _).
  cbn [match_word]. now rewrite Hi, Hn.
Qed.

Lemma strtod_minus :
  strtod ("-" ++ x) =
  match strtod x with
  | Some (v, rest) => Some (fneg v, rest)
  | None => None
  end.
Proof.
  unfold strtod. destruct unsigned_not_a_word as [E1 E2]. rewrite E1, E2.
  rewrite unsigned_take_sign.
  assert (E3 : take_sign ("-" ++ x) = (true, x)) by reflexivity.
  rewrite E3.
  destruct (take_digits x) as [ip s2].
  destruct (match s2 with String "." r => take_digits r | _ => ([], s2) end)
    as [fp s3].
  destruct (ip ++ fp)%list; [reflexivity|].
  destruct (parse_exponent s3) as [e s4].
  now rewrite Binary64Facts.round_opp.
Qed.

Lemma float_minus :
  float ("-" ++ x) =
  match float x with Ok v => Ok (fneg v) | Raise e => Raise e end.
Proof.
  unfold float.
  rewrite (c_strip_no_space x) by apply unsigned_no_space.
  rewrite (c_strip_no_space ("-" ++ x))
    by (cbn [append all_chars]; now rewrite unsigned_no_space).
  rewrite (drop_underscores_none x) by (reflexivity || apply unsigned_no_underscore).
  rewrite (drop_underscores_none ("-" ++ x))
    by (reflexivity || (cbn [append all_chars]; now rewrite unsigned_no_underscore)).
  rewrite strtod_minus.
  destruct (strtod x) as [[v [|c rest]]|]; reflexivity.
Qed.

Lemma unsigned_is_its_remainder :
  parentheses_to_minus (remove_symbols (strip x)) = x.
Proof.
  rewrite (strip_no_space x) by apply unsigned_no_space.
  rewrite remove_symbols_ascii by apply unsigned_ascii.
  rewrite (replace_absent _ _ "" x) by (now apply unsigned_not).
  rewrite (replace_absent _ _ "" x) by (now apply unsigned_not).
  unfold parentheses_to_minus.
  now rewrite (str_in1_absent "(" x) by (now apply unsigned_not).
Qed.

Lemma parenthesised_remainder :
  parentheses_to_minus (remove_symbols (strip ("(" ++ x ++ ")"))) = "-" ++ x.
Proof.
  assert (Hs : strip ("(" ++ x ++ ")") = "(" ++ x ++ ")").
  { apply strip_no_space. cbn [append all_chars]. rewrite all_chars_app.
    now rewrite unsigned_no_space. }
  rewrite Hs.
  assert (Ha : ascii_only ("(" ++ x ++ ")") = true).
  { cbn [append]. unfold ascii_only. cbn [all_chars]. rewrite all_chars_app.
    fold ascii_only. now rewrite unsigned_ascii. }
  rewrite remove_symbols_ascii by exact Ha.
  assert (R : forall c, (is_digit c || Ascii.eqb c ".") = false ->
              Ascii.eqb c "(" = false -> Ascii.eqb c ")" = false ->
              replace (String c "") "" ("(" ++ x ++ ")") = "(" ++ x ++ ")").
  { intros c Hc H1 H2. rewrite !replace1_app.
    rewrite (replace_absent c "" "" x) by (now apply unsigned_not).
    unfold replace. cbn [replace_from String.length Nat.sub].
    rewrite !prefix_cons, H1, H2. reflexivity. }
  rewrite !R by reflexivity.
  unfold parentheses_to_minus. rewrite !str_in1_app.
  change (str_in "(" "(") with true. change (str_in ")" ")") with true.
  rewrite orb_true_r. cbn [orb andb].
  rewrite (replace1_app "(" "-"), (replace1_app "(" "-" x).
  rewrite (replace_absent "(" "" "-" x) by (now apply unsigned_not).
  change (replace "(" "-" "(") with "-". change (replace "(" "-" ")") with ")".
  rewrite (replace1_app ")" ""), (replace1_app ")" "" x).
  rewrite (replace_absent ")" "" "" x) by (now apply unsigned_not).
  change (replace ")" "" "-") with "-". change (replace ")" "" ")") with "".
  now rewrite append_nil_r.
Qed.

(** A parenthesised unsigned numeral is read as its negation. *)
Lemma parse_amount_parenthesised :
  _parse_amount ("(" ++ x ++ ")") =
  match _parse_amount x with Ok v => Ok (fneg v) | Raise e => Raise e end.
Proof.
  rewrite !parse_amount_steps.
  rewrite parenthesised_remainder, unsigned_is_its_remainder.
  apply float_minus.
Qed.
End Unsigned.

(** *** Decimal numerals are accepted *)

Lemma numeral_char_facts c :
  numeral_char c = true ->
  is_space c = false /\ Ascii.eqb c "_" = false.
Proof.
  intros H. destruct c as [[] [] [] [] [] [] [] []];
    try (vm_compute in H; discriminate H); vm_compute; repeat split.
Qed.

Lemma is_digit_numeral c : is_digit c = true -> numeral_char c = true.
Proof. unfold numeral_char. now intros ->. Qed.

Lemma take_digits_all s : forall ds,
  take_digits s = (ds, "") -> all_chars is_digit s = true.
Proof.
  induction s as [|c s IH]; intros ds H; [reflexivity|].
  cbn [take_digits] in H. cbn [all_chars].
  destruct (digit_val c) as [d|] eqn:Ed; [|discriminate H].
  assert (Hc : is_digit c = true) by (unfold is_digit; now rewrite Ed).
  destruct (take_digits s) as [ds' rest] eqn:E. inversion H; subst.
  now rewrite Hc, (IH ds').
Qed.

Lemma take_digits_point s : forall ds r,
  take_digits s = (ds, String "." r) ->
  exists pre, s = pre ++ String "." r /\ all_chars is_digit pre = true.
Proof.
  induction s as [|c s IH]; intros ds r H; [discriminate H|].
  cbn [take_digits] in H.
  destruct (digit_val c) as [d|] eqn:Ed.
  - destruct (take_digits s) as [ds' rest] eqn:E. inversion H; subst.
    destruct (IH ds' r eq_refl) as [pre [-> Hp]].
    exists (String c pre). split; [reflexivity|].
    assert (Hc : is_digit c = true) by (unfold is_digit; now rewrite Ed).
    cbn [all_chars]. now rewrite Hc, Hp.
  - inversion H; subst. exists "". auto.
Qed.

Lemma take_sign_body s :
  snd (take_sign s) =
  match s with String "-" r => r | String "+" r => r | _ => s end.
Proof. destruct s as [|[[] [] [] [] [] [] [] []] r]; reflexivity. Qed.

Lemma take_sign_chars s :
  all_chars numeral_char (snd (take_sign s)) = true -> all_chars numeral_char s = true.
Proof.
  destruct s as [|[[] [] [] [] [] [] [] []] r]; cbn [take_sign snd all_chars];
    try (intros ->; reflexivity); intros H; try exact H;
    apply andb_true_iff in H; destruct H as [Hc Hr]; rewrite Hr; exact Hc.
Qed.

Lemma word_not_numeral w body :
  (w = "inf" \/ w = "nan") ->
  (exists c t, body = String c t /\ (is_digit c || Ascii.eqb c ".") = true) ->
  match_word w body = None.
Proof.
  intros Hw [c [t [-> Hc]]]. apply digit_or_point in Hc.
  destruct Hc as (_ & _ & _ & Hi & Hn & _).
  destruct Hw as [->| ->]; cbn [match_word]; now rewrite ?Hi, ?Hn.
Qed.

Lemma decimal_accepted s :
  is_decimal_numeral s = true -> exists v, float s = Ok v.
Proof.
  unfold is_decimal_numeral. rewrite <- take_sign_body.
  destruct (take_sign s) as [negate body] eqn:Es. cbn [snd].
  destruct (take_digits body) as [ip rest] eqn:Ei.
  intros H.
  (* the shape of the body *)
  assert (Hshape :
    (rest = "" /\ ip <> [] /\ all_chars is_digit body = true) \/
    (exists r fp pre, rest = String "." r /\ take_digits r = (fp, "") /\
                      (ip ++ fp)%list <> [] /\ body = pre ++ String "." r /\
                      all_chars is_digit pre = true /\ all_chars is_digit r = true)).
  { destruct rest as [|c r].
    - left. split; [reflexivity|]. split.
      + intros ->. discriminate H.
      + now apply (take_digits_all body ip).
    - right. destruct (Ascii.eqb_spec c ".") as [->|N].
      + destruct (take_digits r) as [fp rest'] eqn:Ef.
        destruct rest'; [|discriminate H].
        destruct (take_digits_point body ip r Ei) as [pre [Eb Hp]].
        exists r, fp, pre. repeat split; auto.
        * intros E. apply app_eq_nil in E. destruct E as [-> ->]. discriminate H.
        * now apply (take_digits_all r fp).
      + exfalso. destruct c as [[] [] [] [] [] [] [] []];
          try discriminate H; now apply N. }
  assert (Hbody : all_chars numeral_char body = true).
  { destruct Hshape as [(_ & _ & Hd) | (r & fp & pre & _ & _ & _ & -> & Hp & Hr)].
    - revert Hd. apply all_chars_impl, is_digit_numeral.
    - rewrite all_chars_app. cbn [all_chars].
      rewrite (all_chars_impl _ _ pre is_digit_numeral Hp).
      now rewrite (all_chars_impl _ _ r is_digit_numeral Hr). }
  assert (Hs : all_chars numeral_char s = true).
  { apply take_sign_chars. now rewrite Es. }
  assert (Hhead : exists c t, body = String c t /\ (is_digit c || Ascii.eqb c ".") = true).
  { destruct Hshape as [(_ & Hn & Hd) | (r & fp & pre & _ & _ & _ & -> & Hp & _)].
    - destruct body as [|c t].
      + cbn in Ei. inversion Ei; subst. contradiction.
      + exists c, t. split; [reflexivity|]. cbn [all_chars] in Hd.
        apply andb_true_iff in Hd. destruct Hd as [-> _]. reflexivity.
    - destruct pre as [|c t].
      + exists "."%char, r. auto.
      + exists c, (t ++ String "." r). split; [reflexivity|]. cbn [all_chars] in Hp.
        apply andb_true_iff in Hp. destruct Hp as [-> _]. reflexivity. }
  unfold float.
  rewrite c_strip_no_space.
  2:{ revert Hs. apply all_chars_impl. intros c Hc.
      apply numeral_char_facts in Hc. apply negb_true_iff. tauto. }
  rewrite drop_underscores_none; [|reflexivity|].
  2:{ revert Hs. apply all_chars_impl. intros c Hc.
      apply numeral_char_facts in Hc. apply negb_true_iff. tauto. }
  unfold strtod, parse_inf_or_nan. rewrite Es.
  rewrite !word_not_numeral by (auto || assumption).
  rewrite Ei.
  destruct Hshape as [(-> & Hn & _) | (r & fp & pre & -> & Ef & Hn & _)].
  - rewrite app_nil_r. destruct ip as [|d ds]; [contradiction|].
    cbn [parse_exponent]. eauto.
  - rewrite Ef. destruct (ip ++ fp)%list as [|d ds]; [contradiction|].
    cbn [parse_exponent]. eauto.
Qed.

(** C7, as the code has it. [_parse_amount] reads, with [float], what
    is left of the text after it has stripped the white space around
    it, deleted every "$", "€", "£" and ",", and, when both "(" and ")"
    occur, put "-" for "(" and deleted ")".  So white space around the
    text, and a currency symbol or a comma anywhere in plain text, do
    not change the result; a parenthesised unsigned numeral is read as
    its negation; a remainder that is a decimal numeral is accepted;
    and the call fails exactly when [float] rejects the remainder.
    The value is a double: the one nearest to the number written, so
    "$1,234.56" is read as the double 1234.56 and "(45.00)" as -45,
    and a numeral beyond the range of doubles, such as 1 followed by
    400 zeros, is read as infinity.  [float] accepts more than decimal
    numerals: exponents, underscores between digits, "inf", "infinity"
    and "nan" are read, not rejected. *)
Theorem parse_amount_normalises :
  (forall raw,
      _parse_amount raw = float (parentheses_to_minus (remove_symbols (strip raw)))) /\
  (forall l s r, all_space l = true -> all_space r = true ->
      _parse_amount (l ++ s ++ r) = _parse_amount s) /\
  (forall a b sym, plain a = true -> plain b = true ->
      In sym ["$"; "€"; "£"; ","] ->
      _parse_amount (a ++ sym ++ b) = _parse_amount (a ++ b)) /\
  (forall x, digits_and_points x = true ->
      _parse_amount ("(" ++ x ++ ")") =
      match _parse_amount x with Ok v => Ok (fneg v) | Raise e => Raise e end) /\
  (forall raw,
      is_decimal_numeral (parentheses_to_minus (remove_symbols (strip raw))) = true ->
      exists v, _parse_amount raw = Ok v) /\
  (forall raw,
      _parse_amount raw = Raise ValueError <->
      float (parentheses_to_minus (remove_symbols (strip raw))) = Raise ValueError) /\
  (_parse_amount "$1,234.56" = Ok (Binary64.round 1234.56) /\
   Binary64.round 1234.56 = Fin (2714826150374277 # 2199023255552)) /\
  _parse_amount "(45.00)" = Ok (Fin (-45)) /\
  (is_decimal_numeral huge_numeral = true /\ _parse_amount huge_numeral = Ok PInf) /\
  (_parse_amount "abc" = Raise ValueError /\ _parse_amount "" = Raise ValueError /\
   _parse_amount "12.3.4" = Raise ValueError /\
   _parse_amount "(-45.00)" = Raise ValueError) /\
  (_parse_amount "1e3" = Ok (Fin 1000) /\
   _parse_amount "1_000" = Ok (Fin 1000) /\
   _parse_amount "inf" = Ok PInf /\ _parse_amount "-Infinity" = Ok NInf /\
   _parse_amount "nan" = Ok NaN).
Proof.
  split; [exact parse_amount_steps|].
  split; [exact parse_amount_spaces|].
  split; [exact parse_amount_symbol|].
  split; [exact parse_amount_parenthesised|].
  split; [intros raw H; rewrite parse_amount_steps; now apply decimal_accepted|].
  split; [intros raw; now rewrite parse_amount_steps|].
  repeat split; vm_compute; reflexivity.
Qed.

Lemma parse_amount_normalises_witness :
  _parse_amount (" " ++ "$5" ++ " ") = _parse_amount "$5" /\
  _parse_amount ("1" ++ "," ++ "234") = _parse_amount ("1" ++ "234") /\
  _parse_amount ("(" ++ "45.00" ++ ")") =
    match _parse_amount "45.00" with Ok v => Ok (fneg v) | Raise e => Raise e end /\
  (exists v, _parse_amount "£7.25" = Ok v).
Proof.
  destruct parse_amount_normalises as (_ & Hw & Hs & Hp & Hd & _).
  split; [apply (Hw " " "$5" " "); reflexivity|].
  split; [apply (Hs "1" "234" ","); [reflexivity | reflexivity | simpl; tauto]|].
  split; [apply (Hp "45.00"); reflexivity|].
  apply (Hd "£7.25"). vm_compute. reflexivity.
Defined.

(** C7, as the specification states it, fails on "nan" and "inf": what
    is left of them is not a decimal numeral, and [_parse_amount]
    returns a value instead of failing. *)
Lemma not_a_number_is_accepted :
  is_decimal_numeral (parentheses_to_minus (remove_symbols (strip "nan"))) = false /\
  _parse_amount "nan" = Ok NaN /\
  is_decimal_numeral (parentheses_to_minus (remove_symbols (strip "inf"))) = false /\
  _parse_amount "inf" = Ok PInf.
Proof. repeat split; vm_compute; reflexivity. Qed.

End AmountFacts.

(* ------------------------------------------------------------------ *)
(** ** Parsing dates *)

Module ParseDateFacts.
Import PyStr Py DateTime Normalizer PyStrFacts DateTimeFacts.

(** *** The loop over the formats *)

Lemma try_formats_ok formats s c :
  try_formats formats s = Ok c <->
  exists before fmt after dt,
    formats = (before ++ fmt :: after)%list /\
    (forall f, In f before -> strptime s f = Raise ValueError) /\
    strptime s fmt = Ok dt /\ c = strftime_iso dt.
Proof.
  induction formats as [|f fs IH]; cbn [try_formats].
  - split; [discriminate|]. intros (b & ? & ? & ? & E & _). now destruct b.
  - destruct (strptime s f) as [dt|[]] eqn:E.
    + split.
      * intros H. inversion H; subst. exists [], f, fs, dt. cbn. tauto.
      * intros (b & g & a & dt' & Ef & Hb & Hg & ->).
        destruct b as [|f' b]; cbn in Ef; inversion Ef; subst.
        -- congruence.
        -- rewrite (Hb f' (or_introl eq_refl)) in E. discriminate.
    + rewrite IH. split.
      * intros (b & g & a & dt' & -> & Hb & Hg & ->).
        exists (f :: b), g, a, dt'. repeat split; auto.
        intros f' [<-|Hf]; auto.
      * intros (b & g & a & dt' & Ef & Hb & Hg & ->).
        destruct b as [|f' b]; cbn in Ef; inversion Ef; subst.
        -- congruence.
        -- exists b, g, a, dt'. repeat split; auto. intros; apply Hb; now right.
Qed.

Lemma try_formats_raise formats s :
  try_formats formats s = Raise ValueError <->
  forall f, In f formats -> strptime s f = Raise ValueError.
Proof.
  induction formats as [|f fs IH]; cbn [try_formats].
  - split; [intros _ f []|reflexivity].
  - destruct (strptime s f) as [dt|[]] eqn:E.
    + split; [discriminate|]. intros H.
      rewrite (H f (or_introl eq_refl)) in E. discriminate.
    + rewrite IH. split.
      * intros H f' [<-|Hf]; auto.
      * intros H f' Hf. apply H. now right.
Qed.

Lemma parse_date_spaces l s r :
  all_space l = true -> all_space r = true ->
  _parse_date (l ++ s ++ r) = _parse_date s.
Proof. intros Hl Hr. unfold _parse_date. now rewrite strip_spaces. Qed.

(** *** One step of the matcher *)

Lemma first_some_map {A B C} (g : A -> B) (f : B -> option C) l :
  first_some f (map g l) = first_some (fun x => f (g x)) l.
Proof. induction l as [|x l IH]; cbn; [reflexivity|]. now rewrite IH. Qed.

Lemma first_some_none {A B} (f : A -> option B) l :
  (forall x, In x l -> f x = None) -> first_some f l = None.
Proof.
  induction l as [|x l IH]; cbn; [reflexivity|]. intros H.
  rewrite (H x (or_introl eq_refl)). apply IH. intros; apply H; now right.
Qed.

Lemma step_lit_ok c fmt r acc :
  regex_match (lit c :: fmt) (String c r) acc = regex_match fmt r acc.
Proof.
  cbn [regex_match candidates]. rewrite Ascii.eqb_refl. cbn [first_some fst snd].
  now destruct (regex_match fmt r acc).
Qed.

Lemma step_lit_bad c c' fmt r acc :
  Ascii.eqb c c' = false -> regex_match (lit c :: fmt) (String c' r) acc = None.
Proof. intros H. cbn [regex_match candidates]. now rewrite H. Qed.

Lemma step_spaces c fmt r acc :
  is_space c = false ->
  regex_match (spaces :: fmt) (String " " (String c r)) acc =
  regex_match fmt (String c r) acc.
Proof.
  intros H. cbn [regex_match candidates re_spaces].
  change (is_space " ") with true. cbn iota. rewrite H.
  cbn [app map first_some fst snd].
  now destruct (regex_match fmt (String c r) acc).
Qed.

Lemma first_some_ext {A B} (f g : A -> option B) l :
  (forall x, f x = g x) -> first_some f l = first_some g l.
Proof. intros H. induction l as [|x l IH]; cbn; [reflexivity|]. now rewrite H, IH. Qed.

Lemma first_some_one {A B} (f : A -> option B) x : first_some f [x] = f x.
Proof. cbn. now destruct (f x). Qed.

Lemma regex_match_dY fmt s acc :
  regex_match (dY :: fmt) s acc =
  first_some (fun p => regex_match fmt (snd p) (set_year (fst p) acc)) (re_Y s).
Proof.
  cbn [regex_match candidates]. rewrite first_some_map.
  apply first_some_ext. now intros [v r].
Qed.

Lemma regex_match_dm fmt s acc :
  regex_match (dm :: fmt) s acc =
  first_some (fun p => regex_match fmt (snd p) (set_month (fst p) acc)) (re_m s).
Proof.
  cbn [regex_match candidates]. rewrite first_some_map.
  apply first_some_ext. now intros [v r].
Qed.

Lemma regex_match_dd fmt s acc :
  regex_match (dd :: fmt) s acc =
  first_some (fun p => regex_match fmt (snd p) (set_day (fst p) acc)) (re_d s).
Proof.
  cbn [regex_match candidates]. rewrite first_some_map.
  apply first_some_ext. now intros [v r].
Qed.

Lemma regex_match_names d names fmt s acc :
  (d = db /\ names = month_abbr) \/ (d = dB /\ names = month_name) ->
  regex_match (d :: fmt) s acc =
  first_some (fun p => regex_match fmt (snd p) (set_month (fst p) acc))
             (re_names names s).
Proof.
  intros [[-> ->]|[-> ->]]; cbn [regex_match candidates]; rewrite first_some_map;
    apply first_some_ext; now intros [v r].
Qed.

(** *** Digits *)

Lemma digit_val_char k : k < 10 -> digit_val (digit_char k) = Some k.
Proof. intros H. do 10 (destruct k as [|k]; [reflexivity|]). lia. Qed.

Lemma is_digit_char k : k < 10 -> is_digit (digit_char k) = true.
Proof. intros H. unfold is_digit. now rewrite digit_val_char. Qed.

Lemma not_digit_neq c c' :
  is_digit c = false -> is_digit c' = true -> Ascii.eqb c c' = false.
Proof.
  intros H H'. apply Ascii.eqb_neq. intros ->. congruence.
Qed.

Lemma digit_not_space c : is_digit c = true -> is_space c = false.
Proof.
  destruct c as [[] [] [] [] [] [] [] []]; intros H;
    try (vm_compute in H; discriminate H); reflexivity.
Qed.

Lemma re_Y_render y r : y < 100 * 100 -> re_Y (render4 y ++ r) = [(y, r)].
Proof.
  intros H. rewrite render4_app, !render2_app. unfold re_Y.
  assert (y / 100 < 100) by (apply Nat.Div0.div_lt_upper_bound; lia).
  assert (y mod 100 < 100) by (apply Nat.mod_upper_bound; lia).
  rewrite !digit_val_char
    by (first [apply Nat.Div0.div_lt_upper_bound; lia | apply Nat.mod_upper_bound; lia]).
  repeat f_equal.
  pose proof (Nat.div_mod_eq y 100). pose proof (Nat.div_mod_eq (y / 100) 10).
  pose proof (Nat.div_mod_eq (y mod 100) 10). lia.
Qed.

Lemma step_Y y fmt r acc :
  y < 100 * 100 ->
  regex_match (dY :: fmt) (render4 y ++ r) acc = regex_match fmt r (set_year y acc).
Proof.
  intros H. rewrite regex_match_dY, re_Y_render by assumption.
  now rewrite first_some_one.
Qed.

Lemma step_Y_end y acc :
  y < 100 * 100 -> regex_match [dY] (render4 y) acc = Some (set_year y acc, "").
Proof.
  intros H. rewrite <- (append_nil_r (render4 y)). now rewrite step_Y.
Qed.

Ltac compute_candidates f :=
  match goal with
  | |- context [f ?s] => let t := eval vm_compute in (f s) in change (f s) with t
  end.

Ltac finish_step c :=
  cbn [first_some fst snd];
  rewrite ?step_lit_ok;
  rewrite ?(step_lit_bad c) by (apply not_digit_neq; [assumption | reflexivity]);
  repeat match goal with
         | |- context [match ?x with Some _ => _ | None => _ end] => destruct x
         end;
  reflexivity.

Lemma step_m_lit m c fmt r acc :
  1 <= m <= 12 -> is_digit c = false ->
  regex_match (dm :: lit c :: fmt) (render2 m ++ String c r) acc =
  regex_match fmt r (set_month m acc).
Proof.
  intros Hm Hc. rewrite regex_match_dm.
  destruct m as [|m]; [lia|].
  do 12 (destruct m as [|m]; [compute_candidates re_m; finish_step c|]). lia.
Qed.

Lemma step_d_lit d c fmt r acc :
  1 <= d <= 31 -> is_digit c = false ->
  regex_match (dd :: lit c :: fmt) (render2 d ++ String c r) acc =
  regex_match fmt r (set_day d acc).
Proof.
  intros Hd Hc. rewrite regex_match_dd.
  destruct d as [|d]; [lia|].
  do 31 (destruct d as [|d]; [compute_candidates re_d; finish_step c|]). lia.
Qed.

Lemma step_d_end d acc :
  1 <= d <= 31 -> regex_match [dd] (render2 d) acc = Some (set_day d acc, "").
Proof.
  intros Hd. rewrite regex_match_dd.
  destruct d as [|d]; [lia|].
  do 31 (destruct d as [|d]; [reflexivity|]). lia.
Qed.

(** *** Ways a directive cannot match *)

Lemma regex_match_no_candidate f fmt d s acc :
  candidates d s acc = [] -> regex_match (d :: fmt) s acc = f -> f = None.
Proof. intros E <-. cbn [regex_match]. now rewrite E. Qed.

Lemma re_Y_first c1 r : digit_val c1 = None -> re_Y (String c1 r) = [].
Proof.
  intros H. destruct r as [|c2 [|c3 [|c4 r]]]; cbn [re_Y]; now rewrite ?H.
Qed.

Lemma re_Y_third c1 c2 c3 r :
  digit_val c3 = None -> re_Y (String c1 (String c2 (String c3 r))) = [].
Proof.
  intros H. destruct r as [|c4 r]; cbn [re_Y]; [reflexivity|].
  rewrite H. now destruct (digit_val c1), (digit_val c2).
Qed.

Lemma alt2_rest ok s v r :
  In (v, r) (alt2 ok s) -> exists c1 c2, s = String c1 (String c2 r).
Proof.
  destruct s as [|c1 [|c2 t]]; cbn [alt2]; try contradiction.
  destruct (digit_val c1), (digit_val c2); try contradiction.
  destruct (ok n n0); [|contradiction]. intros [E|[]]. inversion E; subst. eauto.
Qed.

Lemma alt1_rest ok s v r : In (v, r) (alt1 ok s) -> exists c1, s = String c1 r.
Proof.
  destruct s as [|c1 t]; cbn [alt1]; try contradiction.
  destruct (digit_val c1); try contradiction.
  destruct (ok n); [|contradiction]. intros [E|[]]. inversion E; subst. eauto.
Qed.

Lemma alt_sp1_rest ok s v r :
  In (v, r) (alt_sp1 ok s) -> exists c1 c2, s = String c1 (String c2 r).
Proof.
  destruct s as [|c1 t]; cbn [alt_sp1]; try contradiction.
  destruct c1 as [[] [] [] [] [] [] [] []]; try contradiction.
  intros H. apply alt1_rest in H. destruct H as [c2 ->]. eauto.
Qed.

Lemma re_m_rest c1 c2 c3 t v r :
  In (v, r) (re_m (String c1 (String c2 (String c3 t)))) ->
  r = String c2 (String c3 t) \/ r = String c3 t.
Proof.
  unfold re_m. rewrite !in_app_iff. intros [H|[H|H]].
  - apply alt2_rest in H. destruct H as (? & ? & E). inversion E. now right.
  - apply alt2_rest in H. destruct H as (? & ? & E). inversion E. now right.
  - apply alt1_rest in H. destruct H as (? & E). inversion E. now left.
Qed.

Lemma re_d_rest c1 c2 c3 t v r :
  In (v, r) (re_d (String c1 (String c2 (String c3 t)))) ->
  r = String c2 (String c3 t) \/ r = String c3 t.
Proof.
  unfold re_d. rewrite !in_app_iff. intros [H|[H|[H|[H|H]]]].
  - apply alt2_rest in H. destruct H as (? & ? & E). inversion E. now right.
  - apply alt2_rest in H. destruct H as (? & ? & E). inversion E. now right.
  - apply alt2_rest in H. destruct H as (? & ? & E). inversion E. now right.
  - apply alt1_rest in H. destruct H as (? & E). inversion E. now left.
  - apply alt_sp1_rest in H. destruct H as (? & ? & E). inversion E. now right.
Qed.

(** After one or two characters comes a character that is not the
    separator of the format. *)
Lemma no_m_lit c c1 c2 c3 t fmt acc :
  Ascii.eqb c c2 = false -> Ascii.eqb c c3 = false ->
  regex_match (dm :: lit c :: fmt) (String c1 (String c2 (String c3 t))) acc = None.
Proof.
  intros H2 H3. rewrite regex_match_dm. apply first_some_none.
  intros [v r] H. cbn [fst snd].
  apply re_m_rest in H. destruct H as [-> | ->]; now apply step_lit_bad.
Qed.

Lemma no_d_lit c c1 c2 c3 t fmt acc :
  Ascii.eqb c c2 = false -> Ascii.eqb c c3 = false ->
  regex_match (dd :: lit c :: fmt) (String c1 (String c2 (String c3 t))) acc = None.
Proof.
  intros H2 H3. rewrite regex_match_dd. apply first_some_none.
  intros [v r] H. cbn [fst snd].
  apply re_d_rest in H. destruct H as [-> | ->]; now apply step_lit_bad.
Qed.

Lemma re_m_first c1 r : digit_val c1 = None -> re_m (String c1 r) = [].
Proof.
  intros H. unfold re_m. destruct r as [|c2 r]; cbn [alt2 alt1]; now rewrite ?H.
Qed.

Lemma re_d_first c1 r :
  digit_val c1 = None -> Ascii.eqb c1 " " = false -> re_d (String c1 r) = [].
Proof.
  intros H Hs. unfold re_d.
  assert (E : alt_sp1 (fun a => 1 <=? a) (String c1 r) = []).
  { destruct c1 as [[] [] [] [] [] [] [] []]; try reflexivity. discriminate Hs. }
  rewrite E. destruct r as [|c2 r]; cbn [alt2 alt1]; now rewrite ?H.
Qed.

(** A day above 12 is not a month. *)
Lemma no_m_over12 d c fmt r acc :
  13 <= d <= 31 -> is_digit c = false ->
  regex_match (dm :: lit c :: fmt) (render2 d ++ String c r) acc = None.
Proof.
  intros Hd Hc. rewrite regex_match_dm.
  do 13 (destruct d as [|d]; [lia|]).
  do 19 (destruct d as [|d]; [compute_candidates re_m; finish_step c|]). lia.
Qed.

(** *** Month names *)

Lemma step_abbr m fmt r acc :
  1 <= m <= 12 ->
  regex_match (db :: fmt) (nth (m - 1) abbr_names "" ++ String " " r) acc =
  regex_match fmt (String " " r) (set_month m acc).
Proof.
  intros Hm. rewrite (regex_match_names db month_abbr) by auto.
  destruct m as [|m]; [lia|].
  do 12 (destruct m as [|m];
         [compute_candidates (re_names month_abbr); now rewrite first_some_one|]).
  lia.
Qed.

Lemma step_full m fmt r acc :
  1 <= m <= 12 ->
  regex_match (dB :: fmt) (nth (m - 1) full_names "" ++ String " " r) acc =
  regex_match fmt (String " " r) (set_month m acc).
Proof.
  intros Hm. rewrite (regex_match_names dB month_name) by auto.
  destruct m as [|m]; [lia|].
  do 12 (destruct m as [|m];
         [compute_candidates (re_names month_name); now rewrite first_some_one|]).
  lia.
Qed.

(** The abbreviated names do not match a full name followed by a
    space, May apart. *)
Lemma no_abbr_on_full m fmt r acc :
  1 <= m <= 12 -> m <> 5 ->
  regex_match (db :: spaces :: fmt) (nth (m - 1) full_names "" ++ String " " r) acc = None.
Proof.
  intros Hm H5. rewrite (regex_match_names db month_abbr) by auto.
  destruct m as [|m]; [lia|].
  do 12 (destruct m as [|m];
         [try (exfalso; apply H5; reflexivity);
          compute_candidates (re_names month_abbr); reflexivity|]).
  lia.
Qed.

Lemma name_head m names :
  1 <= m <= 12 -> names = abbr_names \/ names = full_names ->
  exists c t, nth (m - 1) names "" = String c t /\
              digit_val c = None /\ Ascii.eqb c " " = false /\ is_space c = false.
Proof.
  intros Hm Hn. destruct m as [|m]; [lia|].
  do 12 (destruct m as [|m];
         [destruct Hn as [-> | ->]; cbn; eexists; eexists; repeat split|]).
  lia.
Qed.

(** *** [strip] leaves a rendered date alone *)

Lemma render2_head n s :
  n < 100 ->
  exists c t, render2 n ++ s = String c t /\ is_digit c = true.
Proof.
  intros H. rewrite render2_app. eexists; eexists. split; [reflexivity|].
  apply is_digit_char, Nat.Div0.div_lt_upper_bound. lia.
Qed.

Lemma render4_head y s :
  y < 100 * 100 ->
  exists c t, render4 y ++ s = String c t /\ is_digit c = true.
Proof.
  intros H. rewrite render4_app. apply render2_head.
  apply Nat.Div0.div_lt_upper_bound. lia.
Qed.

Lemma rstrip_render2 x n : n < 100 -> rstrip (x ++ render2 n) = x ++ render2 n.
Proof.
  intros H.
  assert (E : rstrip (render2 n) = render2 n).
  { unfold render2. cbn [rstrip].
    rewrite (digit_not_space (digit_char (n mod 10)))
      by (apply is_digit_char, Nat.mod_upper_bound; lia).
    reflexivity. }
  rewrite rstrip_app_nonempty; rewrite E; [reflexivity | discriminate].
Qed.

Lemma rstrip_render4 x y : y < 100 * 100 -> rstrip (x ++ render4 y) = x ++ render4 y.
Proof.
  intros H. unfold render4. rewrite <- append_assoc.
  apply rstrip_render2, Nat.mod_upper_bound. lia.
Qed.

Lemma strip_from_head c t :
  is_space c = false -> rstrip (String c t) = String c t ->
  strip (String c t) = String c t.
Proof. intros Hc Hr. unfold strip. cbn [lstrip]. now rewrite Hc. Qed.

Lemma strptime_none s f :
  regex_match f s (mk_datetime 1900 1 1) = None -> strptime s f = Raise ValueError.
Proof. intros H. unfold strptime. now rewrite H. Qed.

Lemma strptime_some s f dt :
  regex_match f s (mk_datetime 1900 1 1) = Some (dt, "") -> valid_date dt = true ->
  strptime s f = Ok dt.
Proof. intros H Hv. unfold strptime. now rewrite H, Hv. Qed.

Lemma not_digit_val c : is_digit c = false -> digit_val c = None.
Proof. unfold is_digit. now destruct (digit_val c). Qed.

Lemma days_in_month_ge y k : 28 <= days_in_month y k.
Proof.
  unfold days_in_month.
  do 12 (destruct k as [|k]; [try destruct (is_leap y); lia|]). lia.
Qed.

(** *** Rendered dates, format by format *)

Section Rendered.
Variables y m d : nat.
Hypothesis Hv : valid_date (mk_datetime y m d) = true.


Lemma rendered_bounds : 1 <= y < 100 * 100 /\ 1 <= m <= 12 /\ 1 <= d <= 31.
Proof.
  pose proof (valid_date_bounds _ Hv) as H.
  cbn [DateTime.year DateTime.month DateTime.day] in H. lia.
Qed.

Variables c c' : ascii.
Hypothesis Hc : is_digit c = false.
Hypothesis Hc' : is_digit c' = false.

Lemma match_ymd :
  regex_match [dY; lit c; dm; lit c; dd] (ymd y m d c) (mk_datetime 1900 1 1) = Some (mk_datetime y m d, "").
Proof.
  destruct rendered_bounds as (Hy & Hm & Hd). unfold ymd.
  rewrite step_Y, step_lit_ok, step_m_lit by (assumption || lia).
  now rewrite step_d_end.
Qed.

Lemma match_mdy :
  regex_match [dm; lit c; dd; lit c; dY] (mdy y m d c) (mk_datetime 1900 1 1) = Some (mk_datetime y m d, "").
Proof.
  destruct rendered_bounds as (Hy & Hm & Hd). unfold mdy.
  rewrite step_m_lit, step_d_lit by (assumption || lia).
  now rewrite step_Y_end by lia.
Qed.

Lemma match_dmy :
  regex_match [dd; lit c; dm; lit c; dY] (dmy y m d c) (mk_datetime 1900 1 1) = Some (mk_datetime y m d, "").
Proof.
  destruct rendered_bounds as (Hy & Hm & Hd). unfold dmy.
  rewrite step_d_lit, step_m_lit by (assumption || lia).
  now rewrite step_Y_end by lia.
Qed.

(** Day first, read month first. *)
Lemma match_mdy_on_dmy :
  regex_match [dm; lit c; dd; lit c; dY] (dmy y m d c) (mk_datetime 1900 1 1) =
  if d <=? 12 then Some (mk_datetime y d m, "") else None.
Proof.
  destruct rendered_bounds as (Hy & Hm & Hd). unfold dmy.
  destruct (Nat.leb_spec d 12).
  - rewrite step_m_lit, step_d_lit by (assumption || lia).
    now rewrite step_Y_end by lia.
  - apply no_m_over12; [lia | assumption].
Qed.

Lemma swapped_valid : d <= 12 -> valid_date (mk_datetime y d m) = true.
Proof.
  intros H. destruct rendered_bounds as (Hy & Hm & Hd).
  unfold valid_date. cbn [DateTime.year DateTime.month DateTime.day].
  rewrite MAXYEAR_eq, !andb_true_iff, !Nat.leb_le.
  pose proof (days_in_month_ge y d). lia.
Qed.

(** The year cannot be read where a separator comes third. *)
Lemma no_year_first s1 fmt a :
  a < 100 ->
  regex_match (dY :: fmt) (render2 a ++ String c s1) (mk_datetime 1900 1 1) = None.
Proof.
  intros Ha. rewrite render2_app, regex_match_dY.
  now rewrite re_Y_third by (now apply not_digit_val).
Qed.

Lemma no_ymd_other :
  Ascii.eqb c' c = false ->
  regex_match [dY; lit c'; dm; lit c'; dd] (ymd y m d c) (mk_datetime 1900 1 1) = None.
Proof.
  intros Hne. destruct rendered_bounds as (Hy & Hm & Hd). unfold ymd.
  rewrite step_Y by lia. now apply step_lit_bad.
Qed.

(** Month or day cannot be read at the head of a year. *)
Lemma no_md_on_year fmt s :
  regex_match (dm :: lit c' :: fmt) (render4 y ++ s) (mk_datetime 1900 1 1) = None /\
  regex_match (dd :: lit c' :: fmt) (render4 y ++ s) (mk_datetime 1900 1 1) = None.
Proof.
  destruct rendered_bounds as (Hy & Hm & Hd).
  rewrite render4_app, !render2_app.
  assert (y / 100 < 100) by (apply Nat.Div0.div_lt_upper_bound; lia).
  assert (y mod 100 < 100) by (apply Nat.mod_upper_bound; lia).
  split; [apply no_m_lit | apply no_d_lit];
    apply not_digit_neq; try assumption; apply is_digit_char;
    first [apply Nat.Div0.div_lt_upper_bound; lia | apply Nat.mod_upper_bound; lia].
Qed.

(** Nor with the other separator. *)
Lemma no_md_other fmt a s :
  a < 100 -> Ascii.eqb c' c = false ->
  regex_match (dm :: lit c' :: fmt) (render2 a ++ String c s) (mk_datetime 1900 1 1) = None /\
  regex_match (dd :: lit c' :: fmt) (render2 a ++ String c s) (mk_datetime 1900 1 1) = None.
Proof.
  intros Ha Hne. rewrite render2_app.
  split; [apply no_m_lit | apply no_d_lit]; try assumption;
    apply not_digit_neq; try assumption; apply is_digit_char, Nat.mod_upper_bound; lia.
Qed.
End Rendered.

Lemma try_formats_skip f fs s :
  strptime s f = Raise ValueError -> try_formats (f :: fs) s = try_formats fs s.
Proof. intros H. cbn [try_formats]. now rewrite H. Qed.

Lemma try_formats_hit f fs s dt :
  strptime s f = Ok dt -> try_formats (f :: fs) s = Ok (strftime_iso dt).
Proof. intros H. cbn [try_formats]. now rewrite H. Qed.

Section Named.
Variables y m d : nat.
Hypothesis Hv : valid_date (mk_datetime y m d) = true.


Lemma match_after_name acc :
  regex_match [spaces; dd; lit ","; spaces; dY] (after_name y d) acc =
  Some (set_year y (set_day d acc), "").
Proof.
  destruct (rendered_bounds y m d Hv) as (Hy & Hm & Hd). unfold after_name.
  destruct (render2_head d (String "," (String " " (render4 y)))) as (a & t & E & Ha);
    [lia|].
  rewrite E, step_spaces by (now apply digit_not_space). rewrite <- E.
  rewrite step_d_lit by (lia || reflexivity).
  destruct (render4_head y "") as (b & u & E' & Hb); [lia|].
  rewrite append_nil_r in E'.
  rewrite E', step_spaces by (now apply digit_not_space). rewrite <- E'.
  apply step_Y_end. lia.
Qed.

Lemma match_abbr :
  regex_match fmt_abbr (nth (m - 1) abbr_names "" ++ (after_name y d)) (mk_datetime 1900 1 1) =
  Some (mk_datetime y m d, "").
Proof.
  destruct (rendered_bounds y m d Hv) as (Hy & Hm & Hd).
  unfold fmt_abbr, after_name. rewrite step_abbr by lia.
  fold (after_name y d). now rewrite match_after_name.
Qed.

Lemma match_full :
  regex_match fmt_full (nth (m - 1) full_names "" ++ (after_name y d)) (mk_datetime 1900 1 1) =
  Some (mk_datetime y m d, "").
Proof.
  destruct (rendered_bounds y m d Hv) as (Hy & Hm & Hd).
  unfold fmt_full, after_name. rewrite step_full by lia.
  fold (after_name y d). now rewrite match_after_name.
Qed.

(** No numeric format reads a month name. *)
Lemma no_number_on_name names fmt s :
  names = abbr_names \/ names = full_names ->
  regex_match (dY :: fmt) (nth (m - 1) names "" ++ s) (mk_datetime 1900 1 1) = None /\
  regex_match (dm :: fmt) (nth (m - 1) names "" ++ s) (mk_datetime 1900 1 1) = None /\
  regex_match (dd :: fmt) (nth (m - 1) names "" ++ s) (mk_datetime 1900 1 1) = None.
Proof.
  intros Hn. destruct (rendered_bounds y m d Hv) as (Hy & Hm & Hd).
  destruct (name_head m names Hm Hn) as (a & t & E & Ha & Hs & _).
  rewrite E. cbn [append].
  rewrite regex_match_dY, regex_match_dm, regex_match_dd.
  now rewrite re_Y_first, re_m_first, re_d_first.
Qed.

Lemma abbr_on_full :
  strptime (nth (m - 1) full_names "" ++ (after_name y d)) fmt_abbr = Raise ValueError \/
  strptime (nth (m - 1) full_names "" ++ (after_name y d)) fmt_abbr = Ok (mk_datetime y m d).
Proof.
  destruct (rendered_bounds y m d Hv) as (Hy & Hm & Hd).
  destruct (Nat.eq_dec m 5) as [E|N].
  - right. apply strptime_some; [|exact Hv].
    replace (nth (m - 1) full_names "") with (nth (m - 1) abbr_names "")
      by (now rewrite E).
    apply match_abbr.
  - left. apply strptime_none. unfold fmt_abbr, after_name.
    now apply no_abbr_on_full.
Qed.
End Named.

(** *** The eight layouts *)

Lemma keeps_render2 n : n < 100 -> keeps (render2 n).
Proof.
  intros H. split; [|discriminate].
  rewrite <- (rstrip_render2 "" n H) at 2. reflexivity.
Qed.

Lemma keeps_app x s : keeps s -> keeps (x ++ s).
Proof.
  intros [E N]. split.
  - rewrite rstrip_app_nonempty; rewrite E; auto.
  - destruct x; [exact N | discriminate].
Qed.

Lemma keeps_cons c s : keeps s -> keeps (String c s).
Proof. apply (keeps_app (String c "")). Qed.

Lemma keeps_render4 y : y < 100 * 100 -> keeps (render4 y).
Proof.
  intros H. unfold render4. apply keeps_app, keeps_render2, Nat.mod_upper_bound. lia.
Qed.

Lemma strip_rendered s :
  (exists c t, s = String c t /\ is_space c = false) -> keeps s -> strip s = s.
Proof.
  intros (c & t & -> & Hc) [E _]. now apply strip_from_head.
Qed.

Section Layouts.
Variables y m d : nat.
Hypothesis Hv : valid_date (mk_datetime y m d) = true.

Lemma written_layouts :
  written fmt_iso (mk_datetime y m d) = ymd y m d "-" /\
  written fmt_mdy_slash (mk_datetime y m d) = mdy y m d "/" /\
  written fmt_dmy_slash (mk_datetime y m d) = dmy y m d "/" /\
  written fmt_ymd_slash (mk_datetime y m d) = ymd y m d "/" /\
  written fmt_mdy_dash (mk_datetime y m d) = mdy y m d "-" /\
  written fmt_dmy_dash (mk_datetime y m d) = dmy y m d "-" /\
  written fmt_abbr (mk_datetime y m d) = nth (m - 1) abbr_names "" ++ after_name y d /\
  written fmt_full (mk_datetime y m d) = nth (m - 1) full_names "" ++ after_name y d.
Proof.
  unfold written, ymd, mdy, dmy, after_name.
  repeat split;
    cbn [fold_right written_piece DateTime.year DateTime.month DateTime.day
         fmt_iso fmt_mdy_slash fmt_dmy_slash fmt_ymd_slash fmt_mdy_dash
         fmt_dmy_dash fmt_abbr fmt_full];
    rewrite append_nil_r; reflexivity.
Qed.

Lemma strip_layouts c :
  strip (ymd y m d c) = ymd y m d c /\
  strip (mdy y m d c) = mdy y m d c /\
  strip (dmy y m d c) = dmy y m d c /\
  strip (nth (m - 1) abbr_names "" ++ after_name y d) =
    nth (m - 1) abbr_names "" ++ after_name y d /\
  strip (nth (m - 1) full_names "" ++ after_name y d) =
    nth (m - 1) full_names "" ++ after_name y d.
Proof.
  destruct (rendered_bounds y m d Hv) as (Hy & Hm & Hd).
  assert (K2 : forall n, n <= 31 -> keeps (render2 n))
    by (intros; apply keeps_render2; lia).
  assert (K4 : keeps (render4 y)) by (apply keeps_render4; lia).
  assert (H2 : forall n s, n <= 31 ->
               exists a t, render2 n ++ s = String a t /\ is_space a = false).
  { intros n s Hn. destruct (render2_head n s) as (a & t & E & Ha); [lia|].
    exists a, t. split; [exact E | now apply digit_not_space]. }
  assert (H4 : forall s, exists a t, render4 y ++ s = String a t /\ is_space a = false).
  { intros s. destruct (render4_head y s) as (a & t & E & Ha); [lia|].
    exists a, t. split; [exact E | now apply digit_not_space]. }
  assert (HN : forall names s, names = abbr_names \/ names = full_names ->
               exists a t, nth (m - 1) names "" ++ s = String a t /\ is_space a = false).
  { intros names s Hn. destruct (name_head m names Hm Hn) as (a & t & E & _ & _ & Ha).
    rewrite E. exists a, (t ++ s). auto. }
  assert (KA : keeps (after_name y d)).
  { unfold after_name. apply keeps_cons, keeps_app, keeps_cons, keeps_cons, K4. }
  unfold ymd, mdy, dmy.
  split; [|split; [|split; [|split]]]; apply strip_rendered.
  - apply H4.
  - apply keeps_app, keeps_cons, keeps_app, keeps_cons, K2. lia.
  - apply H2. lia.
  - apply keeps_app, keeps_cons, keeps_app, keeps_cons, K4.
  - apply H2. lia.
  - apply keeps_app, keeps_cons, keeps_app, keeps_cons, K4.
  - apply HN. auto.
  - apply keeps_app, KA.
  - apply HN. auto.
  - apply keeps_app, KA.
Qed.
End Layouts.

Lemma slash_not_digit : is_digit "/" = false.
Proof. reflexivity. Qed.

Lemma dash_not_digit : is_digit "-" = false.
Proof. reflexivity. Qed.

Section RoundTrip.
Variables y m d : nat.
Hypothesis Hv : valid_date (mk_datetime y m d) = true.


Ltac skip_format lemma :=
  rewrite try_formats_skip by (apply strptime_none; apply lemma; auto; lia).

Lemma parse_ymd_dash : _parse_date (ymd y m d "-") = Ok (strftime_iso (mk_datetime y m d)).
Proof.
  unfold _parse_date. rewrite (proj1 (strip_layouts y m d Hv "-")).
  unfold date_formats. apply try_formats_hit, strptime_some; [|exact Hv].
  now apply match_ymd.
Qed.

Lemma parse_mdy_slash : _parse_date (mdy y m d "/") = Ok (strftime_iso (mk_datetime y m d)).
Proof.
  destruct (rendered_bounds y m d Hv) as (Hy & Hm & Hd).
  unfold _parse_date. rewrite (proj1 (proj2 (strip_layouts y m d Hv "/"))).
  unfold date_formats, mdy.
  rewrite try_formats_skip
    by (apply strptime_none; apply no_year_first; [reflexivity | lia]).
  apply try_formats_hit, strptime_some; [|exact Hv].
  now apply match_mdy.
Qed.

Lemma parse_dmy_slash :
  _parse_date (dmy y m d "/") =
  Ok (strftime_iso (if d <=? 12 then mk_datetime y d m else mk_datetime y m d)).
Proof.
  destruct (rendered_bounds y m d Hv) as (Hy & Hm & Hd).
  unfold _parse_date. rewrite (proj1 (proj2 (proj2 (strip_layouts y m d Hv "/")))).
  unfold date_formats.
  rewrite try_formats_skip
    by (apply strptime_none; apply no_year_first; [reflexivity | lia]).
  pose proof (match_mdy_on_dmy y m d Hv "/" slash_not_digit) as Hmd. cbv zeta in Hmd.
  destruct (Nat.leb_spec d 12) as [L|L].
  - apply try_formats_hit, strptime_some; [exact Hmd|].
    apply (swapped_valid y m d Hv L).
  - rewrite try_formats_skip by (apply strptime_none; exact Hmd).
    apply try_formats_hit, strptime_some; [|exact Hv].
    now apply match_dmy.
Qed.

Lemma parse_ymd_slash : _parse_date (ymd y m d "/") = Ok (strftime_iso (mk_datetime y m d)).
Proof.
  destruct (rendered_bounds y m d Hv) as (Hy & Hm & Hd).
  unfold _parse_date. rewrite (proj1 (strip_layouts y m d Hv "/")).
  unfold date_formats.
  rewrite try_formats_skip
    by (apply strptime_none; apply (no_ymd_other y m d Hv "/" "-"); reflexivity).
  rewrite try_formats_skip
    by (apply strptime_none; apply (no_md_on_year y m d Hv "/" slash_not_digit)).
  rewrite try_formats_skip
    by (apply strptime_none; apply (no_md_on_year y m d Hv "/" slash_not_digit)).
  apply try_formats_hit, strptime_some; [|exact Hv].
  now apply match_ymd.
Qed.

Lemma parse_mdy_dash : _parse_date (mdy y m d "-") = Ok (strftime_iso (mk_datetime y m d)).
Proof.
  destruct (rendered_bounds y m d Hv) as (Hy & Hm & Hd).
  unfold _parse_date. rewrite (proj1 (proj2 (strip_layouts y m d Hv "-"))).
  unfold date_formats, mdy.
  rewrite try_formats_skip
    by (apply strptime_none; apply no_year_first; [reflexivity | lia]).
  rewrite try_formats_skip
    by (apply strptime_none; apply (no_md_other "-" "/" slash_not_digit); [lia|reflexivity]).
  rewrite try_formats_skip
    by (apply strptime_none; apply (no_md_other "-" "/" slash_not_digit); [lia|reflexivity]).
  rewrite try_formats_skip
    by (apply strptime_none; apply no_year_first; [reflexivity | lia]).
  apply try_formats_hit, strptime_some; [|exact Hv].
  now apply match_mdy.
Qed.

Lemma parse_dmy_dash :
  _parse_date (dmy y m d "-") =
  Ok (strftime_iso (if d <=? 12 then mk_datetime y d m else mk_datetime y m d)).
Proof.
  destruct (rendered_bounds y m d Hv) as (Hy & Hm & Hd).
  unfold _parse_date. rewrite (proj1 (proj2 (proj2 (strip_layouts y m d Hv "-")))).
  unfold date_formats.
  pose proof (match_mdy_on_dmy y m d Hv "-" dash_not_digit) as Hmd. cbv zeta in Hmd.
  unfold dmy in *.
  rewrite try_formats_skip
    by (apply strptime_none; apply no_year_first; [reflexivity | lia]).
  rewrite try_formats_skip
    by (apply strptime_none; apply (no_md_other "-" "/" slash_not_digit); [lia|reflexivity]).
  rewrite try_formats_skip
    by (apply strptime_none; apply (no_md_other "-" "/" slash_not_digit); [lia|reflexivity]).
  rewrite try_formats_skip
    by (apply strptime_none; apply no_year_first; [reflexivity | lia]).
  destruct (Nat.leb_spec d 12) as [L|L].
  - apply try_formats_hit, strptime_some; [exact Hmd|].
    apply (swapped_valid y m d Hv L).
  - rewrite try_formats_skip by (apply strptime_none; exact Hmd).
    apply try_formats_hit, strptime_some; [|exact Hv].
    now apply (match_dmy y m d Hv "-").
Qed.

Lemma parse_abbr :
  _parse_date (nth (m - 1) abbr_names "" ++ after_name y d) =
  Ok (strftime_iso (mk_datetime y m d)).
Proof.
  unfold _parse_date.
  rewrite (proj1 (proj2 (proj2 (proj2 (strip_layouts y m d Hv "-"))))).
  unfold date_formats.
  do 6 (rewrite try_formats_skip
          by (apply strptime_none;
              apply (no_number_on_name y m d Hv abbr_names); auto)).
  apply try_formats_hit, strptime_some; [|exact Hv].
  now apply match_abbr.
Qed.

Lemma parse_full :
  _parse_date (nth (m - 1) full_names "" ++ after_name y d) =
  Ok (strftime_iso (mk_datetime y m d)).
Proof.
  unfold _parse_date.
  rewrite (proj2 (proj2 (proj2 (proj2 (strip_layouts y m d Hv "-"))))).
  unfold date_formats.
  do 6 (rewrite try_formats_skip
          by (apply strptime_none;
              apply (no_number_on_name y m d Hv full_names); auto)).
  destruct (abbr_on_full y m d Hv) as [E|E].
  - rewrite try_formats_skip by exact E.
    apply try_formats_hit, strptime_some; [|exact Hv].
    now apply match_full.
  - now apply try_formats_hit.
Qed.
End RoundTrip.

(** From the year 1000 on, [strftime] writes the year in four digits,
    and its text is the canonical one. *)
Lemma year_text_four y : 1000 <= y < 100 * 100 -> year_text y = render4 y.
Proof.
  intros H.
  assert (A : forallb (fun k => String.eqb (year_text k) (render4 k))
                      (seq 1000 (90 * 100)) = true) by (vm_compute; reflexivity).
  rewrite forallb_forall in A.
  apply String.eqb_eq, A, in_seq. lia.
Qed.

Lemma strftime_iso_canonical dt :
  valid_date dt = true -> 1000 <= year dt -> strftime_iso dt = iso_text dt.
Proof.
  intros Hv Hy. unfold strftime_iso, iso_text. rewrite year_text_four; [reflexivity|].
  pose proof (valid_date_bounds _ Hv) as H. lia.
Qed.

(** C6, as the code has it. [_parse_date] strips the white space around
    the text and tries the eight layouts of [date_formats] in their
    order: the answer is the ISO rendering of the date read by the first
    layout that [strptime] accepts, and the call fails exactly when
    [strptime] rejects every layout.  So "03/05/2024" is read month
    first, as 2024-03-05.  A valid date written in one of the layouts
    year-month-day, month/day/year, year/month/day, month-day-year or
    with the month's name is read back as itself.  Written day first,
    as day/month/year or day-month-year, it is read back as itself only
    when its day is above 12; otherwise the month-first layout, tried
    earlier, takes the text, and the answer has day and month
    exchanged.  The answer is written by [strftime]: it is the
    canonical YYYY-MM-DD text for the years 1000 to 9999, and has a
    shorter year before, so "0999-01-01" gives "999-01-01". *)
Theorem parse_date_first_layout :
  (forall l s r, all_space l = true -> all_space r = true ->
      _parse_date (l ++ s ++ r) = _parse_date s) /\
  (forall raw c,
      _parse_date raw = Ok c <->
      exists before fmt after dt,
        date_formats = (before ++ fmt :: after)%list /\
        (forall f, In f before -> strptime (strip raw) f = Raise ValueError) /\
        strptime (strip raw) fmt = Ok dt /\ c = strftime_iso dt) /\
  (forall raw,
      _parse_date raw = Raise ValueError <->
      forall f, In f date_formats -> strptime (strip raw) f = Raise ValueError) /\
  (strptime "03/05/2024" fmt_mdy_slash = Ok (mk_datetime 2024 3 5) /\
   strptime "03/05/2024" fmt_dmy_slash = Ok (mk_datetime 2024 5 3) /\
   _parse_date "03/05/2024" = Ok "2024-03-05") /\
  (forall dt fmt, valid_date dt = true ->
      In fmt [fmt_iso; fmt_mdy_slash; fmt_ymd_slash; fmt_mdy_dash; fmt_abbr; fmt_full] ->
      _parse_date (written fmt dt) = Ok (strftime_iso dt)) /\
  (forall dt fmt, valid_date dt = true ->
      In fmt [fmt_dmy_slash; fmt_dmy_dash] ->
      _parse_date (written fmt dt) =
      Ok (strftime_iso (if day dt <=? 12 then swap_day_month dt else dt))) /\
  (forall dt, valid_date dt = true -> 1000 <= year dt ->
      strftime_iso dt = iso_text dt) /\
  (written fmt_iso (mk_datetime 999 1 1) = "0999-01-01" /\
   iso_text (mk_datetime 999 1 1) = "0999-01-01" /\
   _parse_date "0999-01-01" = Ok "999-01-01").
Proof.
  split; [exact parse_date_spaces|].
  split; [intros raw c; unfold _parse_date; apply try_formats_ok|].
  split; [intros raw; unfold _parse_date; apply try_formats_raise|].
  split; [repeat split; vm_compute; reflexivity|].
  split; [|split; [|split; [exact strftime_iso_canonical
                           | repeat split; vm_compute; reflexivity]]].
  - intros [y m d] fmt Hv Hin.
    destruct (written_layouts y m d) as (E1 & E2 & _ & E4 & E5 & _ & E7 & E8).
    cbn [In] in Hin.
    destruct Hin as [<-|[<-|[<-|[<-|[<-|[<-|[]]]]]]].
    + rewrite E1. now apply parse_ymd_dash.
    + rewrite E2. now apply parse_mdy_slash.
    + rewrite E4. now apply parse_ymd_slash.
    + rewrite E5. now apply parse_mdy_dash.
    + rewrite E7. now apply parse_abbr.
    + rewrite E8. now apply parse_full.
  - intros [y m d] fmt Hv Hin.
    destruct (written_layouts y m d) as (_ & _ & E3 & _ & _ & E6 & _).
    unfold swap_day_month. cbn [DateTime.year DateTime.month DateTime.day].
    cbn [In] in Hin. destruct Hin as [<-|[<-|[]]].
    + rewrite E3. now apply parse_dmy_slash.
    + rewrite E6. now apply parse_dmy_dash.
Qed.

Lemma parse_date_first_layout_witness :
  _parse_date (" " ++ "2024-02-29" ++ " ") = _parse_date "2024-02-29" /\
  _parse_date (written fmt_full (mk_datetime 2024 2 29)) =
    Ok (strftime_iso (mk_datetime 2024 2 29)) /\
  _parse_date (written fmt_dmy_slash (mk_datetime 2024 5 23)) =
    Ok (strftime_iso (mk_datetime 2024 5 23)) /\
  _parse_date (written fmt_dmy_dash (mk_datetime 2024 5 3)) =
    Ok (strftime_iso (mk_datetime 2024 3 5)) /\
  strftime_iso (mk_datetime 2024 2 29) = iso_text (mk_datetime 2024 2 29).
Proof.
  destruct parse_date_first_layout as (Hw & _ & _ & _ & Hr & Hd & Hc & _).
  split; [apply (Hw " " "2024-02-29" " "); reflexivity|].
  split; [apply (Hr (mk_datetime 2024 2 29) fmt_full); [reflexivity | cbn; tauto]|].
  split; [|split].
  - apply (Hd (mk_datetime 2024 5 23) fmt_dmy_slash); [reflexivity | cbn; tauto].
  - apply (Hd (mk_datetime 2024 5 3) fmt_dmy_dash); [reflexivity | cbn; tauto].
  - apply (Hc (mk_datetime 2024 2 29)); [reflexivity|].
    cbn [DateTime.year]. apply Nat.leb_le. vm_compute. reflexivity.
Defined.

(** C6, as the specification states it, fails on the third of May 2024
    written day first: the text is a valid month/day/year text too, and
    is read as the fifth of March.  It fails as well on the first of
    January 999 written year first: the answer is not the canonical
    text. *)
Lemma day_first_is_read_month_first :
  valid_date (mk_datetime 2024 5 3) = true /\
  In fmt_dmy_slash date_formats /\
  written fmt_dmy_slash (mk_datetime 2024 5 3) = "03/05/2024" /\
  iso_text (mk_datetime 2024 5 3) = "2024-05-03" /\
  _parse_date (written fmt_dmy_slash (mk_datetime 2024 5 3)) = Ok "2024-03-05" /\
  valid_date (mk_datetime 999 1 1) = true /\
  written fmt_iso (mk_datetime 999 1 1) = "0999-01-01" /\
  iso_text (mk_datetime 999 1 1) = "0999-01-01" /\
  _parse_date (written fmt_iso (mk_datetime 999 1 1)) = Ok "999-01-01".
Proof.
  split; [reflexivity|]. split; [cbn; tauto|].
  repeat split; vm_compute; reflexivity.
Qed.

End ParseDateFacts.

(* ------------------------------------------------------------------ *)
(** ** The keyword table under [add_keyword] *)

Module KeywordFacts.
Import PyStr PyFloat Categorizer CategorizerKeywords CategorizerFacts.

Lemma get_append_same t c k :
  has_category t c = true ->
  get_category_keywords (append_to_category t c k) c =
  (get_category_keywords t c ++ [k])%list.
Proof.
  unfold has_category, get_category_keywords.
  induction t as [|[c' kws'] rest IH]; simpl; [discriminate|].
  destruct (String.eqb_spec c' c) as [->|N]; simpl.
  - now rewrite String.eqb_refl.
  - intros H. apply String.eqb_neq in N. rewrite N. now apply IH.
Qed.

Lemma get_append_other t c k c' :
  c' <> c ->
  get_category_keywords (append_to_category t c k) c' = get_category_keywords t c'.
Proof.
  intros N. unfold get_category_keywords.
  induction t as [|[c0 kws0] rest IH]; simpl; [reflexivity|].
  destruct (String.eqb_spec c0 c) as [->|N0]; simpl.
  - apply not_eq_sym, String.eqb_neq in N. now rewrite N.
  - destruct (String.eqb c0 c'); [reflexivity | exact IH].
Qed.

Lemma get_new_entry t c kws c' :
  has_category t c = false ->
  get_category_keywords (t ++ [(c, kws)])%list c' =
  if String.eqb c c' then kws else get_category_keywords t c'.
Proof.
  unfold has_category, get_category_keywords.
  induction t as [|[c0 kws0] rest IH]; simpl.
  - intros _. now destruct (String.eqb c c').
  - intros H. apply orb_false_iff in H. destruct H as [H0 H].
    destruct (String.eqb_spec c0 c') as [->|N0].
    + rewrite String.eqb_sym in H0. now rewrite H0.
    + now apply IH.
Qed.

Lemma keys_append t c k : map fst (append_to_category t c k) = map fst t.
Proof.
  induction t as [|[c0 kws0] rest IH]; simpl; [reflexivity|].
  destruct (String.eqb c0 c); simpl; [reflexivity | now rewrite IH].
Qed.

Lemma has_category_keys t c : has_category t c = true <-> In c (map fst t).
Proof.
  unfold has_category. rewrite existsb_exists. split.
  - intros [e [He Hc]]. apply String.eqb_eq in Hc. subst c. now apply in_map.
  - intros H. apply in_map_iff in H. destruct H as [e [<- He]].
    exists e. split; [exact He | apply String.eqb_refl].
Qed.

Lemma keyword_in_spec k kws : keyword_in k kws = true <-> In k kws.
Proof.
  unfold keyword_in. rewrite existsb_exists. split.
  - intros [x [Hx E]]. apply String.eqb_eq in E. now subst x.
  - intros H. exists k. split; [exact H | apply String.eqb_refl].
Qed.

Lemma get_absent t c : has_category t c = false -> get_category_keywords t c = [].
Proof.
  intros H. unfold get_category_keywords.
  destruct (find _ t) as [e|] eqn:F; [|reflexivity].
  apply find_some in F. destruct F as [Hin Hc].
  assert (has_category t c = true)
    by (unfold has_category; apply existsb_exists; eauto).
  congruence.
Qed.

Lemma add_keyword_get_same t c k :
  get_category_keywords (add_keyword t c k) c =
  (if keyword_in (lower k) (get_category_keywords t c)
   then get_category_keywords t c
   else (get_category_keywords t c ++ [lower k])%list).
Proof.
  unfold add_keyword. destruct (has_category t c) eqn:H.
  - destruct (keyword_in (lower k) (get_category_keywords t c)); simpl;
      [reflexivity | now apply get_append_same].
  - rewrite (get_new_entry t c [lower k] c H), String.eqb_refl.
    now rewrite (get_absent t c H).
Qed.

Lemma add_keyword_get_other t c k c' :
  c' <> c ->
  get_category_keywords (add_keyword t c k) c' = get_category_keywords t c'.
Proof.
  intros N. unfold add_keyword. destruct (has_category t c) eqn:H.
  - destruct (negb _); [now apply get_append_other | reflexivity].
  - rewrite (get_new_entry t c [lower k] c' H).
    apply String.eqb_neq in N. rewrite String.eqb_sym in N. now rewrite N.
Qed.

Lemma add_keyword_keys t c k :
  map fst (add_keyword t c k) =
  (if has_category t c then map fst t else (map fst t ++ [c])%list).
Proof.
  unfold add_keyword. destruct (has_category t c).
  - destruct (negb _); [apply keys_append | reflexivity].
  - now rewrite map_app.
Qed.

Lemma add_keyword_has t c k :
  In (lower k) (get_category_keywords (add_keyword t c k) c).
Proof.
  rewrite add_keyword_get_same. destruct (keyword_in _ _) eqn:Hk.
  - now apply keyword_in_spec.
  - apply in_or_app. right. now left.
Qed.

Lemma add_keyword_has_category t c k : has_category (add_keyword t c k) c = true.
Proof.
  apply has_category_keys. rewrite add_keyword_keys.
  destruct (has_category t c) eqn:H.
  - now apply has_category_keys.
  - apply in_or_app. right. now left.
Qed.

(** X1. [add_keyword] followed by [get_category_keywords]: the lowercased
    keyword is among the keywords of the category afterwards; the list
    of the category is the old one, with the keyword at its end when it
    was not there and unchanged when it was; the lists of the other
    categories are unchanged; a category that was not in the table
    becomes its last entry, the others keep their places; and the table
    still has one entry for a key. *)
Theorem add_keyword_then_get :
  forall t c k,
    In (lower k) (get_category_keywords (add_keyword t c k) c) /\
    get_category_keywords (add_keyword t c k) c =
      (if keyword_in (lower k) (get_category_keywords t c)
       then get_category_keywords t c
       else (get_category_keywords t c ++ [lower k])%list) /\
    (forall c', c' <> c ->
       get_category_keywords (add_keyword t c k) c' = get_category_keywords t c') /\
    map fst (add_keyword t c k) =
      (if has_category t c then map fst t else (map fst t ++ [c])%list) /\
    (unique_keys t -> unique_keys (add_keyword t c k)).
Proof.
  intros t c k.
  split; [apply add_keyword_has|].
  split; [apply add_keyword_get_same|].
  split; [intros c'; apply add_keyword_get_other|].
  split; [apply add_keyword_keys|].
  unfold unique_keys. intros U. rewrite add_keyword_keys.
  destruct (has_category t c) eqn:H; [exact U|].
  assert (~ In c (map fst t)).
  { intros Hin. apply has_category_keys in Hin. congruence. }
  apply NoDup_app; [exact U | repeat constructor; simpl; tauto |].
  intros x Hx [<-|[]]. contradiction.
Qed.

(** X2. [add_keyword] compares keywords in lowercase and adds a keyword
    once: adding a keyword whose lowercase form the category already
    has leaves the table as it is, so adding twice, in whatever case,
    is adding once. *)
Theorem add_keyword_twice :
  forall t c k k',
    lower k' = lower k ->
    add_keyword (add_keyword t c k) c k' = add_keyword t c k.
Proof.
  intros t c k k' E.
  unfold add_keyword at 1. rewrite E, add_keyword_has_category.
  pose proof (add_keyword_has t c k) as Hin.
  apply keyword_in_spec in Hin. now rewrite Hin.
Qed.

Lemma add_keyword_twice_witness :
  add_keyword (add_keyword default_category_keywords "Shopping" "MyStore")
    "Shopping" "mystore" =
  add_keyword default_category_keywords "Shopping" "MyStore".
Proof. apply (add_keyword_twice _ "Shopping" "MyStore" "mystore"). reflexivity. Defined.

(** *** What a new keyword does to [categorize] *)

Lemma scan_keywords_app kws k dl :
  scan_keywords (kws ++ [k])%list dl = scan_keywords kws dl || str_in k dl.
Proof.
  rewrite !scan_keywords_existsb, existsb_app. simpl. now rewrite orb_false_r.
Qed.

Lemma scan_append t c k dl :
  scan_categories (append_to_category t c k) dl =
  match scan_categories t dl with
  | Some x => scan_categories (append_to_category t c k) dl
  | None => if has_category t c && str_in k dl then Some c else None
  end.
Proof.
  destruct (scan_categories t dl) eqn:E; [reflexivity|].
  revert E. unfold has_category.
  induction t as [|[c0 kws0] rest IH]; simpl; [reflexivity|].
  destruct (scan_keywords kws0 dl) eqn:S0; [discriminate|]. intros E.
  destruct (String.eqb_spec c0 c) as [->|N]; simpl.
  - rewrite scan_keywords_app, S0. simpl.
    destruct (str_in k dl); [reflexivity | exact E].
  - rewrite S0. now apply IH.
Qed.

Lemma scan_append_some t c k dl x :
  scan_categories t dl = Some x ->
  scan_categories (append_to_category t c k) dl = Some x \/
  scan_categories (append_to_category t c k) dl = Some c.
Proof.
  induction t as [|[c0 kws0] rest IH]; simpl; [discriminate|].
  destruct (String.eqb_spec c0 c) as [->|N]; simpl.
  - rewrite scan_keywords_app.
    destruct (scan_keywords kws0 dl); simpl; [now left|].
    destruct (str_in k dl); [now right | now left].
  - destruct (scan_keywords kws0 dl); [now left | exact IH].
Qed.

Lemma scan_append_absent t c k dl :
  str_in k dl = false ->
  scan_categories (append_to_category t c k) dl = scan_categories t dl.
Proof.
  intros H. induction t as [|[c0 kws0] rest IH]; simpl; [reflexivity|].
  destruct (String.eqb c0 c); simpl.
  - now rewrite scan_keywords_app, H, orb_false_r.
  - now rewrite IH.
Qed.

Lemma scan_new_entry t c k dl :
  scan_categories (t ++ [(c, [k])])%list dl =
  match scan_categories t dl with
  | Some x => Some x
  | None => if str_in k dl then Some c else None
  end.
Proof.
  induction t as [|[c0 kws0] rest IH]; simpl.
  - now destruct (str_in k dl).
  - destruct (scan_keywords kws0 dl); [reflexivity | exact IH].
Qed.

Lemma unmatched_scan t d : unmatched t d <-> scan_categories t (lower d) = None.
Proof.
  split.
  - unfold unmatched. induction t as [|[c0 kws0] rest IH]; simpl; [reflexivity|].
    intros H. rewrite scan_keywords_existsb.
    destruct (existsb _ kws0) eqn:E.
    + apply existsb_exists in E. destruct E as [k [Hk Hs]].
      rewrite (H c0 kws0 k) in Hs; [discriminate | now left | exact Hk].
    + apply IH. intros c kws k Hin. apply (H c kws k). now right.
  - intros H c kws k. now apply scan_categories_none.
Qed.

Lemma get_in_table t c k :
  In k (get_category_keywords t c) -> exists kws, In (c, kws) t /\ In k kws.
Proof.
  unfold get_category_keywords.
  destruct (find _ t) as [[c0 kws0]|] eqn:F; [|contradiction].
  apply find_some in F. destruct F as [Hin Hc]. simpl in *.
  apply String.eqb_eq in Hc. subst c0. eauto.
Qed.

(** X3. What [add_keyword] does to [categorize]: a description in which
    the lowercased keyword does not occur keeps its category; a
    description either keeps its category or moves to the category of
    the keyword; and a description that no keyword of the table matched
    and in which the new keyword occurs, in whatever case, gets the
    category of the keyword. *)
Theorem add_keyword_recategorizes :
  forall t c k d,
    (str_in (lower k) (lower d) = false ->
       categorize (add_keyword t c k) d = categorize t d) /\
    (categorize (add_keyword t c k) d = categorize t d \/
     categorize (add_keyword t c k) d = c) /\
    (unmatched t d -> str_in (lower k) (lower d) = true ->
       categorize (add_keyword t c k) d = c).
Proof.
  intros t c k d. unfold categorize, add_keyword.
  destruct (has_category t c) eqn:H.
  - destruct (keyword_in (lower k) (get_category_keywords t c)) eqn:K; simpl.
    + split; [reflexivity|]. split; [now left|].
      intros U Hs. apply keyword_in_spec, get_in_table in K.
      destruct K as [kws [Hin Hk]]. rewrite (U c kws (lower k) Hin Hk) in Hs.
      discriminate.
    + split; [intros Hs; now rewrite scan_append_absent|]. split.
      * destruct (scan_categories t (lower d)) as [x|] eqn:E.
        -- destruct (scan_append_some t c (lower k) (lower d) x E) as [-> | ->]; auto.
        -- rewrite scan_append, E, H. simpl.
           destruct (str_in (lower k) (lower d)); auto.
      * intros U Hs. apply unmatched_scan in U.
        now rewrite scan_append, U, H, Hs.
  - rewrite scan_new_entry.
    split; [intros Hs; rewrite Hs; now destruct (scan_categories t (lower d))|].
    split.
    + destruct (scan_categories t (lower d)); [now left|].
      destruct (str_in (lower k) (lower d)); auto.
    + intros U Hs. apply unmatched_scan in U. now rewrite U, Hs.
Qed.

Lemma add_keyword_recategorizes_witness :
  categorize (add_keyword default_category_keywords "Pets" "Vet") "VET visit" = "Pets" /\
  categorize (add_keyword default_category_keywords "Pets" "Vet") "Bus fare" =
    categorize default_category_keywords "Bus fare".
Proof.
  split.
  - apply (proj2 (proj2 (add_keyword_recategorizes
                           default_category_keywords "Pets" "Vet" "VET visit"))).
    + apply unmatched_scan. reflexivity.
    + reflexivity.
  - apply (proj1 (add_keyword_recategorizes
                    default_category_keywords "Pets" "Vet" "Bus fare")).
    reflexivity.
Defined.

(** *** The categories that can be suggested *)

Lemma categorize_range t d :
  categorize t d = "Other Expenses" \/ In (categorize t d) (map fst t).
Proof.
  unfold categorize. destruct (scan_categories t (lower d)) as [c|] eqn:E.
  - right. now apply scan_categories_some in E.
  - now left.
Qed.

Lemma default_suggestion_known d a :
  In (get_suggested_category default_category_keywords d a)
     (map FinanceDatabase.name FinanceDatabase.default_categories).
Proof.
  unfold get_suggested_category.
  assert (B : In (categorize default_category_keywords d)
                 (map FinanceDatabase.name FinanceDatabase.default_categories)).
  { destruct (categorize_range default_category_keywords d) as [-> | H].
    - simpl. tauto.
    - simpl in H.
      repeat (destruct H as [<- | H]; [simpl; tauto|]). contradiction. }
  destruct (gt0 a && startswith (categorize default_category_keywords d) "Other");
    [|exact B].
  destruct (any_word_in ["salary"; "payroll"; "employer"] d); [simpl; tauto|].
  destruct (any_word_in ["freelance"; "consulting"; "contract"] d); simpl; tauto.
Qed.

(** X4. Every category [categorize] returns is a key of the table or
    "Other Expenses"; and with the default table, every category
    [get_suggested_category] returns, for whatever description and
    amount, is the name of one of the ten categories the database
    creates at start. *)
Theorem suggested_category_is_known :
  (forall t d, categorize t d = "Other Expenses" \/ In (categorize t d) (map fst t)) /\
  (forall d a,
      In (get_suggested_category default_category_keywords d a)
         (map FinanceDatabase.name FinanceDatabase.default_categories)).
Proof.
  split; [exact categorize_range | exact default_suggestion_known].
Qed.

(** X5. The amount decides between two behaviours of
    [get_suggested_category], for every table: for an amount that is
    not above 0 (0, a negative amount, NaN) the answer is that of
    [categorize]; for an amount above 0 the answer is never
    "Other Expenses", and the only answer that starts with "Other" is
    "Other Income". *)
Theorem suggested_category_by_sign :
  forall t d a,
    (gt0 a = false -> get_suggested_category t d a = categorize t d) /\
    (gt0 a = true ->
       get_suggested_category t d a <> "Other Expenses" /\
       (startswith (get_suggested_category t d a) "Other" = true ->
        get_suggested_category t d a = "Other Income")).
Proof.
  intros t d a. unfold get_suggested_category.
  split; intros Ha; rewrite Ha; cbn [andb].
  - reflexivity.
  - destruct (startswith (categorize t d) "Other") eqn:S.
    + destruct (any_word_in ["salary"; "payroll"; "employer"] d);
        [split; [discriminate | intros H; discriminate H]|].
      destruct (any_word_in ["freelance"; "consulting"; "contract"] d);
        (split; [discriminate | intros H; first [discriminate H | reflexivity]]).
    + split; [|intros H; congruence].
      intros E. rewrite E in S. discriminate S.
Qed.

Lemma suggested_category_by_sign_witness :
  get_suggested_category default_category_keywords "Lottery" (Fin 0) =
    categorize default_category_keywords "Lottery" /\
  get_suggested_category default_category_keywords "Lottery" (Fin 20) <> "Other Expenses".
Proof.
  split.
  - apply (proj1 (suggested_category_by_sign default_category_keywords "Lottery" (Fin 0))).
    reflexivity.
  - apply (proj2 (suggested_category_by_sign default_category_keywords "Lottery" (Fin 20))).
    reflexivity.
Defined.

End KeywordFacts.

(* ------------------------------------------------------------------ *)
(** ** Rows ordered by a text key *)

Module TextOrderFacts.
Import PyStr Py FinanceDatabase FinanceDatabaseQueries.

Lemma compare_not_gt_trans s : forall t u,
  String.compare s t <> Gt -> String.compare t u <> Gt -> String.compare s u <> Gt.
Proof.
  induction s as [|a s IH]; intros [|b t] [|c u]; simpl; try congruence.
  unfold Ascii.compare.
  destruct (N.compare_spec (N_of_ascii a) (N_of_ascii b)) as [Eab|Lab|Gab];
    destruct (N.compare_spec (N_of_ascii b) (N_of_ascii c)) as [Ebc|Lbc|Gbc];
    destruct (N.compare_spec (N_of_ascii a) (N_of_ascii c)) as [Eac|Lac|Gac];
    try congruence; try lia.
  apply IH.
Qed.

Lemma leb_trans s t u :
  String.leb s t = true -> String.leb t u = true -> String.leb s u = true.
Proof.
  unfold String.leb. intros H1 H2.
  assert (String.compare s u <> Gt).
  { apply (compare_not_gt_trans s t u).
    - destruct (String.compare s t); congruence.
    - destruct (String.compare t u); congruence. }
  destruct (String.compare s u); congruence.
Qed.

Lemma leb_refl s : String.leb s s = true.
Proof. destruct (String.leb_total s s); assumption. Qed.

Lemma sorted_app {A} (R : A -> A -> Prop) l x :
  StronglySorted R l -> Forall (fun y => R y x) l -> StronglySorted R (l ++ [x]).
Proof.
  induction 1 as [|y l Hs IH Hy]; intros Hx; simpl.
  - repeat constructor.
  - inversion Hx; subst. constructor; [now apply IH|].
    apply Forall_app. split; [exact Hy | now constructor].
Qed.

Lemma sorted_rev {A} (R : A -> A -> Prop) l :
  StronglySorted R l -> StronglySorted (fun a b => R b a) (rev l).
Proof.
  induction 1 as [|y l Hs IH Hy]; simpl; [constructor|].
  apply sorted_app; [exact IH|].
  apply Forall_rev. exact Hy.
Qed.

Section Sorting.
Context {A : Type} (key : A -> string).

Lemma insert_text_perm x l : Permutation (x :: l) (insert_text key x l).
Proof.
  induction l as [|y l IH]; simpl; [apply Permutation_refl|].
  destruct (String.leb (key x) (key y)); [apply Permutation_refl|].
  eapply Permutation_trans; [apply perm_swap|]. now constructor.
Qed.

Lemma insert_text_sorted x l :
  StronglySorted (fun a b => String.leb (key a) (key b) = true) l ->
  StronglySorted (fun a b => String.leb (key a) (key b) = true) (insert_text key x l).
Proof.
  induction l as [|y l IH]; simpl; intros Hs.
  - repeat constructor.
  - inversion Hs as [|? ? Hl Hall]; subst.
    destruct (String.leb (key x) (key y)) eqn:E.
    + constructor; [exact Hs|].
      constructor; [exact E|].
      rewrite Forall_forall in *. intros z Hz.
      eapply leb_trans; [exact E | now apply Hall].
    + assert (Hyx : String.leb (key y) (key x) = true).
      { destruct (String.leb_total (key x) (key y)); congruence. }
      constructor; [now apply IH|].
      rewrite Forall_forall in *. intros z Hz.
      apply (Permutation_in _ (Permutation_sym (insert_text_perm x l))) in Hz.
      destruct Hz as [<-|Hz]; [exact Hyx | now apply Hall].
Qed.

Lemma sort_text_ok l : sql_order_by_text key l (sort_text key l).
Proof.
  unfold sql_order_by_text, sort_text. induction l as [|x l [IHp IHs]]; simpl.
  - split; constructor.
  - split.
    + eapply Permutation_trans; [|apply insert_text_perm]. now constructor.
    + now apply insert_text_sorted.
Qed.

Lemma sort_text_desc_ok l : sql_order_by_text_desc key l (rev (sort_text key l)).
Proof.
  destruct (sort_text_ok l) as [Hp Hs]. split.
  - eapply Permutation_trans; [exact Hp | apply Permutation_rev].
  - now apply sorted_rev in Hs.
Qed.

Lemma key_injective l x y :
  NoDup (map key l) -> In x l -> In y l -> key x = key y -> x = y.
Proof.
  induction l as [|z l IH]; simpl; [contradiction|].
  intros Hn Hx Hy E. inversion Hn as [|? ? Hz Hn']; subst.
  destruct Hx as [->|Hx], Hy as [->|Hy]; auto.
  - exfalso. apply Hz. rewrite E. now apply in_map.
  - exfalso. apply Hz. rewrite <- E. now apply in_map.
Qed.

(** With keys that differ, the order is fixed. *)
Lemma sorted_unique l1 : forall l2,
  StronglySorted (fun a b => String.leb (key a) (key b) = true) l1 ->
  StronglySorted (fun a b => String.leb (key a) (key b) = true) l2 ->
  Permutation l1 l2 -> NoDup (map key l1) -> l1 = l2.
Proof.
  induction l1 as [|x l1 IH]; intros l2 S1 S2 P N.
  - apply Permutation_nil in P. now subst.
  - destruct l2 as [|y l2].
    { apply Permutation_sym, Permutation_nil in P. discriminate. }
    inversion S1 as [|? ? S1' H1]; subst. inversion S2 as [|? ? S2' H2]; subst.
    rewrite Forall_forall in H1, H2.
    assert (Hy : In y (x :: l1))
      by (apply (Permutation_in _ (Permutation_sym P)); now left).
    assert (Hx : In x (y :: l2)) by (apply (Permutation_in _ P); now left).
    assert (E : x = y).
    { apply (key_injective (x :: l1)); auto; [now left|].
      apply String.leb_antisym.
      - destruct Hy as [<-|Hy]; [apply leb_refl | now apply H1].
      - destruct Hx as [<-|Hx]; [apply leb_refl | now apply H2]. }
    subst y. f_equal. apply IH; auto.
    + now apply Permutation_cons_inv in P.
    + now inversion N.
Qed.

End Sorting.

End TextOrderFacts.

(* ------------------------------------------------------------------ *)
(** ** [get_transactions] and [get_categories] *)

Module QueryFacts.
Import PyStr Py FinanceDatabase FinanceDatabaseQueries FinanceDatabaseFacts TextOrderFacts.

Lemma selected_spec s e c t :
  selected s e c t = true <->
  (given s = true -> String.leb (param s) (date t) = true) /\
  (given e = true -> String.leb (date t) (param e) = true) /\
  (given c = true -> category t = param c).
Proof.
  unfold selected. rewrite !andb_true_iff.
  destruct (given s), (given e), (given c); rewrite ?String.eqb_eq; intuition congruence.
Qed.

Lemma selected_absent s e c t :
  selected s e c t =
  selected (if given s then s else None) (if given e then e else None)
           (if given c then c else None) t.
Proof.
  unfold selected.
  destruct (given s) eqn:Hs, (given e) eqn:He, (given c) eqn:Hc;
    rewrite ?Hs, ?He, ?Hc; reflexivity.
Qed.

(** X6. [get_transactions] always has a result.  Every result holds
    exactly the transactions that pass the filters that are given: a
    date not before [start_date], a date not after [end_date] (both
    bounds included, dates compared as text), and the category; it holds
    each as often as the store does, in an order in which the date never
    increases.  A filter that is [None] or the empty string filters
    nothing, and with no filter the result holds all the
    transactions. *)
Theorem get_transactions_selects :
  forall d s e c,
    (exists r, get_transactions d s e c r) /\
    (forall r, get_transactions d s e c r ->
       StronglySorted (fun a b => String.leb (date b) (date a) = true) r /\
       Permutation (filter (selected s e c) (transactions d)) r /\
       (forall t, In t r <->
          In t (transactions d) /\
          (given s = true -> String.leb (param s) (date t) = true) /\
          (given e = true -> String.leb (date t) (param e) = true) /\
          (given c = true -> category t = param c))) /\
    (forall r, get_transactions d s e c r <->
       get_transactions d (if given s then s else None) (if given e then e else None)
                        (if given c then c else None) r) /\
    (forall r, get_transactions d None (Some "") None r <-> Permutation (transactions d) r /\
       StronglySorted (fun a b => String.leb (date b) (date a) = true) r).
Proof.
  intros d s e c. split; [|split; [|split]].
  - exists (rev (sort_text date (filter (selected s e c) (transactions d)))).
    apply sort_text_desc_ok.
  - intros r [Hp Hs]. split; [exact Hs|]. split; [exact Hp|].
    intros t. rewrite <- selected_spec, <- filter_In.
    split; apply Permutation_in; [now apply Permutation_sym | exact Hp].
  - intros r. unfold get_transactions.
    rewrite (filter_ext _ _ (selected_absent s e c)). reflexivity.
  - intros r. unfold get_transactions, sql_order_by_text_desc.
    rewrite filter_all by reflexivity. reflexivity.
Qed.

(** *** The categories in name order *)

Lemma names_of_filter (p : category_row -> bool) cs :
  NoDup (map name cs) -> NoDup (map name (filter p cs)).
Proof.
  induction cs as [|c cs IH]; simpl; intros H; [constructor|].
  inversion H as [|? ? Hc Hn]; subst.
  destruct (p c); simpl; [|now apply IH].
  constructor; [|now apply IH].
  intros Hin. apply Hc. apply in_map_iff in Hin. destruct Hin as [x [E Hx]].
  apply filter_In in Hx. apply in_map_iff. exists x. tauto.
Qed.

Lemma order_by_name_unique cs r1 r2 :
  NoDup (map name cs) ->
  sql_order_by_text name cs r1 -> sql_order_by_text name cs r2 -> r1 = r2.
Proof.
  intros N [P1 S1] [P2 S2].
  apply (sorted_unique name); auto.
  - eapply Permutation_trans; [apply Permutation_sym, P1 | exact P2].
  - eapply Permutation_NoDup; [apply Permutation_map, P1 | exact N].
Qed.

(** X7. In a store whose category names are unique, [get_categories]
    has exactly one result, whose names go up strictly.  With a type,
    the rows are the name and the limit of the categories of that type,
    and only they; with [None] or the empty string, they are the name,
    the limit and the type of every category. *)
Theorem get_categories_in_name_order d :
  unique_names d ->
  forall cat_type,
    (exists result, get_categories d cat_type result /\
       forall result', get_categories d cat_type result' -> result' = result) /\
    (given cat_type = true ->
       forall result, get_categories d cat_type result ->
       exists rows, result = NameLimit rows /\
         StronglySorted (fun a b => String.ltb (fst a) (fst b) = true) rows /\
         (forall n l, In (n, l) rows <->
            exists c, In c (categories d) /\ FinanceDatabase.cat_type c = param cat_type /\
                      name c = n /\ budget_limit c = l)) /\
    (given cat_type = false ->
       forall result, get_categories d cat_type result ->
       exists rows, result = NameLimitType rows /\
         StronglySorted (fun a b => String.ltb (fst (fst a)) (fst (fst b)) = true) rows /\
         (forall n l ty, In (n, l, ty) rows <->
            In (mk_category n l ty) (categories d))).
Proof.
  intros U cat_type.
  assert (strict : forall cs rows,
             NoDup (map name cs) -> sql_order_by_text name cs rows ->
             StronglySorted (fun a b => String.ltb (name a) (name b) = true) rows).
  { intros cs rows N [P S].
    assert (N' : NoDup (map name rows))
      by (eapply Permutation_NoDup; [apply Permutation_map, P | exact N]).
    clear P N. induction S as [|x l S IH H]; [constructor|].
    inversion N' as [|? ? Hx Hl]; subst.
    constructor; [now apply IH|].
    rewrite Forall_forall in *. intros y Hy. specialize (H y Hy).
    unfold String.leb in H. unfold String.ltb.
    destruct (String.compare (name x) (name y)) eqn:E; try congruence.
    apply String.compare_eq_iff in E. exfalso. apply Hx. rewrite E. now apply in_map. }
  assert (sorted_map : forall (B : Type) (f : category_row -> B) (g : B -> string) rows,
             (forall c, g (f c) = name c) ->
             StronglySorted (fun a b => String.ltb (name a) (name b) = true) rows ->
             StronglySorted (fun a b => String.ltb (g a) (g b) = true) (map f rows)).
  { intros B f g rows Hg S. induction S as [|x l S IH H]; simpl; constructor; auto.
    rewrite Forall_forall in *. intros y Hy. apply in_map_iff in Hy.
    destruct Hy as [z [<- Hz]]. rewrite !Hg. now apply H. }
  unfold get_categories. split; [|split].
  - destruct (given cat_type).
    + set (cs := filter _ (categories d)).
      exists (NameLimit (map (fun c => (name c, budget_limit c)) (sort_text name cs))).
      split; [exists (sort_text name cs); split; [apply sort_text_ok | reflexivity]|].
      intros result' [rows [Hr ->]]. f_equal. f_equal.
      apply (order_by_name_unique cs); auto; [|apply sort_text_ok].
      now apply names_of_filter.
    + exists (NameLimitType
                (map (fun c => (name c, budget_limit c, FinanceDatabase.cat_type c))
                     (sort_text name (categories d)))).
      split; [exists (sort_text name (categories d));
              split; [apply sort_text_ok | reflexivity]|].
      intros result' [rows [Hr ->]]. f_equal. f_equal.
      apply (order_by_name_unique (categories d)); auto. apply sort_text_ok.
  - intros G. rewrite G. intros result [rows [Hr ->]].
    exists (map (fun c => (name c, budget_limit c)) rows). split; [reflexivity|]. split.
    + apply (sorted_map _ (fun c => (name c, budget_limit c)) fst); [reflexivity|].
      eapply strict; [|exact Hr]. now apply names_of_filter.
    + intros n l. rewrite in_map_iff. destruct Hr as [P _]. split.
      * intros [c [E Hc]]. inversion E; subst.
        apply (Permutation_in _ (Permutation_sym P)), filter_In in Hc.
        destruct Hc as [Hc Ht]. apply String.eqb_eq in Ht. exists c. tauto.
      * intros [c (Hc & Ht & <- & <-)]. exists c. split; [reflexivity|].
        apply (Permutation_in _ P), filter_In. split; [exact Hc|].
        now apply String.eqb_eq.
  - intros G. rewrite G. intros result [rows [Hr ->]].
    exists (map (fun c => (name c, budget_limit c, FinanceDatabase.cat_type c)) rows).
    split; [reflexivity|]. split.
    + apply (sorted_map _ (fun c => (name c, budget_limit c, FinanceDatabase.cat_type c))
                        (fun r => fst (fst r))); [reflexivity|].
      eapply strict; [|exact Hr]. exact U.
    + intros n l ty. rewrite in_map_iff. destruct Hr as [P _]. split.
      * intros [[n' l' ty'] [E Hc]]. simpl in E. inversion E; subst.
        now apply (Permutation_in _ (Permutation_sym P)).
      * intros Hc. exists (mk_category n l ty). split; [reflexivity|].
        now apply (Permutation_in _ P).
Qed.

Lemma new_db_unique : unique_names new_db.
Proof.
  unfold unique_names. simpl. repeat constructor; simpl; intuition discriminate.
Qed.

Lemma get_categories_in_name_order_witness :
  exists result, get_categories new_db (Some "income") result /\
    forall result', get_categories new_db (Some "income") result' -> result' = result.
Proof.
  exact (proj1 (get_categories_in_name_order new_db new_db_unique (Some "income"))).
Defined.

End QueryFacts.

(* ------------------------------------------------------------------ *)
(** ** The store under its updates *)

Module StoreFacts.
Import PyStr Py FinanceDatabase FinanceDatabaseQueries FinanceDatabaseFacts.
Import TextOrderFacts QueryFacts.

Lemma ids_of_filter (p : transaction -> bool) ts :
  NoDup (map id ts) -> NoDup (map id (filter p ts)).
Proof.
  induction ts as [|t ts IH]; simpl; intros H; [constructor|].
  inversion H as [|? ? Ht Hn]; subst.
  destruct (p t); simpl; [|now apply IH].
  constructor; [|now apply IH].
  intros Hin. apply Ht. apply in_map_iff in Hin. destruct Hin as [x [E Hx]].
  apply filter_In in Hx. apply in_map_iff. exists x. tauto.
Qed.

Lemma add_transaction_fresh d date description amount category trans_type :
  ids_fresh d ->
  ids_fresh (fst (add_transaction d date description amount category trans_type)).
Proof.
  intros [N F]. unfold ids_fresh, add_transaction. simpl. split.
  - rewrite map_app. simpl. apply NoDup_app; [exact N | repeat constructor; simpl; tauto|].
    intros i Hi [<-|[]]. apply in_map_iff in Hi. destruct Hi as [t [E Ht]].
    rewrite Forall_forall in F. specialize (F t Ht). lia.
  - apply Forall_app. split.
    + eapply Forall_impl; [|exact F]. simpl. intros t Ht. lia.
    + repeat constructor. simpl. lia.
Qed.

(** X8. Ids are given once.  The new store has fresh ids, and every
    update keeps them fresh: no two transactions share an id and no id
    is above the last one given.  In such a store [add_transaction]
    returns the last id plus 1, which no transaction has and which is
    above every id in the store, and the new row, at the end of the
    table, carries it with the five values as given. *)
Theorem ids_are_given_once :
  ids_fresh new_db /\
  forall d, ids_fresh d ->
    (forall date description amount category trans_type,
       let r := add_transaction d date description amount category trans_type in
       ids_fresh (fst r) /\
       snd r = (last_id d + 1)%Z /\
       (forall t, In t (transactions d) -> (id t < snd r)%Z) /\
       transactions (fst r) =
         (transactions d ++
          [mk_transaction (snd r) date description amount category trans_type])%list /\
       categories (fst r) = categories d) /\
    (forall i d', delete_transaction d i = Ok d' -> ids_fresh d') /\
    (forall c l d', update_budget_limit d c l = Ok d' -> ids_fresh d') /\
    ids_fresh (_initialize_default_categories d).
Proof.
  split; [split; constructor|].
  intros d H. split; [|split; [|split]].
  - intros date description amount category trans_type. cbv zeta.
    split; [now apply add_transaction_fresh|]. split; [reflexivity|].
    split; [|split; reflexivity].
    intros t Ht. destruct H as [_ F]. rewrite Forall_forall in F.
    specialize (F t Ht). simpl. lia.
  - intros i d' E. inversion E; subst. destruct H as [N F]. split; simpl.
    + now apply ids_of_filter.
    + apply Forall_forall. intros t Ht. apply filter_In in Ht.
      rewrite Forall_forall in F. now apply F.
  - intros c l d' E. inversion E; subst. exact H.
  - exact H.
Qed.

Lemma ids_are_given_once_witness :
  ids_fresh (fst (add_transaction new_db "2024-01-05" "Coffee" 3.5 "Food & Dining" "expense")).
Proof.
  destruct ids_are_given_once as [H0 H].
  exact (proj1 (proj1 (H new_db H0)
                  "2024-01-05" "Coffee" 3.5%Q "Food & Dining" "expense")).
Defined.

Lemma filter_drops_last (ts : list transaction) (t : transaction) :
  (forall x, In x ts -> id x <> id t) ->
  filter (fun x => negb (id x =? id t)%Z) (ts ++ [t]) = ts.
Proof.
  intros H. rewrite filter_app. simpl. rewrite Z.eqb_refl. simpl.
  rewrite app_nil_r. apply filter_all.
  intros x Hx. apply negb_true_iff, Z.eqb_neq. now apply H.
Qed.

(** X9. [add_transaction] followed by [delete_transaction] of the id it
    returned gives back the transactions and the categories the store
    had, in a store with fresh ids; only the last id given stays
    advanced, so the next transaction gets a new id, not the deleted
    one. *)
Theorem add_then_delete d date description amount category trans_type :
  ids_fresh d ->
  let r := add_transaction d date description amount category trans_type in
  let restored := mk_db (transactions d) (categories d) (last_id d + 1) in
  delete_transaction (fst r) (snd r) = Ok restored /\
  forall date' description' amount' category' trans_type',
    snd (add_transaction restored date' description' amount' category' trans_type') =
    (snd r + 1)%Z.
Proof.
  intros [N F]. cbv zeta. split; [|reflexivity].
  unfold delete_transaction, add_transaction. simpl. f_equal. f_equal.
  apply (filter_drops_last (transactions d)
           (mk_transaction (last_id d + 1) date description amount category trans_type)).
  intros x Hx. rewrite Forall_forall in F. specialize (F x Hx). simpl. lia.
Qed.

Lemma add_then_delete_witness :
  delete_transaction
    (fst (add_transaction new_db "2024-01-05" "Coffee" 3.5 "Food & Dining" "expense"))
    (snd (add_transaction new_db "2024-01-05" "Coffee" 3.5 "Food & Dining" "expense")) =
  Ok (mk_db (transactions new_db) (categories new_db) (last_id new_db + 1)).
Proof.
  apply (add_then_delete new_db "2024-01-05" "Coffee" 3.5%Q "Food & Dining" "expense").
  split; constructor.
Defined.

(** *** Budget limits *)

Lemma update_names (cs : list category_row) c l :
  map name (map (fun r => if String.eqb (name r) c
                          then mk_category (name r) l (cat_type r) else r) cs) =
  map name cs.
Proof.
  rewrite map_map. apply map_ext. intros r. now destruct (String.eqb (name r) c).
Qed.

Lemma update_types (cs : list category_row) c l :
  map cat_type (map (fun r => if String.eqb (name r) c
                              then mk_category (name r) l (cat_type r) else r) cs) =
  map cat_type cs.
Proof.
  rewrite map_map. apply map_ext. intros r. now destruct (String.eqb (name r) c).
Qed.

(** X11. [update_budget_limit] sets the limit of the category of that
    name and nothing else: names, types and the order of the categories
    stay, every other category keeps its limit, the transactions stay,
    and unique names stay unique.  Of two updates of one category the
    last one wins; updates of two different categories give the same
    store in either order.  Afterwards [get_categories] lists the
    category, when the store has it, with the new limit. *)
Theorem update_budget_limit_sets :
  forall d c l,
    exists d', update_budget_limit d c l = Ok d' /\
      map name (categories d') = map name (categories d) /\
      map cat_type (categories d') = map cat_type (categories d) /\
      transactions d' = transactions d /\ last_id d' = last_id d /\
      (forall r, In r (categories d') -> name r = c -> budget_limit r = l) /\
      (forall r, name r <> c -> (In r (categories d') <-> In r (categories d))) /\
      (unique_names d -> unique_names d') /\
      (forall l0, update_budget_limit d' c l0 = update_budget_limit d c l0) /\
      (forall c2 l2 d2 d12 d21,
          c2 <> c ->
          update_budget_limit d c2 l2 = Ok d2 ->
          update_budget_limit d' c2 l2 = Ok d12 ->
          update_budget_limit d2 c l = Ok d21 -> d12 = d21) /\
      (forall l0 ty rows,
          In (mk_category c l0 ty) (categories d) ->
          get_categories d' None (NameLimitType rows) -> In (c, l, ty) rows).
Proof.
  intros d c l. eexists. split; [reflexivity|]. simpl.
  split; [apply update_names|]. split; [apply update_types|].
  split; [reflexivity|]. split; [reflexivity|].
  split; [|split; [|split; [|split; [|split]]]].
  - intros r Hr Hn. apply in_map_iff in Hr. destruct Hr as [r0 [E H0]].
    destruct (String.eqb_spec (name r0) c) as [Ec|Ec]; subst r;
      [reflexivity | congruence].
  - intros r Hn. rewrite in_map_iff. split.
    + intros [r0 [E H0]]. destruct (String.eqb_spec (name r0) c) as [Ec|Ec].
      * subst r. simpl in Hn. congruence.
      * now subst r.
    + intros Hr. exists r. apply String.eqb_neq in Hn. now rewrite Hn.
  - unfold unique_names. simpl. now rewrite update_names.
  - intros l0. unfold update_budget_limit. simpl. f_equal. f_equal.
    rewrite map_map. apply map_ext. intros r.
    destruct (String.eqb (name r) c) eqn:E; simpl; now rewrite E.
  - intros c2 l2 d2 d12 d21 Hc E2 E12 E21.
    inversion E2; subst. inversion E12; subst. inversion E21; subst. simpl.
    f_equal. rewrite !map_map. apply map_ext. intros r.
    destruct (String.eqb (name r) c) eqn:Ec, (String.eqb (name r) c2) eqn:Ec2;
      simpl; rewrite ?Ec, ?Ec2; try reflexivity.
    apply String.eqb_eq in Ec, Ec2. congruence.
  - intros l0 ty rows Hin [rs [[P _] E]]. simpl in E. inversion E; subst.
    apply in_map_iff. exists (mk_category c l ty). split; [reflexivity|].
    apply (Permutation_in _ P). simpl. apply in_map_iff.
    exists (mk_category c l0 ty). simpl. now rewrite String.eqb_refl.
Qed.

(** *** The default categories *)

Lemma insert_or_ignore_names cs c :
  map name (insert_or_ignore cs c) =
  if existsb (String.eqb (name c)) (map name cs) then map name cs
  else (map name cs ++ [name c])%list.
Proof.
  unfold insert_or_ignore.
  assert (E : existsb (fun c' => String.eqb (name c') (name c)) cs =
              existsb (String.eqb (name c)) (map name cs)).
  { induction cs as [|x cs IH]; simpl; [reflexivity|].
    now rewrite IH, (String.eqb_sym (name x)). }
  rewrite E. destruct (existsb _ (map name cs)); [reflexivity|].
  now rewrite map_app.
Qed.

Lemma insert_or_ignore_prefix cs c :
  exists extra, insert_or_ignore cs c = (cs ++ extra)%list /\
                (forall x, In x extra -> x = c /\ ~ In (name c) (map name cs)).
Proof.
  unfold insert_or_ignore.
  destruct (existsb _ cs) eqn:E.
  - exists []. rewrite app_nil_r. split; [reflexivity | contradiction].
  - exists [c]. split; [reflexivity|]. intros x [<-|[]]. split; [reflexivity|].
    intros Hin. apply in_map_iff in Hin. destruct Hin as [y [Hy Hin]].
    assert (existsb (fun c' => String.eqb (name c') (name c)) cs = true).
    { apply existsb_exists. exists y. split; [exact Hin | now apply String.eqb_eq]. }
    congruence.
Qed.

Lemma insert_or_ignore_unique cs c :
  NoDup (map name cs) -> NoDup (map name (insert_or_ignore cs c)).
Proof.
  intros N. destruct (insert_or_ignore_prefix cs c) as [extra [E H]].
  rewrite E. destruct extra as [|x [|y extra]].
  - now rewrite app_nil_r.
  - destruct (H x (or_introl eq_refl)) as [-> Hn].
    rewrite map_app. simpl. apply NoDup_app; [exact N | repeat constructor; simpl; tauto|].
    intros n Hin [<-|[]]. contradiction.
  - exfalso. unfold insert_or_ignore in E.
    destruct (existsb _ cs).
    + apply (f_equal (@List.length _)) in E. rewrite length_app in E. simpl in E. lia.
    + apply app_inv_head in E. discriminate.
Qed.

Lemma insert_all_prefix defaults : forall cs,
  exists extra, fold_left insert_or_ignore defaults cs = (cs ++ extra)%list /\
                (forall x, In x extra -> In x defaults /\ ~ In (name x) (map name cs)).
Proof.
  induction defaults as [|c defaults IH]; intros cs; simpl.
  - exists []. rewrite app_nil_r. split; [reflexivity | contradiction].
  - destruct (insert_or_ignore_prefix cs c) as [e1 [E1 H1]].
    destruct (IH (insert_or_ignore cs c)) as [e2 [E2 H2]].
    exists (e1 ++ e2)%list. split.
    + rewrite E2, E1. now rewrite app_assoc.
    + intros x Hx. apply in_app_or in Hx. destruct Hx as [Hx|Hx].
      * destruct (H1 x Hx) as [-> Hn]. split; [now left | exact Hn].
      * destruct (H2 x Hx) as [Hd Hn]. split; [now right|].
        intros Hin. apply Hn. rewrite E1, map_app. apply in_or_app. now left.
Qed.

Lemma insert_all_unique defaults : forall cs,
  NoDup (map name cs) -> NoDup (map name (fold_left insert_or_ignore defaults cs)).
Proof.
  induction defaults as [|c defaults IH]; intros cs N; simpl; [exact N|].
  apply IH. now apply insert_or_ignore_unique.
Qed.

Lemma insert_all_names defaults : forall cs c,
  In c defaults ->
  In (name c) (map name (fold_left insert_or_ignore defaults cs)).
Proof.
  induction defaults as [|c0 defaults IH]; intros cs c; simpl; [contradiction|].
  assert (keep : forall ds cs' n, In n (map name cs') ->
                   In n (map name (fold_left insert_or_ignore ds cs'))).
  { intros ds cs' n Hn. destruct (insert_all_prefix ds cs') as [extra [E _]].
    rewrite E, map_app. apply in_or_app. now left. }
  intros [->|Hc]; [|now apply IH].
  apply keep. rewrite insert_or_ignore_names.
  destruct (existsb _ (map name cs)) eqn:E.
  - apply existsb_exists in E. destruct E as [n [Hn En]].
    apply String.eqb_eq in En. now subst n.
  - apply in_or_app. right. now left.
Qed.

Lemma insert_all_present defaults : forall cs,
  (forall c, In c defaults -> In (name c) (map name cs)) ->
  fold_left insert_or_ignore defaults cs = cs.
Proof.
  induction defaults as [|c defaults IH]; intros cs H; simpl; [reflexivity|].
  assert (E : insert_or_ignore cs c = cs).
  { unfold insert_or_ignore.
    assert (Hc : In (name c) (map name cs)) by (apply H; now left).
    apply in_map_iff in Hc. destruct Hc as [y [Hy Hin]].
    assert (X : existsb (fun c' => String.eqb (name c') (name c)) cs = true).
    { apply existsb_exists. exists y. split; [exact Hin | now apply String.eqb_eq]. }
    now rewrite X. }
  rewrite E. apply IH. intros c' Hc'. apply H. now right.
Qed.

(** X12. [_initialize_default_categories] adds the default categories
    whose names the store does not have yet, after the categories it
    has, and leaves these as they are, with the limits they have.
    Afterwards the store has each of the ten default names; unique
    names stay unique; a second run changes nothing; and on a store
    without categories the result is the ten defaults, in their order.
    The transactions are not touched. *)
Theorem initialize_keeps_categories :
  forall d,
    (exists extra,
       categories (_initialize_default_categories d) = (categories d ++ extra)%list /\
       forall c, In c extra ->
         In c default_categories /\ ~ In (name c) (map name (categories d))) /\
    (forall c, In c default_categories ->
       In (name c) (map name (categories (_initialize_default_categories d)))) /\
    (unique_names d -> unique_names (_initialize_default_categories d)) /\
    _initialize_default_categories (_initialize_default_categories d) =
      _initialize_default_categories d /\
    (categories d = [] ->
       categories (_initialize_default_categories d) = default_categories) /\
    transactions (_initialize_default_categories d) = transactions d.
Proof.
  intros d. unfold _initialize_default_categories, unique_names.
  cbn [categories transactions last_id].
  split; [apply insert_all_prefix|]. split; [intros c; apply insert_all_names|].
  split; [apply insert_all_unique|]. split; [|split; [|reflexivity]].
  - f_equal. apply insert_all_present. intros c. apply insert_all_names.
  - intros ->. reflexivity.
Qed.

Lemma initialize_keeps_categories_witness :
  unique_names (_initialize_default_categories salary_db) /\
  categories (_initialize_default_categories (mk_db [] [] 0)) = default_categories.
Proof.
  split.
  - apply (proj1 (proj2 (proj2 (initialize_keeps_categories salary_db)))).
    unfold unique_names. simpl. repeat constructor; simpl; intuition discriminate.
  - apply (proj1 (proj2 (proj2 (proj2 (proj2
             (initialize_keeps_categories (mk_db [] [] 0))))))).
    reflexivity.
Defined.

End StoreFacts.

(* ------------------------------------------------------------------ *)
(** ** Totals as the store changes *)

Module TotalFacts.
Import PyStr Py DateTime FinanceDatabase FinanceDatabaseQueries FinanceDatabaseFacts.
Import DateTimeFacts CalendarFacts OrderFacts AlertFacts TextOrderFacts.










(** *** The empty store *)

(** X17. A store without transactions: the summary of every month is 0
    income, 0 expenses and 0 balance, and [get_category_spending],
    [check_budget_alerts] and [get_transactions] return the empty list,
    and only it, for every argument. *)
Theorem nothing_in_an_empty_store d :
  transactions d = [] ->
  (forall y m,
      income (get_monthly_summary d y m) = 0%Q /\
      expenses (get_monthly_summary d y m) = 0%Q /\
      balance (get_monthly_summary d y m) = (0 - 0)%Q) /\
  (forall s e r, get_category_spending d s e r <-> r = []) /\
  (forall y m r, check_budget_alerts d y m r <-> r = []) /\
  (forall s e c r, get_transactions d s e c r <-> r = []).
Proof.
  intros E.
  assert (nil_only : forall (A : Type) (R : A -> A -> Prop) (r : list A),
             Permutation [] r /\ StronglySorted R r <-> r = []).
  { intros A R r. split.
    - intros [P _]. now apply Permutation_nil.
    - intros ->. split; constructor. }
  split; [|split; [|split]].
  - intros y m. unfold get_monthly_summary. rewrite E. simpl. auto.
  - intros s e r. unfold get_category_spending, sql_order_by_desc, spending_rows.
    rewrite E. simpl. apply nil_only.
  - intros y m r.
    assert (G : alert_groups d y m = []).
    { unfold alert_groups, joined_rows. rewrite E. reflexivity. }
    unfold check_budget_alerts, sql_order_by_desc_real, alert_rows. rewrite G. split.
    + intros (rows & (found & F & ->) & P & _). inversion F; subst.
      now apply Permutation_nil.
    + intros ->. exists []. split; [exists []; split; [constructor | reflexivity]|].
      split; constructor.
  - intros s e c r. unfold get_transactions, sql_order_by_text_desc.
    rewrite E. simpl. apply nil_only.
Qed.

Lemma nothing_in_an_empty_store_witness :
  income (get_monthly_summary new_db 2024 5) = 0%Q /\
  check_budget_alerts new_db 2024 5 [].
Proof.
  destruct (nothing_in_an_empty_store new_db eq_refl) as (S & _ & A & _).
  split; [apply (S 2024%Z 5%Z) | now apply A].
Defined.

End TotalFacts.

(* ------------------------------------------------------------------ *)
(** ** From the records of the file to the rows *)

Module CSVReaderFacts.
Import PyStr PyFloat Py Categorizer Normalizer CSVImporter CSVReader CSVImporterFacts.

(** *** Looking a column up *)

Lemma row_get_absent fieldnames : forall r key default,
  ~ In key fieldnames -> row_get (zip_row fieldnames r) key default = default.
Proof.
  induction fieldnames as [|k ks IH]; intros r key default H; [reflexivity|].
  assert (Hk : String.eqb k key = false).
  { apply String.eqb_neq. intros ->. apply H. now left. }
  assert (Hks : ~ In key ks) by (intros Hin; apply H; now right).
  destruct r as [|v vs]; simpl; rewrite Hk; now apply IH.
Qed.

Lemma row_get_at fieldnames : forall r key default i,
  NoDup fieldnames -> nth_error fieldnames i = Some key ->
  row_get (zip_row fieldnames r) key default = nth_error r i.
Proof.
  induction fieldnames as [|k ks IH]; intros r key default i N H.
  - destruct i; discriminate.
  - inversion N as [|? ? Hk N']; subst. destruct i as [|i]; simpl in H.
    + inversion H; subst key.
      destruct r as [|v vs]; simpl; rewrite String.eqb_refl;
        now rewrite row_get_absent.
    + assert (Hne : String.eqb k key = false).
      { apply String.eqb_neq. intros ->. apply Hk. eapply nth_error_In; eauto. }
      destruct r as [|v vs]; simpl; rewrite Hne.
      * rewrite (IH [] key default i N' H). now destruct i.
      * now apply IH.
Qed.

(** X18. What [row.get(column, default)] gives on a row of
    [csv.DictReader] whose header has no name twice: for a column that
    is not in the header, the default; for the column at place [i] of
    the header, the field at place [i] of the line, and [None], not the
    default, when the line is too short to have one. *)
Theorem dict_reader_lookup fieldnames r key default :
  NoDup fieldnames ->
  (~ In key fieldnames -> row_get (zip_row fieldnames r) key default = default) /\
  (forall i, nth_error fieldnames i = Some key ->
     row_get (zip_row fieldnames r) key default = nth_error r i).
Proof.
  intros N. split.
  - apply row_get_absent.
  - intros i. now apply row_get_at.
Qed.

Lemma dict_reader_lookup_witness :
  row_get (zip_row ["Date"; "Description"; "Amount"] ["2024-01-05"; "Coffee"])
          "Amount" (Some "0") = None /\
  row_get (zip_row ["Date"; "Description"] ["2024-01-05"; "Coffee"])
          "Amount" (Some "0") = Some "0".
Proof.
  assert (N3 : NoDup ["Date"; "Description"; "Amount"])
    by (repeat constructor; simpl; intuition discriminate).
  assert (N2 : NoDup ["Date"; "Description"])
    by (repeat constructor; simpl; intuition discriminate).
  split.
  - apply (proj2 (dict_reader_lookup ["Date"; "Description"; "Amount"]
                    ["2024-01-05"; "Coffee"] "Amount" (Some "0") N3) 2).
    reflexivity.
  - apply (proj1 (dict_reader_lookup ["Date"; "Description"]
                    ["2024-01-05"; "Coffee"] "Amount" (Some "0") N2)).
    simpl. intuition discriminate.
Defined.

(** *** The loop *)

Lemma parse_fields_row a b c :
  parse_fields (Some a) (Some b) (Some c) =
  match parse_row (mk_row a b c) with
  | inl t => Append t
  | inr line => Skip line
  end.
Proof.
  unfold parse_fields, parse_row. cbn [date_str row_description amount_str].
  destruct (_parse_date a); [|reflexivity].
  destruct (_parse_amount c); reflexivity.
Qed.

Lemma parse_loop_app l1 : forall l2 ts out,
  parse_loop (l1 ++ l2) ts out =
  match parse_loop l1 ts out with
  | (inl ts', out') => parse_loop l2 ts' out'
  | (inr e, out') => (inr e, out')
  end.
Proof.
  induction l1 as [|x l1 IH]; intros l2 ts out; [reflexivity|].
  destruct x as [[[d de] a]|e]; simpl; [|reflexivity].
  destruct (parse_fields d de a); [apply IH | apply IH | reflexivity].
Qed.

Lemma parse_loop_rows (rows : list row) : forall ts out,
  parse_loop
    (map (fun r => inl (Some (date_str r), Some (row_description r), Some (amount_str r)))
         rows) ts out =
  (inl (ts ++ accepted rows)%list, (out ++ skipped rows)%list).
Proof.
  induction rows as [|r rows IH]; intros ts out.
  - simpl. now rewrite !app_nil_r.
  - destruct r as [a b c].
    cbn [map parse_loop date_str row_description amount_str].
    rewrite parse_fields_row.
    unfold accepted, skipped in *. cbn [flat_map].
    destruct (parse_row (mk_row a b c)) as [t|line]; rewrite IH; simpl;
      now rewrite <- ?app_assoc.
Qed.

Lemma positional_full (r : record) :
  3 <= List.length r ->
  positional_fields r =
  inl (Some (date_str (row_of_record r)), Some (row_description (row_of_record r)),
       Some (amount_str (row_of_record r))).
Proof.
  destruct r as [|a [|b [|c r]]]; simpl; intros H; try lia. reflexivity.
Qed.

Lemma positional_short (r : record) :
  List.length r < 3 -> positional_fields r = inr IndexError.
Proof.
  destruct r as [|a [|b [|c r]]]; simpl; intros H; try lia; reflexivity.
Qed.

Lemma positional_map (records : list record) :
  Forall (fun r : record => 3 <= List.length r) records ->
  map positional_fields records =
  map (fun r => inl (Some (date_str r), Some (row_description r), Some (amount_str r)))
      (map row_of_record records).
Proof.
  induction 1 as [|r rs Hr _ IH]; simpl; [reflexivity|].
  now rewrite positional_full, IH.
Qed.

(** X19. [parse_csv] without a header ([skip_header=False]) reads the
    first three fields of every record, the first line of the file
    included.  When every record has at least three fields, the result
    is that of the loop over these rows: the transactions of the rows
    that parse, and a printed line for every other row.  A record with
    fewer than three fields, a blank line included, ends the call with
    IndexError when its turn comes: no list is returned, the lines
    printed are those of the records before it, and
    [import_transactions] adds nothing to the store, not even the
    transactions of the records before it. *)
Theorem positional_rows :
  forall (records : list record) date_col desc_col amount_col,
    (Forall (fun r : record => 3 <= List.length r) records ->
       parse_csv_file records date_col desc_col amount_col false =
       (inl (accepted (map row_of_record records)),
        skipped (map row_of_record records))) /\
    (forall (before : list record) (r : record) (after : list record),
       records = (before ++ r :: after)%list ->
       Forall (fun r : record => 3 <= List.length r) before ->
       List.length r < 3 ->
       parse_csv_file records date_col desc_col amount_col false =
         (inr IndexError, skipped (map row_of_record before)) /\
       forall store add_transaction db,
         import_file store add_transaction db records date_col desc_col amount_col false =
         (inr IndexError, db, skipped (map row_of_record before))).
Proof.
  intros records date_col desc_col amount_col. split.
  - intros H. unfold parse_csv_file. cbv iota. rewrite (positional_map records H).
    now rewrite parse_loop_rows.
  - intros before r after -> Hb Hr.
    assert (E : parse_csv_file (before ++ r :: after) date_col desc_col amount_col false =
                (inr IndexError, skipped (map row_of_record before))).
    { unfold parse_csv_file. cbv iota. rewrite map_app, parse_loop_app.
      rewrite (positional_map before Hb), parse_loop_rows. simpl.
      now rewrite (positional_short r Hr). }
    split; [exact E|]. intros store add_transaction db.
    unfold import_file. now rewrite E.
Qed.

Lemma positional_rows_witness :
  parse_csv_file [["2024-01-05"; "Starbucks coffee"; "-3.50"]; []; ["2024-01-06"; "Bus"; "-2"]]
    "Date" "Description" "Amount" false =
  (inr IndexError,
   skipped (map row_of_record [["2024-01-05"; "Starbucks coffee"; "-3.50"]])).
Proof.
  apply (proj2 (positional_rows
                  [["2024-01-05"; "Starbucks coffee"; "-3.50"]; []; ["2024-01-06"; "Bus"; "-2"]]
                  "Date" "Description" "Amount")
               [["2024-01-05"; "Starbucks coffee"; "-3.50"]] [] [["2024-01-06"; "Bus"; "-2"]]).
  - reflexivity.
  - repeat constructor.
  - simpl. lia.
Defined.

(** *** A header that lacks a column *)

Lemma parse_loop_no_date (rows : list dict_row) date_col desc_col amount_col :
  (forall row, In row rows -> row_get row date_col (Some "") = Some "") ->
  forall ts out,
    parse_loop (map (named_fields date_col desc_col amount_col) rows) ts out =
    (inl ts, (out ++ repeat "Skipping row with invalid date: " (List.length rows))%list).
Proof.
  induction rows as [|row rows IH]; intros H ts out; simpl.
  - now rewrite app_nil_r.
  - rewrite (H row (or_introl eq_refl)).
    assert (E : parse_fields (Some "") (row_get row desc_col (Some ""))
                  (row_get row amount_col (Some "0")) =
                Skip "Skipping row with invalid date: ") by reflexivity.
    rewrite E, IH by (intros; apply H; now right).
    now rewrite <- app_assoc.
Qed.

Lemma zero_amount_step d de t :
  parse_fields d de (Some "0") = Append t ->
  trans_type t = "expense" /\ feq (amount t) (Fin 0).
Proof.
  unfold parse_fields. destruct d as [ds|]; [|discriminate].
  destruct (_parse_date ds); [|discriminate].
  assert (E : _parse_amount "0" = Ok (Fin 0)) by (vm_compute; reflexivity).
  rewrite E. destruct de as [desc|]; [|discriminate].
  intros H. inversion H; subst. simpl. split; reflexivity.
Qed.

Lemma parse_loop_zero (rows : list dict_row) date_col desc_col amount_col :
  (forall row, In row rows -> row_get row amount_col (Some "0") = Some "0") ->
  forall ts out ts' out',
    Forall (fun t => trans_type t = "expense" /\ feq (amount t) (Fin 0)) ts ->
    parse_loop (map (named_fields date_col desc_col amount_col) rows) ts out =
      (inl ts', out') ->
    Forall (fun t => trans_type t = "expense" /\ feq (amount t) (Fin 0)) ts'.
Proof.
  induction rows as [|row rows IH]; intros H ts out ts' out' Hts; simpl.
  - intros E. inversion E; subst. exact Hts.
  - rewrite (H row (or_introl eq_refl)).
    destruct (parse_fields (row_get row date_col (Some ""))
                (row_get row desc_col (Some "")) (Some "0")) as [t|line|e] eqn:S.
    + apply IH; [intros; apply H; now right|].
      apply Forall_app. split; [exact Hts|]. constructor; [|constructor].
      eapply zero_amount_step; eauto.
    + apply IH; [intros; apply H; now right | exact Hts].
    + discriminate.
Qed.

Lemma dict_rows_in header rest row :
  In row (dict_rows (header :: rest)) -> exists r, row = zip_row header r.
Proof.
  simpl. rewrite in_map_iff. intros [r [<- _]]. eauto.
Qed.

(** X20. [parse_csv] with a header that lacks a column.  When no field
    name is the date column, the date of every row is the default, the
    empty text, which does not parse: the result is the empty list, and
    one line "Skipping row with invalid date: " is printed for every
    record that is not blank.  When no field name is the amount column,
    the amount of every row is the default "0": every transaction of
    the result is an expense of amount 0. *)
Theorem missing_column_defaults :
  forall header rest date_col desc_col amount_col,
    (~ In date_col header ->
       parse_csv_file (header :: rest) date_col desc_col amount_col true =
       (inl [],
        repeat "Skipping row with invalid date: "
               (List.length (filter (fun r => negb (is_blank r)) rest)))) /\
    (~ In amount_col header ->
       forall transactions out,
         parse_csv_file (header :: rest) date_col desc_col amount_col true =
           (inl transactions, out) ->
         Forall (fun t => trans_type t = "expense" /\ feq (amount t) (Fin 0))
                transactions).
Proof.
  intros header rest date_col desc_col amount_col. split.
  - intros H. unfold parse_csv_file.
    rewrite parse_loop_no_date.
    + simpl. now rewrite length_map.
    + intros row Hin. apply dict_rows_in in Hin. destruct Hin as [r ->].
      now apply row_get_absent.
  - intros H transactions out E. unfold parse_csv_file in E.
    eapply parse_loop_zero; [|constructor|exact E].
    intros row Hin. apply dict_rows_in in Hin. destruct Hin as [r ->].
    now apply row_get_absent.
Qed.

Lemma missing_column_defaults_witness :
  parse_csv_file [["When"; "What"]; ["2024-01-05"; "Coffee"]; []; ["2024-01-06"; "Bus"]]
    "Date" "What" "Amount" true =
  (inl [], repeat "Skipping row with invalid date: "
             (List.length (filter (fun r => negb (is_blank r))
                             [["2024-01-05"; "Coffee"]; []; ["2024-01-06"; "Bus"]]))).
Proof.
  apply (proj1 (missing_column_defaults ["When"; "What"]
                  [["2024-01-05"; "Coffee"]; []; ["2024-01-06"; "Bus"]]
                  "Date" "What" "Amount")).
  simpl. intuition discriminate.
Defined.

(** *** A line shorter than the header *)

(** X21. [parse_csv] with a header, on a line that is not blank and is
    shorter than the header, whose names differ.  When the line has no
    field for the date column, [None] is read, and the row is skipped
    with the line "Skipping row with invalid date: None"; when it has a
    date that parses and no field for the amount column, it is skipped
    with "Skipping row with invalid amount: None".  When its date and
    its amount parse and it has no field for the description column,
    the call ends with AttributeError: no list is returned, and
    [import_transactions] adds nothing to the store, whatever the rows
    before and after. *)
Theorem short_line_under_a_header
    header (r : record) date_col desc_col amount_col i j k :
  NoDup header ->
  nth_error header i = Some date_col ->
  nth_error header j = Some desc_col ->
  nth_error header k = Some amount_col ->
  r <> [] ->
  let row := zip_row header r in
  named_fields date_col desc_col amount_col row =
    inl (nth_error r i, nth_error r j, nth_error r k) /\
  (List.length r <= i ->
     parse_fields (nth_error r i) (nth_error r j) (nth_error r k) =
     Skip "Skipping row with invalid date: None") /\
  (forall ds date,
     nth_error r i = Some ds -> _parse_date ds = Ok date -> List.length r <= k ->
     parse_fields (nth_error r i) (nth_error r j) (nth_error r k) =
     Skip "Skipping row with invalid amount: None") /\
  (forall ds date s a,
     nth_error r i = Some ds -> _parse_date ds = Ok date ->
     nth_error r k = Some s -> _parse_amount s = Ok a ->
     List.length r <= j ->
     parse_fields (nth_error r i) (nth_error r j) (nth_error r k) = Abort AttributeError /\
     forall (before after : list record) transactions out,
       parse_csv_file (header :: before) date_col desc_col amount_col true =
         (inl transactions, out) ->
       parse_csv_file (header :: before ++ r :: after) date_col desc_col amount_col true =
         (inr AttributeError, out) /\
       forall store add_transaction db,
         import_file store add_transaction db (header :: before ++ r :: after)
           date_col desc_col amount_col true =
         (inr AttributeError, db, out)).
Proof.
  intros N Hi Hj Hk Hr. cbv zeta.
  assert (F : named_fields date_col desc_col amount_col (zip_row header r) =
              inl (nth_error r i, nth_error r j, nth_error r k)).
  { unfold named_fields.
    now rewrite (row_get_at header r date_col _ i N Hi),
                (row_get_at header r desc_col _ j N Hj),
                (row_get_at header r amount_col _ k N Hk). }
  split; [exact F|]. split; [|split].
  - intros L. apply nth_error_None in L. now rewrite L.
  - intros ds date Ei Ed L. apply nth_error_None in L.
    rewrite Ei, L. unfold parse_fields. now rewrite Ed.
  - intros ds date s a Ei Ed Ek Ea L. apply nth_error_None in L.
    assert (S : parse_fields (nth_error r i) (nth_error r j) (nth_error r k) =
                Abort AttributeError).
    { rewrite Ei, Ek, L. unfold parse_fields. now rewrite Ed, Ea. }
    split; [exact S|].
    intros before after transactions out E.
    assert (E' : parse_csv_file (header :: before ++ r :: after)
                   date_col desc_col amount_col true = (inr AttributeError, out)).
    { unfold parse_csv_file in *. cbv iota in *. cbn [dict_rows] in *.
      rewrite filter_app, map_app, map_app, parse_loop_app, E.
      destruct r as [|v vs]; [congruence|].
      cbn [filter is_blank negb map parse_loop]. rewrite F. now rewrite S. }
    split; [exact E'|]. intros store add_transaction db.
    unfold import_file. now rewrite E'.
Qed.

Lemma short_line_under_a_header_witness :
  named_fields "Date" "Description" "Amount"
    (zip_row ["Date"; "Amount"; "Description"] ["2024-01-05"; "-3.50"]) =
  inl (nth_error ["2024-01-05"; "-3.50"] 0, nth_error ["2024-01-05"; "-3.50"] 2,
       nth_error ["2024-01-05"; "-3.50"] 1) /\
  parse_fields (nth_error ["2024-01-05"; "-3.50"] 0) (nth_error ["2024-01-05"; "-3.50"] 2)
    (nth_error ["2024-01-05"; "-3.50"] 1) = Abort AttributeError.
Proof.
  assert (N : NoDup ["Date"; "Amount"; "Description"])
    by (repeat constructor; simpl; intuition discriminate).
  destruct (short_line_under_a_header ["Date"; "Amount"; "Description"]
              ["2024-01-05"; "-3.50"] "Date" "Description" "Amount" 0 2 1
              N eq_refl eq_refl eq_refl ltac:(discriminate)) as (F & _ & _ & A).
  split; [exact F|].
  refine (proj1 (A "2024-01-05" _ "-3.50" _ eq_refl _ eq_refl _ _)).
  - vm_compute. reflexivity.
  - vm_compute. reflexivity.
  - simpl. lia.
Defined.

End CSVReaderFacts.

(* ------------------------------------------------------------------ *)
(** ** The import of a file *)

Module ImportFileFacts.
Import PyStr PyFloat Py Categorizer Normalizer CSVImporter CSVReader.
Import CSVImporterFacts CSVReaderFacts.

(** *** The loop over the transactions *)




(** *** The rows under a header *)






End ImportFileFacts.

(* ------------------------------------------------------------------ *)
(** ** What [_parse_date] returns, and what it refuses *)

Module DateOutputFacts.
Import PyStr Py DateTime Normalizer PyStrFacts DateTimeFacts ParseDateFacts.

Lemma strptime_valid s f dt : strptime s f = Ok dt -> valid_date dt = true.
Proof.
  unfold strptime.
  destruct (regex_match f s (mk_datetime 1900 1 1)) as [[found [|a r]]|];
    try discriminate.
  destruct (valid_date found) eqn:E; [|discriminate].
  intros H. inversion H; subst. exact E.
Qed.

Lemma strptime_invalid s f dt :
  regex_match f s (mk_datetime 1900 1 1) = Some (dt, "") -> valid_date dt = false ->
  strptime s f = Raise ValueError.
Proof. intros H Hv. unfold strptime. now rewrite H, Hv. Qed.

Lemma parse_date_is_canonical_parts s c :
  _parse_date s = Ok c -> exists dt, valid_date dt = true /\ c = strftime_iso dt.
Proof.
  intros H. unfold _parse_date in H.
  apply try_formats_ok in H. destruct H as (b & f & a & dt & _ & _ & Hf & ->).
  exists dt. split; [exact (strptime_valid _ _ _ Hf) | reflexivity].
Qed.

Lemma length_append a b : String.length (a ++ b) = String.length a + String.length b.
Proof. induction a as [|c a IH]; simpl; [reflexivity | now rewrite IH]. Qed.

(** Before the year 1000, what [strftime] writes is shorter than ten
    characters. *)
Lemma short_year_text dt :
  valid_date dt = true -> year dt < 1000 -> String.length (strftime_iso dt) < 10.
Proof.
  intros Hv Hy.
  assert (A : forallb (fun y => String.length (year_text y) <? 4) (seq 1 999) = true)
    by (vm_compute; reflexivity).
  destruct dt as [y m d]. cbn [DateTime.year] in Hy.
  pose proof (rendered_bounds y m d Hv) as (By & _).
  rewrite forallb_forall in A.
  assert (Iy : In y (seq 1 999)) by (apply in_seq; lia).
  pose proof (A y Iy) as L. apply Nat.ltb_lt in L.
  unfold strftime_iso. cbn [DateTime.year DateTime.month DateTime.day].
  rewrite length_append.
  change (String.length ("-" ++ render2 m ++ "-" ++ render2 d)) with 6. lia.
Qed.

(** X22. A date [_parse_date] returns is what [strftime] writes for a
    date of the calendar.  From the year 1000 on it is the canonical
    text, ten characters long, and [_parse_date] maps it to itself:
    parsing a second time changes nothing.  Before the year 1000 it
    is shorter than ten characters. *)
Theorem parse_date_is_canonical (s c : string) :
  _parse_date s = Ok c ->
  exists dt, valid_date dt = true /\ c = strftime_iso dt /\
             (1000 <= year dt ->
              c = iso_text dt /\ String.length c = 10 /\ _parse_date c = Ok c) /\
             (year dt < 1000 -> String.length c < 10).
Proof.
  intros H. destruct (parse_date_is_canonical_parts s c H) as (dt & Hv & ->).
  exists dt. split; [exact Hv|]. split; [reflexivity|]. split.
  - intros Hy. rewrite (strftime_iso_canonical dt Hv Hy).
    split; [reflexivity|]. split; [reflexivity|].
    rewrite <- (strftime_iso_canonical dt Hv Hy) at 2.
    destruct dt as [y m d]. apply (parse_ymd_dash y m d Hv).
  - now apply short_year_text.
Qed.

Lemma parse_date_is_canonical_witness :
  _parse_date "January 5, 2024" = Ok "2024-01-05" /\
  _parse_date "2024-01-05" = Ok "2024-01-05".
Proof.
  assert (E : _parse_date "January 5, 2024" = Ok "2024-01-05")
    by (vm_compute; reflexivity).
  split; [exact E|].
  destruct (parse_date_is_canonical "January 5, 2024" "2024-01-05" E)
    as (dt & _ & _ & Hlong & Hshort).
  destruct (le_lt_dec 1000 (year dt)) as [Hy|Hy].
  - exact (proj2 (proj2 (Hlong Hy))).
  - exfalso. pose proof (Hshort Hy) as L. cbn in L. lia.
Defined.

(** *** Days the month does not have *)

Lemma no_name_on_digit d fmt k t acc :
  d = db \/ d = dB -> k < 10 ->
  regex_match (d :: fmt) (String (digit_char k) t) acc = None.
Proof.
  intros Hd Hk.
  assert (E : forall names, names = month_abbr \/ names = month_name ->
              re_names names (String (digit_char k) t) = []).
  { intros names Hn.
    do 10 (destruct k as [|k]; [destruct Hn as [-> | ->]; reflexivity|]). lia. }
  destruct Hd as [-> | ->].
  - rewrite (regex_match_names db month_abbr) by auto. now rewrite E by auto.
  - rewrite (regex_match_names dB month_name) by auto. now rewrite E by auto.
Qed.

Lemma no_name_on_render2 d fmt n s acc :
  d = db \/ d = dB -> n < 100 ->
  regex_match (d :: fmt) (render2 n ++ s) acc = None.
Proof.
  intros Hd Hn. rewrite render2_app. apply no_name_on_digit; [exact Hd|].
  apply Nat.Div0.div_lt_upper_bound. lia.
Qed.

Lemma no_name_on_render4 d fmt y s acc :
  d = db \/ d = dB -> y < 100 * 100 ->
  regex_match (d :: fmt) (render4 y ++ s) acc = None.
Proof.
  intros Hd Hy. rewrite render4_app. apply no_name_on_render2; [exact Hd|].
  apply Nat.Div0.div_lt_upper_bound. lia.
Qed.

(** The full names do not match an abbreviated name followed by a
    space, May apart. *)
Lemma no_full_on_abbr m fmt r acc :
  1 <= m <= 12 -> m <> 5 ->
  regex_match (dB :: fmt) (nth (m - 1) abbr_names "" ++ String " " r) acc = None.
Proof.
  intros Hm H5. rewrite (regex_match_names dB month_name) by auto.
  destruct m as [|m]; [lia|].
  do 12 (destruct m as [|m];
         [try (exfalso; apply H5; reflexivity); reflexivity|]).
  lia.
Qed.

Lemma impossible_invalid y m d :
  days_in_month y m < d -> valid_date (mk_datetime y m d) = false.
Proof.
  intros Hd. unfold valid_date. cbn [DateTime.year DateTime.month DateTime.day].
  replace (d <=? days_in_month y m) with false
    by (symmetry; apply Nat.leb_gt; lia).
  now rewrite andb_false_r.
Qed.

Lemma impossible_day y m d : days_in_month y m < d <= 31 -> 13 <= d <= 31.
Proof. intros Hd. pose proof (days_in_month_ge y m). lia. Qed.

Lemma impossible_month y m d : days_in_month y m < d <= 31 -> m <> 5.
Proof. intros Hd ->. cbn in Hd. lia. Qed.

Lemma year_valid y d :
  1 <= y < 100 * 100 -> 1 <= d <= 31 -> valid_date (mk_datetime y 1 d) = true.
Proof.
  intros Hy Hd. unfold valid_date.
  cbn [DateTime.year DateTime.month DateTime.day days_in_month].
  rewrite MAXYEAR_eq, !andb_true_iff, !Nat.leb_le. lia.
Qed.

Lemma month_valid y m :
  1 <= y < 100 * 100 -> 1 <= m <= 12 -> valid_date (mk_datetime y m 1) = true.
Proof.
  intros Hy Hm. unfold valid_date. cbn [DateTime.year DateTime.month DateTime.day].
  rewrite MAXYEAR_eq, !andb_true_iff, !Nat.leb_le.
  pose proof (days_in_month_ge y m). lia.
Qed.

Section Impossible.
Variables y m d : nat.
Hypothesis Hy : 1 <= y < 100 * 100.
Hypothesis Hm : 1 <= m <= 12.
Hypothesis Hd : 13 <= d <= 31.

Lemma strip_texts c :
  strip (ymd y m d c) = ymd y m d c /\
  strip (mdy y m d c) = mdy y m d c /\
  strip (dmy y m d c) = dmy y m d c /\
  strip (nth (m - 1) abbr_names "" ++ after_name y d) =
    nth (m - 1) abbr_names "" ++ after_name y d /\
  strip (nth (m - 1) full_names "" ++ after_name y d) =
    nth (m - 1) full_names "" ++ after_name y d.
Proof using Hy Hm Hd.
  assert (K2 : forall n, n <= 31 -> keeps (render2 n))
    by (intros; apply keeps_render2; lia).
  assert (K4 : keeps (render4 y)) by (apply keeps_render4; lia).
  assert (H2 : forall n s, n <= 31 ->
               exists a t, render2 n ++ s = String a t /\ is_space a = false).
  { intros n s Hn. destruct (render2_head n s) as (a & t & E & Ha); [lia|].
    exists a, t. split; [exact E | now apply digit_not_space]. }
  assert (H4 : forall s, exists a t, render4 y ++ s = String a t /\ is_space a = false).
  { intros s. destruct (render4_head y s) as (a & t & E & Ha); [lia|].
    exists a, t. split; [exact E | now apply digit_not_space]. }
  assert (HN : forall names s, names = abbr_names \/ names = full_names ->
               exists a t, nth (m - 1) names "" ++ s = String a t /\ is_space a = false).
  { intros names s Hn. destruct (name_head m names Hm Hn) as (a & t & E & _ & _ & Ha).
    rewrite E. exists a, (t ++ s). auto. }
  assert (KA : keeps (after_name y d)).
  { unfold after_name. apply keeps_cons, keeps_app, keeps_cons, keeps_cons, K4. }
  unfold ymd, mdy, dmy.
  split; [|split; [|split; [|split]]]; apply strip_rendered.
  - apply H4.
  - apply keeps_app, keeps_cons, keeps_app, keeps_cons, K2. lia.
  - apply H2. lia.
  - apply keeps_app, keeps_cons, keeps_app, keeps_cons, K4.
  - apply H2. lia.
  - apply keeps_app, keeps_cons, keeps_app, keeps_cons, K4.
  - apply HN. auto.
  - apply keeps_app, KA.
  - apply HN. auto.
  - apply keeps_app, KA.
Qed.

Variable c : ascii.
Hypothesis Hc : is_digit c = false.

Lemma read_ymd :
  regex_match [dY; lit c; dm; lit c; dd] (ymd y m d c) (mk_datetime 1900 1 1) =
  Some (mk_datetime y m d, "").
Proof using Hy Hm Hd Hc.
  unfold ymd.
  rewrite step_Y, step_lit_ok, step_m_lit by (assumption || lia).
  now rewrite step_d_end by lia.
Qed.

Lemma read_mdy :
  regex_match [dm; lit c; dd; lit c; dY] (mdy y m d c) (mk_datetime 1900 1 1) =
  Some (mk_datetime y m d, "").
Proof using Hy Hm Hd Hc.
  unfold mdy.
  rewrite step_m_lit, step_d_lit by (assumption || lia).
  now rewrite step_Y_end by lia.
Qed.

Lemma read_dmy :
  regex_match [dd; lit c; dm; lit c; dY] (dmy y m d c) (mk_datetime 1900 1 1) =
  Some (mk_datetime y m d, "").
Proof using Hy Hm Hd Hc.
  unfold dmy.
  rewrite step_d_lit, step_m_lit by (assumption || lia).
  now rewrite step_Y_end by lia.
Qed.

(** The month cannot be read where the day stands. *)
Lemma no_month_in_day fmt s :
  regex_match (dm :: lit c :: fmt) (render2 d ++ String c s) (mk_datetime 1900 1 1) =
  None.
Proof using Hy Hm Hd Hc. apply no_m_over12; [exact Hd | exact Hc]. Qed.

Lemma no_month_after_day fmt s :
  regex_match (dd :: lit c :: dm :: lit c :: fmt)
    (render2 m ++ String c (render2 d ++ String c s)) (mk_datetime 1900 1 1) = None.
Proof using Hy Hm Hd Hc.
  rewrite step_d_lit by (assumption || lia).
  apply no_m_over12; [exact Hd | exact Hc].
Qed.
End Impossible.

Ltac refuse lemma := apply strptime_none; apply lemma; auto; lia.

Lemma refused_everywhere s :
  (forall f, In f date_formats -> strptime s f = Raise ValueError) ->
  strip s = s -> _parse_date s = Raise ValueError.
Proof.
  intros H E. unfold _parse_date. rewrite E. now apply try_formats_raise.
Qed.

Lemma each_format (P : list directive -> Prop) :
  P fmt_iso -> P fmt_mdy_slash -> P fmt_dmy_slash -> P fmt_ymd_slash ->
  P fmt_mdy_dash -> P fmt_dmy_dash -> P fmt_abbr -> P fmt_full ->
  forall f, In f date_formats -> P f.
Proof.
  intros H1 H2 H3 H4 H5 H6 H7 H8 f Hf. unfold date_formats in Hf. cbn [In] in Hf.
  destruct Hf as [<-|[<-|[<-|[<-|[<-|[<-|[<-|[<-|[]]]]]]]]]; assumption.
Qed.

Section Refused.
Variables y m d : nat.
Hypothesis Hy : 1 <= y < 100 * 100.
Hypothesis Hm : 1 <= m <= 12.
Hypothesis Hd : days_in_month y m < d <= 31.

Ltac facts Hy Hm Hd :=
  match type of Hd with
  | days_in_month ?y ?m < ?d <= 31 =>
      pose proof (impossible_invalid y m d (proj1 Hd)) as Hinv;
      pose proof (impossible_day y m d Hd) as Hday;
      pose proof (year_valid y d Hy ltac:(lia)) as Hyv;
      pose proof (month_valid y m Hy Hm) as Hmv
  end.

Lemma refused_ymd_dash : _parse_date (ymd y m d "-") = Raise ValueError.
Proof.
  facts Hy Hm Hd.
  apply refused_everywhere; [|apply (strip_texts y m d Hy Hm Hday "-")].
  apply each_format.
  - apply (strptime_invalid _ _ (mk_datetime y m d)); [|exact Hinv].
    now apply (read_ymd y m d Hy Hm Hday).
  - apply strptime_none, (no_md_on_year y 1 d Hyv "/" slash_not_digit).
  - apply strptime_none, (no_md_on_year y 1 d Hyv "/" slash_not_digit).
  - apply strptime_none. unfold fmt_ymd_slash, ymd.
    rewrite step_Y by lia. now apply step_lit_bad.
  - apply strptime_none, (no_md_on_year y 1 d Hyv "-" dash_not_digit).
  - apply strptime_none, (no_md_on_year y 1 d Hyv "-" dash_not_digit).
  - apply strptime_none, no_name_on_render4; [auto | lia].
  - apply strptime_none, no_name_on_render4; [auto | lia].
Qed.

Lemma refused_ymd_slash : _parse_date (ymd y m d "/") = Raise ValueError.
Proof.
  facts Hy Hm Hd.
  apply refused_everywhere; [|apply (strip_texts y m d Hy Hm Hday "/")].
  apply each_format.
  - apply strptime_none. unfold fmt_iso, ymd.
    rewrite step_Y by lia. now apply step_lit_bad.
  - apply strptime_none, (no_md_on_year y 1 d Hyv "/" slash_not_digit).
  - apply strptime_none, (no_md_on_year y 1 d Hyv "/" slash_not_digit).
  - apply (strptime_invalid _ _ (mk_datetime y m d)); [|exact Hinv].
    now apply (read_ymd y m d Hy Hm Hday).
  - apply strptime_none, (no_md_on_year y 1 d Hyv "-" dash_not_digit).
  - apply strptime_none, (no_md_on_year y 1 d Hyv "-" dash_not_digit).
  - apply strptime_none, no_name_on_render4; [auto | lia].
  - apply strptime_none, no_name_on_render4; [auto | lia].
Qed.

Lemma refused_mdy_slash : _parse_date (mdy y m d "/") = Raise ValueError.
Proof.
  facts Hy Hm Hd.
  apply refused_everywhere;
    [|apply (proj1 (proj2 (strip_texts y m d Hy Hm Hday "/")))].
  apply each_format.
  - apply strptime_none, no_year_first; [reflexivity | lia].
  - apply (strptime_invalid _ _ (mk_datetime y m d)); [|exact Hinv].
    now apply (read_mdy y m d Hy Hm Hday).
  - apply strptime_none. now apply (no_month_after_day y m d Hy Hm Hday).
  - apply strptime_none, no_year_first; [reflexivity | lia].
  - apply strptime_none, (no_md_other "/" "-" dash_not_digit); [lia | reflexivity].
  - apply strptime_none, (no_md_other "/" "-" dash_not_digit); [lia | reflexivity].
  - apply strptime_none, no_name_on_render2; [auto | lia].
  - apply strptime_none, no_name_on_render2; [auto | lia].
Qed.

Lemma refused_mdy_dash : _parse_date (mdy y m d "-") = Raise ValueError.
Proof.
  facts Hy Hm Hd.
  apply refused_everywhere;
    [|apply (proj1 (proj2 (strip_texts y m d Hy Hm Hday "-")))].
  apply each_format.
  - apply strptime_none, no_year_first; [reflexivity | lia].
  - apply strptime_none, (no_md_other "-" "/" slash_not_digit); [lia | reflexivity].
  - apply strptime_none, (no_md_other "-" "/" slash_not_digit); [lia | reflexivity].
  - apply strptime_none, no_year_first; [reflexivity | lia].
  - apply (strptime_invalid _ _ (mk_datetime y m d)); [|exact Hinv].
    now apply (read_mdy y m d Hy Hm Hday).
  - apply strptime_none. now apply (no_month_after_day y m d Hy Hm Hday).
  - apply strptime_none, no_name_on_render2; [auto | lia].
  - apply strptime_none, no_name_on_render2; [auto | lia].
Qed.

Lemma refused_dmy_slash : _parse_date (dmy y m d "/") = Raise ValueError.
Proof.
  facts Hy Hm Hd.
  apply refused_everywhere;
    [|apply (proj1 (proj2 (proj2 (strip_texts y m d Hy Hm Hday "/"))))].
  apply each_format.
  - apply strptime_none, no_year_first; [reflexivity | lia].
  - apply strptime_none. now apply (no_month_in_day y m d Hy Hm Hday).
  - apply (strptime_invalid _ _ (mk_datetime y m d)); [|exact Hinv].
    now apply (read_dmy y m d Hy Hm Hday).
  - apply strptime_none, no_year_first; [reflexivity | lia].
  - apply strptime_none, (no_md_other "/" "-" dash_not_digit); [lia | reflexivity].
  - apply strptime_none, (no_md_other "/" "-" dash_not_digit); [lia | reflexivity].
  - apply strptime_none, no_name_on_render2; [auto | lia].
  - apply strptime_none, no_name_on_render2; [auto | lia].
Qed.

Lemma refused_dmy_dash : _parse_date (dmy y m d "-") = Raise ValueError.
Proof.
  facts Hy Hm Hd.
  apply refused_everywhere;
    [|apply (proj1 (proj2 (proj2 (strip_texts y m d Hy Hm Hday "-"))))].
  apply each_format.
  - apply strptime_none, no_year_first; [reflexivity | lia].
  - apply strptime_none, (no_md_other "-" "/" slash_not_digit); [lia | reflexivity].
  - apply strptime_none, (no_md_other "-" "/" slash_not_digit); [lia | reflexivity].
  - apply strptime_none, no_year_first; [reflexivity | lia].
  - apply strptime_none. now apply (no_month_in_day y m d Hy Hm Hday).
  - apply (strptime_invalid _ _ (mk_datetime y m d)); [|exact Hinv].
    now apply (read_dmy y m d Hy Hm Hday).
  - apply strptime_none, no_name_on_render2; [auto | lia].
  - apply strptime_none, no_name_on_render2; [auto | lia].
Qed.

Lemma refused_abbr :
  _parse_date (nth (m - 1) abbr_names "" ++ after_name y d) = Raise ValueError.
Proof.
  facts Hy Hm Hd.
  apply refused_everywhere;
    [|apply (proj1 (proj2 (proj2 (proj2 (strip_texts y m d Hy Hm Hday "-")))))].
  apply each_format.
  1-6: apply strptime_none; apply (no_number_on_name y m 1 Hmv abbr_names); auto.
  - apply (strptime_invalid _ _ (mk_datetime y m d)); [|exact Hinv].
    unfold fmt_abbr, after_name. rewrite step_abbr by lia.
    fold (after_name y d). now rewrite (match_after_name y 1 d Hyv).
  - apply strptime_none. unfold fmt_full, after_name.
    apply no_full_on_abbr; [lia | exact (impossible_month y m d Hd)].
Qed.

Lemma refused_full :
  _parse_date (nth (m - 1) full_names "" ++ after_name y d) = Raise ValueError.
Proof.
  facts Hy Hm Hd.
  apply refused_everywhere;
    [|apply (proj2 (proj2 (proj2 (proj2 (strip_texts y m d Hy Hm Hday "-")))))].
  apply each_format.
  1-6: apply strptime_none; apply (no_number_on_name y m 1 Hmv full_names); auto.
  - apply strptime_none. unfold fmt_abbr, after_name.
    apply no_abbr_on_full; [lia | exact (impossible_month y m d Hd)].
  - apply (strptime_invalid _ _ (mk_datetime y m d)); [|exact Hinv].
    unfold fmt_full, after_name. rewrite step_full by lia.
    fold (after_name y d). now rewrite (match_after_name y 1 d Hyv).
Qed.
End Refused.

(** X23. A day the month does not have is refused, not moved into the
    next month: for a year 1..9999, a month 1..12 and a day above the
    length of the month (and at most 31), the date written in any of
    the eight layouts is rejected by [_parse_date] with ValueError. *)
Theorem impossible_day_is_refused (y m d : nat) :
  1 <= y < 100 * 100 -> 1 <= m <= 12 -> days_in_month y m < d <= 31 ->
  forall fmt, In fmt date_formats ->
    _parse_date (written fmt (mk_datetime y m d)) = Raise ValueError.
Proof.
  intros Hy Hm Hd.
  destruct (written_layouts y m d) as (E1 & E2 & E3 & E4 & E5 & E6 & E7 & E8).
  apply each_format.
  - rewrite E1. now apply refused_ymd_dash.
  - rewrite E2. now apply refused_mdy_slash.
  - rewrite E3. now apply refused_dmy_slash.
  - rewrite E4. now apply refused_ymd_slash.
  - rewrite E5. now apply refused_mdy_dash.
  - rewrite E6. now apply refused_dmy_dash.
  - rewrite E7. now apply refused_abbr.
  - rewrite E8. now apply refused_full.
Qed.

Lemma impossible_day_is_refused_witness :
  _parse_date "2023-02-29" = Raise ValueError /\
  _parse_date "April 31, 2024" = Raise ValueError.
Proof.
  split.
  - refine (impossible_day_is_refused 2023 2 29 _ _ _ fmt_iso _); [lia | lia | | ].
    + change (days_in_month 2023 2) with 28. lia.
    + cbn; tauto.
  - refine (impossible_day_is_refused 2024 4 31 _ _ _ fmt_full _); [lia | lia | | ].
    + change (days_in_month 2024 4) with 30. lia.
    + cbn; tauto.
Defined.

End DateOutputFacts.

(* ------------------------------------------------------------------ *)
(** ** What reaches the store: imported rows and rows typed in *)

Module EntryFacts.
Import PyStr PyFloat Py FloatOfString DateTime Categorizer Normalizer CSVImporter.
Import CSVReader FinanceTrackerApp.
Import CategorizerFacts PyStrFacts ParseDateFacts KeywordFacts AmountFacts DateOutputFacts.

(** *** Amounts and their sign *)

Lemma fabs_not_negative a :
  (forall q, fabs a = Fin q -> (0 <= q)%Q) /\ fabs a <> NInf.
Proof.
  destruct a as [q| | |]; cbn [fabs]; split; try discriminate.
  intros q' H. inversion H; subst. apply Qabs_nonneg.
Qed.

Lemma gt0_fabs a : gt0 a = true -> gt0 (fabs a) = true.
Proof.
  destruct a as [q| | |]; cbn [fabs gt0]; try (intros H; first [exact H | discriminate H]).
  intros H. apply negb_true_iff in H. apply negb_true_iff.
  destruct (Qle_bool (Qabs q) 0) eqn:E; [|reflexivity].
  apply Qle_bool_iff in E.
  assert (L : (q <= 0)%Q) by (eapply Qle_trans; [apply Qle_Qabs | exact E]).
  apply Qle_bool_iff in L. congruence.
Qed.

Lemma not_gt0_fneg_fabs a : gt0 (fneg (fabs a)) = false.
Proof.
  destruct a as [q| | |]; cbn [fabs fneg gt0]; try reflexivity.
  apply negb_false_iff, Qle_bool_iff.
  pose proof (Qabs_nonneg q) as H.
  apply Qopp_le_compat in H. exact H.
Qed.

(** *** The loop of [parse_csv] *)

Lemma parse_fields_normalised ds d s t :
  parse_fields ds d s = Append t -> normalised t.
Proof.
  unfold parse_fields.
  destruct ds as [ds|]; [|discriminate].
  destruct (_parse_date ds) as [c|e] eqn:Ed; [|discriminate].
  destruct s as [s|]; [|discriminate].
  destruct (_parse_amount s) as [a|e]; [|discriminate].
  destruct d as [d|]; [|discriminate].
  intros H. inversion H; subst; clear H. unfold normalised.
  cbn [date description amount category trans_type].
  destruct (parse_date_is_canonical_parts ds c Ed) as (dt & Hv & Hc).
  split; [exists dt; auto|].
  split; [apply fabs_not_negative|]. split; [apply fabs_not_negative|].
  split; [|apply default_suggestion_known].
  destruct (gt0 a) eqn:G.
  - left. split; [reflexivity | now apply gt0_fabs].
  - right. split; [reflexivity|].
    cbn [String.eqb Ascii.eqb Bool.eqb]. cbv iota.
    unfold get_suggested_category. now rewrite not_gt0_fneg_fabs.
Qed.

Lemma parse_loop_normalised rows : forall ts out ts' out',
  Forall normalised ts ->
  parse_loop rows ts out = (inl ts', out') -> Forall normalised ts'.
Proof.
  induction rows as [|[[[ds d] s]|e] rows IH]; intros ts out ts' out' Hts H;
    cbn [parse_loop] in H.
  - inversion H; subst. exact Hts.
  - destruct (parse_fields ds d s) as [t|line|e] eqn:E.
    + apply (IH _ _ _ _) in H; [exact H|].
      apply Forall_app. split; [exact Hts|].
      constructor; [|constructor]. now apply (parse_fields_normalised ds d s).
    + now apply (IH _ _ _ _ Hts) in H.
    + discriminate.
  - discriminate.
Qed.

(** X24. Every transaction [parse_csv] returns, for whatever file and
    column names, with or without a header, has as date the ISO text
    of a date of the calendar, an amount that is not negative, type
    'income' with an amount above 0 or type 'expense' with the
    category [categorize] gives, and a category that is one of the ten
    the database creates. *)
Theorem imported_transactions_are_normalised
    (records : list record) (date_col desc_col amount_col : string) (skip_header : bool)
    (transactions : list parsed) (out : list string) :
  parse_csv_file records date_col desc_col amount_col skip_header = (inl transactions, out) ->
  Forall normalised transactions.
Proof.
  unfold parse_csv_file. intros H.
  now apply (parse_loop_normalised _ [] [] transactions out (Forall_nil _)) in H.
Qed.

Lemma imported_transactions_are_normalised_witness :
  Forall normalised
    [mk_parsed "2024-01-05" "Payroll fee" (Fin (7 # 2)) "Salary" "expense"].
Proof.
  apply (imported_transactions_are_normalised
           [["Date"; "Description"; "Amount"]; ["01/05/2024"; "Payroll fee"; "(3.50)"]]
           "Date" "Description" "Amount" true _ []).
  vm_compute. reflexivity.
Defined.

(** *** [int] on the text of a number *)

Lemma digit_not_underscore c : is_digit c = true -> Ascii.eqb c "_" = false.
Proof.
  intros H. destruct (Ascii.eqb_spec c "_") as [->|]; [discriminate H | reflexivity].
Qed.

Lemma drop_underscores_digits s : forall prev,
  all_chars is_digit s = true -> Ascii.eqb prev "_" = false ->
  drop_underscores prev s = Some s.
Proof.
  induction s as [|c s IH]; intros prev Hs Hp; cbn [drop_underscores].
  - now rewrite Hp.
  - cbn [all_chars] in Hs. apply andb_true_iff in Hs. destruct Hs as [Hc Hs].
    rewrite (digit_not_underscore c Hc), Hp. cbn [andb].
    now rewrite (IH c Hs (digit_not_underscore c Hc)).
Qed.

Lemma strip_digits s : all_chars is_digit s = true -> c_strip s = s.
Proof.
  intros H. apply c_strip_no_space.
  apply (all_chars_impl is_digit); [|exact H].
  intros c Hc. now rewrite (digit_not_space c Hc).
Qed.

Lemma take_sign_digit c t : is_digit c = true -> take_sign (String c t) = (false, String c t).
Proof.
  intros H. unfold take_sign.
  destruct c as [[] [] [] [] [] [] [] []]; first [discriminate H | reflexivity].
Qed.

Lemma int_digits s ds :
  take_digits s = (ds, "") -> ds <> [] -> List.length ds <= 43 * 100 ->
  int s = Ok (digits_value ds).
Proof.
  intros E Hne Hlen.
  pose proof (take_digits_all s ds E) as Hs.
  unfold int. rewrite (strip_digits s Hs).
  rewrite (drop_underscores_digits s zero Hs eq_refl).
  destruct s as [|c t].
  - cbn in E. inversion E; subst. now elim Hne.
  - cbn [all_chars] in Hs. apply andb_true_iff in Hs.
    rewrite (take_sign_digit c t (proj1 Hs)), E.
    destruct ds as [|d ds]; [now elim Hne|].
    replace (43 * 100 <? List.length (d :: ds)) with false
      by (symmetry; apply Nat.ltb_ge; exact Hlen).
    reflexivity.
Qed.

Lemma int_minus_digits s ds :
  take_digits s = (ds, "") -> ds <> [] -> List.length ds <= 43 * 100 ->
  int (String "-" s) = Ok (- digits_value ds)%Z.
Proof.
  intros E Hne Hlen.
  pose proof (take_digits_all s ds E) as Hs.
  assert (Hst : c_strip (String "-" s) = String "-" s).
  { apply c_strip_no_space. cbn [all_chars]. apply andb_true_iff. split; [reflexivity|].
    apply (all_chars_impl is_digit); [|exact Hs].
    intros c Hc. now rewrite (digit_not_space c Hc). }
  unfold int. rewrite Hst. cbn [drop_underscores].
  change (Ascii.eqb "-" "_") with false. change (Ascii.eqb zero "_") with false.
  cbv iota. cbn [andb].
  rewrite (drop_underscores_digits s "-" Hs eq_refl). cbn [option_map take_sign].
  rewrite E. destruct ds as [|d ds]; [now elim Hne|].
  replace (43 * 100 <? List.length (d :: ds)) with false
    by (symmetry; apply Nat.ltb_ge; exact Hlen).
  reflexivity.
Qed.

Lemma uint_digits u :
  exists ds,
    take_digits (NilEmpty.string_of_uint u) = (ds, "") /\
    List.length ds = String.length (NilEmpty.string_of_uint u) /\
    (forall acc, fold_left (fun a d => (10 * a + Z.of_nat d)%Z) ds (Zpos acc) =
                 Zpos (Pos.of_uint_acc u acc)) /\
    fold_left (fun a d => (10 * a + Z.of_nat d)%Z) ds 0%Z = Z.of_N (Pos.of_uint u).
Proof.
  induction u as [|u IH|u IH|u IH|u IH|u IH|u IH|u IH|u IH|u IH|u IH];
    [exists []; repeat split|..];
    destruct IH as (ds & E & L & A & B);
    [exists (0 :: ds)|exists (1 :: ds)|exists (2 :: ds)|exists (3 :: ds)|exists (4 :: ds)
    |exists (5 :: ds)|exists (6 :: ds)|exists (7 :: ds)|exists (8 :: ds)|exists (9 :: ds)];
    cbn [NilEmpty.string_of_uint take_digits];
    match goal with
    | |- context [digit_val ?c] =>
        let v := eval vm_compute in (digit_val c) in change (digit_val c) with v
    end;
    cbv iota; rewrite E;
    (split; [reflexivity|]);
    (split; [cbn [List.length String.length]; now rewrite L|]);
    cbn [fold_left Pos.of_uint_acc Pos.of_uint];
    (split; [intros acc; rewrite <- A; f_equal; lia|]);
    first [exact B | cbn [Z.of_N]; rewrite <- A; reflexivity].
Qed.

Lemma uint_not_nil_text u :
  u <> Decimal.Nil -> NilZero.string_of_uint u = NilEmpty.string_of_uint u.
Proof. destruct u; [intros H; now elim H | reflexivity ..]. Qed.

Lemma uint_digits_nonempty u ds :
  u <> Decimal.Nil -> take_digits (NilEmpty.string_of_uint u) = (ds, "") -> ds <> [].
Proof.
  intros Hu E ->.
  destruct u; [now elim Hu|..]; cbn [NilEmpty.string_of_uint take_digits] in E;
    match type of E with
    | context [digit_val ?c] =>
        let v := eval vm_compute in (digit_val c) in change (digit_val c) with v in E
    end;
    cbv iota in E;
    destruct (take_digits (NilEmpty.string_of_uint u)); discriminate E.
Qed.

(** [int(str(n)) == n], within the limit on the number of digits. *)
Lemma int_fmt_d n :
  String.length (FinanceDatabase.fmt_d n) <= 43 * 100 ->
  int (FinanceDatabase.fmt_d n) = Ok n.
Proof.
  unfold FinanceDatabase.fmt_d. destruct n as [|p|p]; [intros _; reflexivity|..];
    cbn [Z.to_int NilZero.string_of_int];
    rewrite (uint_not_nil_text _ (DecimalPos.Unsigned.to_uint_nonnil p));
    destruct (uint_digits (Pos.to_uint p)) as (ds & E & L & _ & B);
    pose proof (uint_digits_nonempty _ ds (DecimalPos.Unsigned.to_uint_nonnil p) E) as Hne;
    intros Hlen.
  - rewrite (int_digits _ ds E Hne) by (rewrite L; exact Hlen).
    unfold digits_value. now rewrite B, DecimalPos.Unsigned.of_to.
  - rewrite (int_minus_digits _ ds E Hne)
      by (rewrite L; cbn [String.length] in Hlen; lia).
    unfold digits_value. now rewrite B, DecimalPos.Unsigned.of_to.
Qed.

(** *** The category prompt *)

Lemma list_index_nat {A : Type} (l : list A) (j : nat) :
  list_index l (Z.of_nat j) = nth_error l j.
Proof.
  unfold list_index.
  replace (Z.of_nat j <? 0)%Z with false by (symmetry; apply Z.ltb_ge; lia).
  replace (0 <=? Z.of_nat j)%Z with true by (symmetry; apply Z.leb_le; lia).
  cbn [andb]. rewrite Nat2Z.id.
  destruct (Z.ltb_spec (Z.of_nat j) (Z.of_nat (List.length l))) as [H|H]; [reflexivity|].
  symmetry. apply nth_error_None. lia.
Qed.

Lemma nth_error_names (l : list (string * Q)) : forall j s,
  match nth_error l j with Some row => fst row | None => s end = nth j (map fst l) s.
Proof.
  induction l as [|x l IH]; intros [|j] s; cbn; auto.
Qed.

Lemma list_index_last (l : list (string * Q)) s :
  match list_index l (-1) with Some row => fst row | None => s end = last (map fst l) s.
Proof.
  destruct l as [|x l] using rev_ind; [reflexivity|].
  unfold list_index. rewrite length_app. cbn [List.length].
  replace (-1 <? 0)%Z with true by reflexivity.
  replace (-1 + Z.of_nat (List.length l + 1))%Z with (Z.of_nat (List.length l)) by lia.
  replace (0 <=? Z.of_nat (List.length l))%Z with true by (symmetry; apply Z.leb_le; lia).
  replace (Z.of_nat (List.length l) <? Z.of_nat (List.length l + 1))%Z with true
    by (symmetry; apply Z.ltb_lt; lia).
  cbn [andb]. rewrite Nat2Z.id, nth_error_app2, Nat.sub_diag by lia.
  cbn [nth_error]. rewrite map_app. cbn [map]. now rewrite last_last.
Qed.

Lemma fmt_d_not_empty n :
  String.length (FinanceDatabase.fmt_d n) <= 43 * 100 -> FinanceDatabase.fmt_d n <> "".
Proof.
  intros H E. pose proof (int_fmt_d n H) as I. rewrite E in I. discriminate I.
Qed.

(** X26. The number typed at the category prompt, as the menu prints
    it: the number [i] of a listed category selects that category, a
    number above the length of the list leaves the suggested category,
    and 0 selects the last category of the list (the suggested one
    when the list is empty). *)
Theorem menu_number_selects (today : datetime) (inc exp : list (string * Q))
    (date_input desc : string) (a : pyfloat) (cat_input : string) (i : nat) :
  strip cat_input = FinanceDatabase.fmt_d (Z.of_nat i) ->
  String.length (FinanceDatabase.fmt_d (Z.of_nat i)) <= 43 * 100 ->
  let categories := if gt0 a then inc else exp in
  let suggested :=
    get_suggested_category default_category_keywords (strip desc)
      (if gt0 a then a else fabs a) in
  category (entered_transaction today inc exp date_input desc a cat_input) =
  match i with
  | 0 => last (map fst categories) suggested
  | S j => nth j (map fst categories) suggested
  end.
Proof.
  intros E Hlen categories suggested.
  unfold entered_transaction. cbn [category]. rewrite E.
  fold categories. fold suggested. unfold chosen_category.
  pose proof (fmt_d_not_empty _ Hlen) as Hne.
  rewrite (int_fmt_d _ Hlen).
  destruct (FinanceDatabase.fmt_d (Z.of_nat i)) as [|c t]; [now elim Hne|].
  destruct i as [|j].
  - apply list_index_last.
  - replace (Z.of_nat (S j) - 1)%Z with (Z.of_nat j) by lia.
    rewrite list_index_nat. apply nth_error_names.
Qed.

Lemma menu_number_selects_witness :
  category (entered_transaction (mk_datetime 2024 1 5) []
              [("Food & Dining", 500%Q); ("Rent", 0%Q)]
              "" "Cinema" (Fin (- 12)) " 0 ") = "Rent" /\
  category (entered_transaction (mk_datetime 2024 1 5) []
              [("Food & Dining", 500%Q); ("Rent", 0%Q)]
              "" "Cinema" (Fin (- 12)) "1") = "Food & Dining".
Proof.
  split.
  - apply (menu_number_selects (mk_datetime 2024 1 5) []
             [("Food & Dining", 500%Q); ("Rent", 0%Q)] "" "Cinema" (Fin (- 12)) " 0 " 0);
      [reflexivity | vm_compute; lia].
  - apply (menu_number_selects (mk_datetime 2024 1 5) []
             [("Food & Dining", 500%Q); ("Rent", 0%Q)] "" "Cinema" (Fin (- 12)) "1" 1);
      [reflexivity | vm_compute; lia].
Defined.

(** *** The amount prompt and the suggestion *)

Lemma read_amount_skips bad : forall amount_input a rest,
  Forall (fun l => float l = Raise ValueError) bad -> float amount_input = Ok a ->
  read_amount (bad ++ amount_input :: rest) = Some (a, rest).
Proof.
  induction bad as [|l bad IH]; intros amount_input a rest Hb Ha; cbn [app read_amount].
  - now rewrite Ha.
  - inversion Hb; subst. rewrite H1. now apply IH.
Qed.

Lemma positive_not_other_expenses t d a :
  gt0 a = true -> get_suggested_category t d a <> "Other Expenses".
Proof.
  intros Ha. unfold get_suggested_category. rewrite Ha. cbn [andb].
  destruct (startswith (categorize t d) "Other") eqn:S.
  - destruct (any_word_in ["salary"; "payroll"; "employer"] d); [discriminate|].
    destruct (any_word_in ["freelance"; "consulting"; "contract"] d); discriminate.
  - intros E. rewrite E in S. discriminate S.
Qed.

Lemma unmatched_positive d a :
  gt0 a = true -> categorize default_category_keywords d = "Other Expenses" ->
  get_suggested_category default_category_keywords d a = "Other Income".
Proof.
  intros Ha Hc. unfold get_suggested_category. rewrite Ha, Hc.
  cbn [andb]. change (startswith "Other Expenses" "Other") with true. cbv iota.
  unfold categorize in Hc.
  destruct (scan_categories default_category_keywords (lower d)) as [c|] eqn:E.
  - apply scan_categories_some in E. subst c. simpl in E.
    repeat (destruct E as [E|E]; [discriminate E|]). contradiction.
  - pose proof (scan_categories_none _ _ E) as Hk.
    assert (Hsal : forall k,
               In k ["salary"; "payroll"; "wages"; "paycheck"; "employer";
                     "direct deposit"; "income"] ->
               str_in k (lower d) = false).
    { intros k. apply (Hk "Salary"). simpl. tauto. }
    assert (Hfree : forall k,
               In k ["freelance"; "consulting"; "contract"; "gig";
                     "side job"; "project payment"] ->
               str_in k (lower d) = false).
    { intros k. apply (Hk "Freelance"). simpl. tauto. }
    unfold any_word_in. simpl existsb.
    rewrite (Hsal "salary"), (Hsal "payroll"), (Hsal "employer"),
            (Hfree "freelance"), (Hfree "consulting"), (Hfree "contract");
      simpl; tauto.
Qed.

(** X25. An expense typed in by hand is suggested a category as if it
    were an income.  [add_transaction] of the application asks for the
    amount until [float] accepts a line; for an amount below 0 it
    stores type 'expense' and the absolute value, and it computes the
    suggestion from that absolute value.  So when the category prompt
    is answered with Enter, the category is never "Other Expenses",
    and a description that matches no keyword is stored under
    "Other Income": a transaction the importer would not produce. *)
Theorem typed_expense_is_suggested_as_income
    (today : datetime) (inc exp : list (string * Q))
    (date_input desc : string) (bad : list string) (amount_input : string)
    (a : pyfloat) (cat_input : string) (later : list string) :
  Forall (fun l => float l = Raise ValueError) bad ->
  float amount_input = Ok a ->
  gt0 a = false -> gt0 (fabs a) = true ->
  strip cat_input = "" ->
  exists t,
    add_transaction today inc exp
      (date_input :: desc :: bad ++ amount_input :: cat_input :: later) = Some t /\
    trans_type t = "expense" /\ amount t = fabs a /\ description t = strip desc /\
    category t <> "Other Expenses" /\
    (categorize default_category_keywords (strip desc) = "Other Expenses" ->
     category t = "Other Income" /\ ~ normalised t).
Proof.
  intros Hb Ha Hn Hp Hc.
  exists (entered_transaction today inc exp date_input desc a cat_input).
  split.
  { cbn [add_transaction]. now rewrite (read_amount_skips bad amount_input a _ Hb Ha). }
  unfold entered_transaction. rewrite Hn, Hc.
  cbn [trans_type amount description category chosen_category].
  split; [reflexivity|]. split; [reflexivity|]. split; [reflexivity|].
  split; [now apply positive_not_other_expenses|].
  intros Hu. pose proof (unmatched_positive _ _ Hp Hu) as Hs.
  split; [exact Hs|].
  intros (_ & _ & _ & [[Ht _]|[_ Hcat]] & _);
    cbn [trans_type category description] in *.
  - discriminate Ht.
  - rewrite Hs, Hu in Hcat. discriminate Hcat.
Qed.

Lemma typed_expense_is_suggested_as_income_witness :
  exists t,
    add_transaction (mk_datetime 2024 1 5) [] []
      ["2024-01-05"; "Birthday present"; "twenty"; "-20"; ""] = Some t /\
    trans_type t = "expense" /\ category t = "Other Income".
Proof.
  destruct (typed_expense_is_suggested_as_income (mk_datetime 2024 1 5) [] []
              "2024-01-05" "Birthday present" ["twenty"] "-20" (Fin (-20 # 1)) "" [])
    as (t & E & Ht & _ & _ & _ & Hu).
  - repeat constructor.
  - vm_compute. reflexivity.
  - reflexivity.
  - reflexivity.
  - reflexivity.
  - exists t. split; [exact E|]. split; [exact Ht|]. apply Hu. vm_compute. reflexivity.
Defined.

End EntryFacts.

(* ------------------------------------------------------------------ *)
(** ** The months of the trend chart *)

Module TrendFacts.
Import Py DateTime FinanceDatabase FinanceAnalyzer.

Lemma minus_days_add dt a : forall b,
  minus_days dt (a + b) =
  match minus_days dt a with
  | Some dt' => minus_days dt' b
  | None => None
  end.
Proof.
  revert dt. induction a as [|a IH]; intros dt b; cbn [Nat.add minus_days]; [reflexivity|].
  destruct (day_before dt) as [dt'|]; [apply IH | reflexivity].
Qed.

Lemma trend_loop_dates d today range : forall acc l,
  trend_loop d today range acc = Some l ->
  exists dates,
    Forall2 (fun i md => minus_days today (30 * i) = Some md) range dates /\
    l = (acc ++ map (fun md => get_monthly_summary d (Z.of_nat (year md))
                                 (Z.of_nat (month md))) dates)%list.
Proof.
  induction range as [|i range IH]; intros acc l H; cbn [trend_loop] in H.
  - inversion H; subst. exists []. split; [constructor | now rewrite app_nil_r].
  - destruct (minus_days today (30 * i)) as [md|] eqn:E; [|discriminate].
    destruct (IH _ _ H) as (dates & HF & ->).
    exists (md :: dates). split; [now constructor|].
    now rewrite <- app_assoc.
Qed.

Lemma day_31_back y m : minus_days (mk_datetime y m 31) 30 = Some (mk_datetime y m 1).
Proof. reflexivity. Qed.

Lemma march_1_back y :
  minus_days (mk_datetime y 3 1) 30 =
  Some (mk_datetime y 1 (if is_leap y then 31 else 30)).
Proof.
  change 30 with (1 + 29) at 1. rewrite minus_days_add.
  change (minus_days (mk_datetime y 3 1) 1)
    with (Some (mk_datetime y 2 (if is_leap y then 29 else 28))).
  cbv iota. destruct (is_leap y); reflexivity.
Qed.

(** Going back from January stays in January or reaches an earlier
    year. *)
Lemma day_before_january y dt dt' :
  year dt < y \/ (year dt = y /\ month dt = 1) ->
  day_before dt = Some dt' ->
  year dt' < y \/ (year dt' = y /\ month dt' = 1).
Proof.
  intros H. unfold day_before.
  destruct (Nat.ltb_spec 1 (day dt)).
  - intros E. inversion E; subst. exact H.
  - destruct (Nat.ltb_spec 1 (month dt)).
    + intros E. inversion E; subst. cbn [DateTime.year DateTime.month]. lia.
    + destruct (Nat.ltb_spec 1 (year dt)); [|discriminate].
      intros E. inversion E; subst. cbn [DateTime.year DateTime.month]. lia.
Qed.

Lemma minus_days_january y n : forall dt dt',
  year dt < y \/ (year dt = y /\ month dt = 1) ->
  minus_days dt n = Some dt' ->
  year dt' < y \/ (year dt' = y /\ month dt' = 1).
Proof.
  induction n as [|n IH]; intros dt dt' H E; cbn [minus_days] in E.
  - inversion E; subst. exact H.
  - destruct (day_before dt) as [dt1|] eqn:E1; [|discriminate].
    apply (IH dt1 dt' (day_before_january y dt dt1 H E1) E).
Qed.

(** X27. The months of the trend chart.  [plot_monthly_trend] takes
    the month of the day 30*i days before today, for i from 0 below
    [months], and plots their summaries, the oldest first.  So on the
    31st of a month the second point is the same month as the first:
    the month is plotted twice.  And on the first of March no point is
    February of that year: the second point is January, and February
    is left out of the chart. *)
Theorem trend_months_repeat_and_skip
    (d : db) (today : datetime) (months : Z) (l : list summary) :
  monthly_data d today months = Some l ->
  exists dates,
    l = rev (map (fun md => get_monthly_summary d (Z.of_nat (year md))
                              (Z.of_nat (month md))) dates) /\
    Forall2 (fun i md => minus_days today (30 * i) = Some md)
            (seq 0 (Z.to_nat months)) dates /\
    (forall md, nth_error dates 0 = Some md -> md = today) /\
    (day today = 31 ->
     forall md, nth_error dates 1 = Some md ->
       year md = year today /\ month md = month today) /\
    (month today = 3 -> day today = 1 ->
     (forall md, nth_error dates 1 = Some md ->
        year md = year today /\ month md = 1) /\
     Forall (fun md => ~ (year md = year today /\ month md = 2)) dates).
Proof.
  unfold monthly_data. intros H.
  destruct (trend_loop d today (seq 0 (Z.to_nat months)) []) as [l0|] eqn:E;
    [|discriminate].
  cbn [option_map] in H. inversion H; subst l; clear H.
  destruct (trend_loop_dates _ _ _ _ _ E) as (dates & HF & ->).
  cbn [app]. exists dates. split; [reflexivity|]. split; [exact HF|].
  assert (At : forall i md, nth_error dates i = Some md ->
                            minus_days today (30 * i) = Some md).
  { intros i md Hi.
    assert (G : forall range start, Forall2 (fun i md => minus_days today (30 * i) = Some md) range dates ->
                range = seq start (List.length range) ->
                minus_days today (30 * (start + i)) = Some md).
    { clear HF E. revert i Hi. induction dates as [|x dates IH]; intros i Hi range start HF Hr.
      - destruct i; discriminate.
      - inversion HF as [|j y0 r' l' Hj HF' Er]; subst. cbn [List.length seq] in Hr.
        inversion Hr as [[Hs Hr']]. subst start. destruct i as [|i].
        + cbn [nth_error] in Hi. inversion Hi; subst. now rewrite Nat.add_0_r.
        + cbn [nth_error] in Hi.
          replace (j + S i) with (S j + i) by lia.
          apply (IH i Hi r' (S j) HF' Hr'). }
    apply (G (seq 0 (Z.to_nat months)) 0 HF).
    now rewrite length_seq. }
  split.
  { intros md H0. apply At in H0. change (30 * 0) with 0 in H0.
    cbn [minus_days] in H0. now inversion H0. }
  split.
  { intros H31 md H1. apply At in H1. change (30 * 1) with 30 in H1.
    destruct today as [y m dd]. cbn [DateTime.day] in H31. subst dd.
    rewrite day_31_back in H1. inversion H1; subst. split; reflexivity. }
  intros H3 H1. destruct today as [y m dd].
  cbn [DateTime.month DateTime.day DateTime.year] in *. subst m dd.
  split.
  { intros md Hm. apply At in Hm. change (30 * 1) with 30 in Hm.
    rewrite march_1_back in Hm. inversion Hm; subst. split; reflexivity. }
  apply Forall_forall. intros md Hin.
  destruct (In_nth_error _ _ Hin) as [i Hi]. apply At in Hi.
  destruct i as [|i].
  - change (30 * 0) with 0 in Hi. cbn [minus_days] in Hi. inversion Hi; subst.
    cbn [DateTime.year DateTime.month]. intros [_ F]. discriminate F.
  - replace (30 * S i) with (30 + 30 * i) in Hi by lia.
    rewrite minus_days_add, march_1_back in Hi.
    apply (minus_days_january y) in Hi; [|right; split; reflexivity].
    intros [Hy Hm]. destruct Hi as [Hi|[_ Hi]]; [lia | congruence].
Qed.

Lemma trend_months_repeat_and_skip_witness :
  exists dates,
    Forall2 (fun i md => minus_days (mk_datetime 2024 3 1) (30 * i) = Some md)
            [0; 1; 2] dates /\
    Forall (fun md => ~ (year md = 2024 /\ month md = 2)) dates.
Proof.
  assert (E : exists l, monthly_data new_db (mk_datetime 2024 3 1) 3 = Some l).
  { unfold monthly_data.
    destruct (trend_loop new_db (mk_datetime 2024 3 1) (seq 0 (Z.to_nat 3)) []) eqn:T;
      [eexists; reflexivity | vm_compute in T; discriminate T]. }
  destruct E as [l E].
  destruct (trend_months_repeat_and_skip new_db (mk_datetime 2024 3 1) 3 l E)
    as (dates & _ & HF & _ & _ & Hs).
  exists dates. split; [exact HF|]. apply Hs; reflexivity.
Defined.

End TrendFacts.
